(** * Opening hours: parsing and status engine

    A shallow embedding of [src/lib/hours.ts] and [src/lib/time.ts]:
    the clock-time parser, the day-spec parser, the line parser with its
    overnight split, the time-zone alias table and the status engine,
    followed by the properties established about them. *)

From Stdlib Require Import ZArith NArith List String Ascii Bool Lia DecimalString.
From Stdlib Require Import Permutation Sorted.
Import ListNotations.
Open Scope Z_scope.

(** ** JavaScript strings

    A JavaScript string is a sequence of UTF-16 code units.  [slice],
    [search] and the regular expressions of the source all count in code
    units, so the model keeps them as numbers rather than as bytes. *)

Definition code := N.
Definition str := list code.
Bind Scope N_scope with code.

Local Open Scope N_scope.

(** An ASCII literal as a JavaScript string. *)
Definition js (s : string) : str := map N_of_ascii (list_ascii_of_string s).

Fixpoint eqs (a b : str) : bool :=
  match a, b with
  | [], [] => true
  | x :: a', y :: b' => N.eqb x y && eqs a' b'
  | _, _ => false
  end.

Definition inRange (lo hi c : code) : bool := N.leb lo c && N.leb c hi.

Definition isDigit (c : code) : bool := inRange 48 57 c.

(** White space and line terminators: the set removed by [trim] and matched
    by [\s]. *)
Definition isWhiteSpace (c : code) : bool :=
  inRange 9 13 c || N.eqb c 32 || N.eqb c 160 || N.eqb c 5760
  || inRange 8192 8202 c || N.eqb c 8232 || N.eqb c 8233 || N.eqb c 8239
  || N.eqb c 8287 || N.eqb c 12288 || N.eqb c 65279.

Fixpoint dropWhile (p : code -> bool) (s : str) : str :=
  match s with
  | [] => []
  | c :: s' => if p c then dropWhile p s' else s
  end.

Definition trim (s : str) : str :=
  rev (dropWhile isWhiteSpace (rev (dropWhile isWhiteSpace s))).

(** [toLowerCase], one code unit at a time.  The ASCII capitals are mapped;
    so are the two capitals outside ASCII whose lower case reaches into
    ASCII (U+0130 gives [i] followed by U+0307, the Kelvin sign U+212A gives
    [k]).  Every other case pair of Unicode stays outside ASCII and outside
    the white-space set, where no pattern of this file looks, and is left
    in place. *)
Definition lowerUnit (c : code) : str :=
  if inRange 65 90 c then [c + 32]
  else if N.eqb c 304 then [105; 775]
  else if N.eqb c 8490 then [107]
  else [c].

Definition toLowerCase (s : str) : str := flat_map lowerUnit s.

(** [s.split(sep)] for a one-unit separator: at least one piece. *)
Fixpoint split (sep : code) (s : str) : list str :=
  match s with
  | [] => [[]]
  | c :: s' =>
      if N.eqb c sep then [] :: split sep s'
      else match split sep s' with
           | p :: ps => (c :: p) :: ps
           | [] => [[c]]
           end
  end.

(** [s.slice(0, n)] for [n >= 0]. *)
Definition slice0 (n : nat) (s : str) : str := firstn n s.

Definition substring (from to : nat) (s : str) : str :=
  firstn (to - from)%nat (skipn from s).

(** [s.includes(t)]. *)
Fixpoint startsWith (t s : str) : bool :=
  match t, s with
  | [], _ => true
  | x :: t', y :: s' => N.eqb x y && startsWith t' s'
  | _ :: _, [] => false
  end.

Fixpoint includes (t s : str) : bool :=
  startsWith t s ||
  match s with
  | [] => false
  | _ :: s' => includes t s'
  end.

(** [s.padStart(n, "0")]. *)
Definition padStart0 (n : nat) (s : str) : str :=
  repeat 48 (n - List.length s)%nat ++ s.

(** U+2013 and U+2014 become a hyphen: [text.replace(/[\u2013\u2014]/g, "-")]. *)
Definition isDashVariant (c : code) : bool := N.eqb c 8211 || N.eqb c 8212.

Local Close Scope N_scope.

(** ** JavaScript numbers

    The numbers of this program are minute counts and clock fields: integers
    far below 2^53, where double arithmetic is exact, together with [NaN].
    [Num z] is the double of value [z]. *)

Inductive number : Type :=
| Num (z : Z)
| NaN.

Definition isNaN (x : number) : bool :=
  match x with NaN => true | Num _ => false end.

Definition nadd (x y : number) : number :=
  match x, y with Num a, Num b => Num (a + b) | _, _ => NaN end.

Definition nsub (x y : number) : number :=
  match x, y with Num a, Num b => Num (a - b) | _, _ => NaN end.

Definition nmul (x y : number) : number :=
  match x, y with Num a, Num b => Num (a * b) | _, _ => NaN end.

(** Comparisons: every comparison with [NaN] is false. *)
Definition nlt (x y : number) : bool :=
  match x, y with Num a, Num b => a <? b | _, _ => false end.

Definition nle (x y : number) : bool :=
  match x, y with Num a, Num b => a <=? b | _, _ => false end.

Definition ngt (x y : number) : bool := nlt y x.
Definition nge (x y : number) : bool := nle y x.

(** [x === y] on numbers. *)
Definition neq (x y : number) : bool :=
  match x, y with Num a, Num b => a =? b | _, _ => false end.

(** [Math.min(...xs)] for a non-empty argument list: [NaN] is absorbing. *)
Definition nmin (x y : number) : number :=
  match x, y with Num a, Num b => Num (Z.min a b) | _, _ => NaN end.

Definition digitsValue (s : str) : Z :=
  fold_left (fun acc c => 10 * acc + (Z.of_N c - 48)) s 0.

(** [Number(s)] on the strings this program hands to it: white space is
    trimmed, the empty string is [0], a run of decimal digits is its value.
    Signed, fractional, exponent and radix-prefixed literals are outside the
    model (the parsers below never emit them); like every other text they
    are given [NaN] here. *)
Definition Number (s : str) : number :=
  let t := trim s in
  match t with
  | [] => Num 0
  | _ => if forallb isDigit t then Num (digitsValue t) else NaN
  end.

(** [String(x)] for the numbers above. *)
Definition numberToString (x : number) : str :=
  match x with
  | NaN => js "NaN"
  | Num z =>
      if z <? 0 then js "-" ++ js (NilZero.string_of_uint (N.to_uint (Z.to_N (- z))))
      else js (NilZero.string_of_uint (N.to_uint (Z.to_N z)))
  end.

(** ** [src/lib/types.ts] *)

Record HoursSpan : Type := mkSpan {
  day : Z;      (* 0=Sun, 6=Sat *)
  open : str;   (* HH:mm *)
  close : str;  (* HH:mm (24:00 allowed) *)
}.

(** ** [src/lib/hours.ts]: helpers *)

Definition pad (value : number) : str := padStart0 2 (numberToString value).

Definition normalizeDash (text : str) : str :=
  map (fun c => if isDashVariant c then 45%N else c) text.

(** [const [h, m] = value.split(":").map(Number)]: a missing second piece
    leaves [m] undefined, which [Number.isNaN] does not flag and which turns
    the sum into [NaN]. *)
Definition toMinutes (value : str) : number :=
  match map Number (split 58%N value) with
  | h :: m :: _ =>
      if isNaN h || isNaN m then Num 0 else nadd (nmul h (Num 60)) m
  | [h] => if isNaN h then Num 0 else NaN
  | [] => NaN
  end.

(** ** Regular expressions

    The patterns of the source use literals, classes, [?], [{1,2}], a star
    over one class, alternation, groups and the anchors [^] and [$].  They
    are run the way a JavaScript engine runs them: leftmost, by
    backtracking, greedy, first alternative first.  A class is a predicate
    on code units; a capture is a pair of positions in the subject. *)

Inductive regex : Type :=
| Eps
| Chr (p : code -> bool)
| Cat (r1 r2 : regex)
| Alt (r1 r2 : regex)
| Opt (r : regex)
| Star (p : code -> bool)
| Grp (n : nat) (r : regex)
| Bol
| Eol.

Definition captures := list (nat * (nat * nat)).

Section Matcher.
Context {R : Type}.

(** What remains to be matched: it is given the rest of the subject, the
    position reached and the captures so far. *)
Definition cont := str -> nat -> captures -> option R.

Fixpoint star (p : code -> bool) (k : cont) (s : str) (pos : nat) (c : captures)
  : option R :=
  match s with
  | a :: s' =>
      if p a then
        match star p k s' (S pos) c with
        | Some x => Some x
        | None => k s pos c
        end
      else k s pos c
  | [] => k s pos c
  end.

Fixpoint rx (r : regex) (k : cont) (s : str) (pos : nat) (c : captures)
  : option R :=
  match r with
  | Eps => k s pos c
  | Chr p =>
      match s with
      | a :: s' => if p a then k s' (S pos) c else None
      | [] => None
      end
  | Cat r1 r2 => rx r1 (rx r2 k) s pos c
  | Alt r1 r2 =>
      match rx r1 k s pos c with
      | Some x => Some x
      | None => rx r2 k s pos c
      end
  | Opt r1 =>
      match rx r1 k s pos c with
      | Some x => Some x
      | None => k s pos c
      end
  | Star p => star p k s pos c
  | Grp n r1 => rx r1 (fun s' pos' c' => k s' pos' ((n, (pos, pos')) :: c')) s pos c
  | Bol => if Nat.eqb pos 0 then k s pos c else None
  | Eol => match s with [] => k s pos c | _ :: _ => None end
  end.
End Matcher.

Record MatchResult : Type := mkMatch {
  mstart : nat;
  mend : nat;
  mgroups : captures;
}.

Definition matchHere (r : regex) (s : str) (pos : nat) : option MatchResult :=
  rx r (fun _ e c => Some (mkMatch pos e c)) s pos [].

(** The first position, from [pos] on, where the pattern matches; [s] is the
    subject from [pos] on. *)
Fixpoint searchFrom (r : regex) (s : str) (pos : nat) : option MatchResult :=
  match matchHere r s pos with
  | Some m => Some m
  | None =>
      match s with
      | [] => None
      | _ :: s' => searchFrom r s' (S pos)
      end
  end.

(** [subject.match(r)] for a pattern without the [g] flag. *)
Definition exec (r : regex) (subject : str) : option MatchResult :=
  searchFrom r subject 0.

(** [r.test(subject)]. *)
Definition test (r : regex) (subject : str) : bool :=
  match exec r subject with Some _ => true | None => false end.

(** [subject.search(r)]: the index, or -1. *)
Definition search (r : regex) (subject : str) : Z :=
  match exec r subject with
  | Some m => Z.of_nat (mstart m)
  | None => -1
  end.

Fixpoint lookupGroup (n : nat) (c : captures) : option (nat * nat) :=
  match c with
  | [] => None
  | (i, se) :: c' => if Nat.eqb i n then Some se else lookupGroup n c'
  end.

(** [match[n]]: the text of group [n], or undefined. *)
Definition group (n : nat) (m : MatchResult) (subject : str) : option str :=
  match lookupGroup n (mgroups m) with
  | Some (s, e) => Some (substring s e subject)
  | None => None
  end.

(** [subject.match(r)] for a pattern with the [g] flag: the matched texts
    from left to right.  [s] is the subject from [pos] on; a match is looked
    for again where the last one ended (one unit further after an empty
    match). *)
Fixpoint matchAllFrom (fuel : nat) (r : regex) (subject s : str) (pos : nat)
  : list str :=
  match fuel with
  | O => []
  | S fuel' =>
      match searchFrom r s pos with
      | None => []
      | Some m =>
          let next := if Nat.eqb (mend m) (mstart m) then S (mend m) else mend m in
          substring (mstart m) (mend m) subject
            :: matchAllFrom fuel' r subject (skipn (next - pos) s) next
      end
  end.

Definition matchAll (r : regex) (subject : str) : list str :=
  matchAllFrom (S (List.length subject)) r subject subject 0.

(** Pattern pieces. *)
Definition seq (rs : list regex) : regex := fold_right Cat Eps rs.
Definition alts (r : regex) (rs : list regex) : regex := fold_left Alt rs r.

Definition chr (c : code) : regex := Chr (N.eqb c).

(** A letter under the [i] flag: itself or its ASCII capital.  (Without the
    [u] flag no code unit outside ASCII is folded onto an ASCII letter.) *)
Definition foldsTo (c : code) (a : code) : bool :=
  (N.eqb a c || (inRange 97 122 c && N.eqb a (c - 32)))%N.
Definition chrI (c : code) : regex := Chr (foldsTo c).

Definition lit (s : string) : regex := seq (map chr (js s)).
Definition litI (s : string) : regex := seq (map chrI (js s)).

Definition digit : regex := Chr isDigit.
Definition spaces : regex := Star isWhiteSpace.

(** ** [src/lib/hours.ts]: the patterns *)

(** The weekday alternation shared by [DAY_REGEX] and the range pattern of
    [parseDaysPart]:
    [(sun(?:day)?|mon(?:day)?|tue(?:s|sday)?|wed(?:nesday)?|thu(?:r|rs|rsday)?|fri(?:day)?|sat(?:urday)?)].
    [L] builds a literal: case-insensitive for [DAY_REGEX] (flags [gi]),
    exact for the range pattern (no flag). *)
Definition dayAlternation (L : string -> regex) : regex :=
  (alts (Cat (L "sun") (Opt (L "day")))
     [ Cat (L "mon") (Opt (L "day"));
       Cat (L "tue") (Opt (Alt (L "s") (L "sday")));
       Cat (L "wed") (Opt (L "nesday"));
       Cat (L "thu") (Opt (alts (L "r") [L "rs"; L "rsday"]));
       Cat (L "fri") (Opt (L "day"));
       Cat (L "sat") (Opt (L "urday")) ])%string.

Definition DAY_REGEX : regex := Grp 1 (dayAlternation litI).

(** [<day>\s*(?:-|to)\s*<day>] *)
Definition dayRangeRegex : regex :=
  seq [ Grp 1 (dayAlternation lit); spaces; Alt (lit "-") (lit "to"); spaces;
        Grp 2 (dayAlternation lit) ].

(** [/^(\d{1,2})(?::(\d{2}))?(am|pm)?$/i] *)
Definition clockRegex : regex :=
  seq [ Bol; Grp 1 (Cat digit (Opt digit));
        Opt (Cat (lit ":") (Grp 2 (Cat digit digit)));
        Opt (Grp 3 (Alt (litI "am") (litI "pm")));
        Eol ].

(** [\d{1,2}(?::\d{2})?\s*(?:am|pm)?], under the [i] flag *)
Definition timeToken : regex :=
  seq [ digit; Opt digit; Opt (seq [lit ":"; digit; digit]); spaces;
        Opt (Alt (litI "am") (litI "pm")) ].

(** [/(<time>)\s*[-]\s*(<time>)/i] *)
Definition timeRangeRegex : regex :=
  seq [ Grp 1 timeToken; spaces; lit "-"; spaces; Grp 2 timeToken ].

(** [/24\s*hours?/i] and [/open\s*24/i] *)
Definition allDayRegex1 : regex := seq [ lit "24"; spaces; litI "hour"; Opt (litI "s") ].
Definition allDayRegex2 : regex := seq [ litI "open"; spaces; lit "24" ].

(** [/closed/i] *)
Definition closedRegex : regex := litI "closed".

Definition DAY_MAP : list (string * Z) :=
  [ ("sun", 0); ("sunday", 0);
    ("mon", 1); ("monday", 1);
    ("tue", 2); ("tues", 2); ("tuesday", 2);
    ("wed", 3); ("weds", 3); ("wednesday", 3);
    ("thu", 4); ("thur", 4); ("thurs", 4); ("thursday", 4);
    ("fri", 5); ("friday", 5);
    ("sat", 6); ("saturday", 6) ]%string.

(** [DAY_MAP[token]], undefined for a token that is not a key. *)
Fixpoint lookupDay (table : list (string * Z)) (token : str) : option Z :=
  match table with
  | [] => None
  | (k, v) :: table' => if eqs (js k) token then Some v else lookupDay table' token
  end.

(** ** [src/lib/hours.ts]: the parsers *)

Definition cleanTime (value : str) : str :=
  filter (fun c => negb (N.eqb c 46))
    (filter (fun c => negb (isWhiteSpace c)) (toLowerCase value)).

Definition truthy (s : option str) : bool :=
  match s with Some (_ :: _) => true | _ => false end.

Definition parseTimeTo24h (value : str) : option str :=
  let cleaned := cleanTime value in
  match exec clockRegex cleaned with
  | None => None
  | Some m =>
      let hour := match group 1 m cleaned with Some s => Number s | None => NaN end in
      let minute :=
        match group 2 m cleaned with
        | Some ((_ :: _) as s) => Number s
        | _ => Num 0
        end in
      let meridiem := group 3 m cleaned in
      let finish (hour : number) :=
        if neq hour (Num 24) && negb (neq minute (Num 0)) then None
        else Some (pad hour ++ js ":" ++ pad minute) in
      if nlt minute (Num 0) || ngt minute (Num 59) then None
      else
        match meridiem with
        | Some ((_ :: _) as mer) =>
            if nlt hour (Num 1) || ngt hour (Num 12) then None
            else if eqs mer (js "am")
            then finish (if neq hour (Num 12) then Num 0 else hour)
            else finish (if neq hour (Num 12) then Num 12 else nadd hour (Num 12))
        | _ =>
            if nlt hour (Num 0) || ngt hour (Num 24) then None
            else finish hour
        end
  end.

(** The loop runs at most seven times and stops after pushing [end]. *)
Fixpoint expandDayRangeLoop (i : nat) (current e : Z) : list Z :=
  match i with
  | O => []
  | S i' =>
      current ::
      (if current =? e then []
       else expandDayRangeLoop i' (Z.rem (current + 1) 7) e)
  end.

Definition expandDayRange (start e : Z) : list Z :=
  expandDayRangeLoop 7 start e.

(** [Array.from(new Set(days))]: first occurrences, in order. *)
Fixpoint dedupe (seen : list Z) (days : list Z) : list Z :=
  match days with
  | [] => []
  | d :: days' =>
      if existsb (Z.eqb d) seen then dedupe seen days'
      else d :: dedupe (d :: seen) days'
  end.

Fixpoint filterDefined {A : Type} (xs : list (option A)) : list A :=
  match xs with
  | [] => []
  | Some x :: xs' => x :: filterDefined xs'
  | None :: xs' => filterDefined xs'
  end.

Definition allWeek : list Z := [0; 1; 2; 3; 4; 5; 6].

Definition parseDaysPart (text : str) : list Z :=
  let normalized := trim (normalizeDash (toLowerCase text)) in
  match normalized with
  | [] => []
  | _ :: _ =>
      if includes (js "daily") normalized || includes (js "every day") normalized
         || includes (js "everyday") normalized
      then allWeek
      else
        let tokens :=
          let matches := matchAll DAY_REGEX normalized in
          let days := filterDefined (map (lookupDay DAY_MAP) matches) in
          dedupe [] days in
        match exec dayRangeRegex normalized with
        | Some rangeMatch =>
            let start := match group 1 rangeMatch normalized with
                         | Some t => lookupDay DAY_MAP t | None => None end in
            let e := match group 2 rangeMatch normalized with
                     | Some t => lookupDay DAY_MAP t | None => None end in
            match start, e with
            | Some start, Some e => expandDayRange start e
            | _, _ => tokens
            end
        | None => tokens
        end
  end.

Record TimeRange : Type := mkRange { ropen : str; rclose : str }.

Definition parseTimeRange (text : str) : option TimeRange :=
  let normalized := normalizeDash text in
  if test allDayRegex1 normalized || test allDayRegex2 normalized
  then Some (mkRange (js "00:00") (js "24:00"))
  else
    match exec timeRangeRegex normalized with
    | None => None
    | Some m =>
        let parseGroup n :=
          match group n m normalized with
          | Some t => parseTimeTo24h t
          | None => None
          end in
        match parseGroup 1%nat, parseGroup 2%nat with
        | Some ((_ :: _) as o), Some ((_ :: _) as c) => Some (mkRange o c)
        | _, _ => None
        end
    end.

Definition normalizeSpan (span : HoursSpan) : list HoursSpan :=
  let openMinutes := toMinutes (open span) in
  let closeMinutes := toMinutes (close span) in
  if neq openMinutes closeMinutes then []
  else if nlt openMinutes closeMinutes then [span]
  else
    [ mkSpan (day span) (open span) (js "24:00");
      mkSpan (Z.rem (day span + 1) 7) (js "00:00") (close span) ].

(** The text handed to [parseDaysPart]: the line up to the first digit of
    its dash-normalized form when that digit is not at the start, the whole
    line otherwise. *)
Definition daysPartOf (line : str) : str :=
  let timeIndex := search digit (normalizeDash line) in
  if 0 <? timeIndex then slice0 (Z.to_nat timeIndex) line else line.

(** One turn of the loop over the lines: the spans pushed for [rawLine]. *)
Definition parseLine (rawLine : str) : list HoursSpan :=
  let line := trim rawLine in
  match line with
  | [] => []
  | _ :: _ =>
      if test closedRegex line then []
      else
        match parseTimeRange line with
        | None => []
        | Some timeRange =>
            let days := parseDaysPart (daysPartOf line) in
            map (fun d => mkSpan d (ropen timeRange) (rclose timeRange)) days
        end
  end.

Definition parseHoursLines (lines : list str) : list HoursSpan :=
  let spans := flat_map parseLine lines in
  flat_map normalizeSpan spans.


(** ** [src/lib/time.ts] *)

Definition NYC_TIMEZONE : str := js "America/New_York".

Definition aliases : list str :=
  map js
    [ "Eastern Standard Time"; "Eastern Daylight Time"; "EST"; "EDT";
      "US/Eastern" ]%string.

(** [value] is absent ([None]) or a string; [!value] holds for the absent
    and for the empty one. *)
Definition normalizeTimeZone (value : option str) : str :=
  match value with
  | None | Some [] => NYC_TIMEZONE
  | Some value =>
      let trimmed := trim value in
      match trimmed with
      | [] => NYC_TIMEZONE
      | _ :: _ => if existsb (eqs trimmed) aliases then NYC_TIMEZONE else trimmed
      end
  end.

(** The calendar behind [getZonedParts]: [toZonedTime] of date-fns-tz and
    the three getters of a (valid) [Date], with the ranges the language
    gives them. *)
Class ZonedClock : Type := {
  Date : Type;
  toZonedTime : Date -> str -> Date;
  getDay : Date -> Z;
  getHours : Date -> Z;
  getMinutes : Date -> Z;
  getDay_range : forall d, 0 <= getDay d <= 6;
  getHours_range : forall d, 0 <= getHours d <= 23;
  getMinutes_range : forall d, 0 <= getMinutes d <= 59;
}.

Record ZonedParts : Type := mkParts { zday : Z; zminutes : Z }.

Definition getZonedParts `{ZonedClock} (date : Date) (timeZone : str) : ZonedParts :=
  let zoned := toZonedTime date timeZone in
  mkParts (getDay zoned) (getHours zoned * 60 + getMinutes zoned).

(** ** [src/lib/hours.ts]: the status engine *)

Inductive HoursStatus : Type :=
| st_open
| st_closing_soon
| st_opening_soon
| st_closed.

Record HoursStatusResult : Type := mkResult {
  status : HoursStatus;
  minutesUntilClose : option number;
  minutesUntilOpen : option number;
}.

Record HoursStatusOptions : Type := mkOptions {
  closingSoonMinutes : option number;
  openingSoonMinutes : option number;
}.

Definition noOptions : HoursStatusOptions := mkOptions None None.

(** A defaulted parameter [timeZone: string = NYC_TIMEZONE]. *)
Definition orNYC (timeZone : option str) : str :=
  match timeZone with Some t => t | None => NYC_TIMEZONE end.

(** [minutes >= toMinutes(span.open) && minutes < toMinutes(span.close)] *)
Definition contains (minutes : Z) (span : HoursSpan) : bool :=
  nge (Num minutes) (toMinutes (open span))
  && nlt (Num minutes) (toMinutes (close span)).

(** [xs.sort((a, b) => a - b)] on numbers, by stable insertion. *)
Fixpoint insertAscending (x : number) (xs : list number) : list number :=
  match xs with
  | [] => [x]
  | y :: ys => if ngt (nsub x y) (Num 0) then y :: insertAscending x ys else x :: xs
  end.

Definition sortAscending (xs : list number) : list number :=
  fold_right insertAscending [] xs.

Section Engine.
Context `{ZonedClock}.

Definition isOpenAt (spans : list HoursSpan) (date : Date) (timeZone : option str)
  : bool :=
  match spans with
  | [] => false
  | _ :: _ =>
      let parts := getZonedParts date (normalizeTimeZone (Some (orNYC timeZone))) in
      existsb
        (fun span =>
           if negb (day span =? zday parts) then false
           else contains (zminutes parts) span)
        spans
  end.

Definition getHoursStatus (spans : list HoursSpan) (date : Date)
    (timeZone : option str) (options : HoursStatusOptions) : HoursStatusResult :=
  match spans with
  | [] => mkResult st_closed None None
  | _ :: _ =>
      let closingSoon :=
        match closingSoonMinutes options with Some n => n | None => Num 90 end in
      let openingSoon :=
        match openingSoonMinutes options with Some n => n | None => Num 60 end in
      let parts := getZonedParts date (normalizeTimeZone (Some (orNYC timeZone))) in
      let day_ := zday parts in
      let minutes := zminutes parts in
      let daySpans := filter (fun span => day span =? day_) spans in
      match find (contains minutes) daySpans with
      | Some openSpan =>
          let openAllDay :=
            eqs (open openSpan) (js "00:00") && eqs (close openSpan) (js "24:00") in
          let minutesUntilClose :=
            if openAllDay then None
            else
              let toClose := nsub (toMinutes (close openSpan)) (Num minutes) in
              if eqs (close openSpan) (js "24:00") then
                let nextDay := Z.rem (day_ + 1) 7 in
                let nextDaySpans := filter (fun span => day span =? nextDay) spans in
                match find (fun span => eqs (open span) (js "00:00")) nextDaySpans with
                | Some midnightSpan =>
                    Some (nadd (Num (24 * 60 - minutes))
                               (toMinutes (close midnightSpan)))
                | None => Some toClose
                end
              else Some toClose in
          match minutesUntilClose with
          | Some until =>
              if negb openAllDay && nle until closingSoon
              then mkResult st_closing_soon minutesUntilClose None
              else mkResult st_open minutesUntilClose None
          | None => mkResult st_open minutesUntilClose None
          end
      | None =>
          let nextOpenToday :=
            hd_error
              (sortAscending
                 (filter (fun openMinutes => ngt openMinutes (Num minutes))
                    (map (fun span => toMinutes (open span)) daySpans))) in
          let minutesUntilOpen :=
            match nextOpenToday with
            | Some nextOpen => Some (nsub nextOpen (Num minutes))
            | None =>
                let nextDay := Z.rem (day_ + 1) 7 in
                let nextDaySpans := filter (fun span => day span =? nextDay) spans in
                match map (fun span => toMinutes (open span)) nextDaySpans with
                | [] => None
                | o :: os =>
                    let nextOpen := fold_left nmin os o in
                    Some (nadd (Num (24 * 60 - minutes)) nextOpen)
                end
            end in
          match minutesUntilOpen with
          | Some until =>
              if nle until openingSoon
              then mkResult st_opening_soon None minutesUntilOpen
              else mkResult st_closed None minutesUntilOpen
          | None => mkResult st_closed None minutesUntilOpen
          end
      end
  end.
End Engine.

(** * Vocabulary of the properties *)

(** ** A calendar to run the engine on

    Its instants are already local: a weekday, an hour and a minute, each
    taken in its range. *)

Record WallTime : Type := mkWall { wday : nat; whour : nat; wminute : nat }.

Definition wall_range (n : nat) (m : Z) (Hm : 0 < m) : 0 <= Z.of_nat n mod m <= m - 1.
Proof. pose proof (Z.mod_pos_bound (Z.of_nat n) m Hm). lia. Defined.

#[export] Instance WallClock : ZonedClock := {|
  Date := WallTime;
  toZonedTime d _ := d;
  getDay d := Z.of_nat (wday d) mod 7;
  getHours d := Z.of_nat (whour d) mod 24;
  getMinutes d := Z.of_nat (wminute d) mod 60;
  getDay_range d := wall_range (wday d) 7 eq_refl;
  getHours_range d := wall_range (whour d) 24 eq_refl;
  getMinutes_range d := wall_range (wminute d) 60 eq_refl;
|}.

(** ** The status engine *)

Section EngineVocabulary.
Context `{ZonedClock}.

(** The local reading the engine works from. *)
Definition reading (date : Date) (timeZone : option str) : ZonedParts :=
  getZonedParts date (normalizeTimeZone (Some (orNYC timeZone))).
End EngineVocabulary.

(** The first span of [spans] on day [d] whose half-open range holds minute
    [m]: the span the engine's scan stops at. *)
Definition containing (spans : list HoursSpan) (d m : Z) : option HoursSpan :=
  find (fun span => (day span =? d) && contains m span) spans.

(** The first span of [spans] on day [d] that opens at ["00:00"]. *)
Definition opensAtMidnight (spans : list HoursSpan) (d : Z) : option HoursSpan :=
  find (fun span => (day span =? d) && eqs (open span) (js "00:00")) spans.

Definition allDay (span : HoursSpan) : Prop :=
  open span = js "00:00" /\ close span = js "24:00".

Definition closingThreshold (options : HoursStatusOptions) : number :=
  match closingSoonMinutes options with Some n => n | None => Num 90 end.

(** Minute [m] of day [d] lies in the half-open range of [span]. *)
Definition covers (span : HoursSpan) (d m : Z) : bool :=
  (day span =? d) && contains m span.

(** ** The matcher *)

(** Renaming code units leaves a match where it is, as long as no class of
    the pattern tells a unit from its image. *)
Fixpoint respects (f : code -> code) (r : regex) : Prop :=
  match r with
  | Chr p | Star p => forall a, p (f a) = p a
  | Cat r1 r2 | Alt r1 r2 => respects f r1 /\ respects f r2
  | Opt r1 | Grp _ r1 => respects f r1
  | Eps | Bol | Eol => True
  end.

Definition sameCont {R : Type} (f : code -> code) (k' k : @cont R) : Prop :=
  forall s pos c, k' (map f s) pos c = k s pos c.

(** Every digit becomes [0]; nothing else moves. *)
Definition zeroDigits (c : code) : code := if isDigit c then 48%N else c.

Definition noDigit (s : str) : bool := forallb (fun c => negb (isDigit c)) s.

(** Group [n] of a match lies between positions [st] and [en]. *)
Definition groupAt (n : nat) (m : option MatchResult) (st en : nat) : bool :=
  match m with
  | Some m =>
      match lookupGroup n (mgroups m) with
      | Some (s, e) => Nat.eqb s st && Nat.eqb e en
      | None => false
      end
  | None => false
  end.

(** ** The parsers *)

(** The spans pushed for a line: one per day, all with the line's range. *)
Definition spansOf (tr : TimeRange) (days : list Z) : list HoursSpan :=
  map (fun d => mkSpan d (ropen tr) (rclose tr)) days.

(** What the clock pattern finds in the cleaned text: the hour, the minute
    (0 when there is none) and the meridiem suffix, if any. *)
Definition clockFields (value : str) : option (number * number * option str) :=
  let cleaned := cleanTime value in
  match exec clockRegex cleaned with
  | None => None
  | Some m =>
      Some (match group 1 m cleaned with Some s => Number s | None => NaN end,
            match group 2 m cleaned with
            | Some ((_ :: _) as s) => Number s
            | _ => Num 0
            end,
            match group 3 m cleaned with
            | Some ((_ :: _) as mer) => Some mer
            | _ => None
            end)
  end.

(** The canonical text of hour [h] and minute [m]. *)
Definition clockTime (h m : Z) : str := pad (Num h) ++ js ":" ++ pad (Num m).

Definition validClock (h m : Z) : Prop :=
  0 <= h <= 24 /\ 0 <= m <= 59 /\ (h = 24 -> m = 0).

Definition zrange (n : nat) : list Z := map Z.of_nat (List.seq 0 n).

(** A token of the clock pattern: an hour of one or two digits, possibly
    [:MM], possibly a meridiem suffix. *)
Definition clockToken (twoDigits : bool) (h : Z) (m : option Z) (mer : option str)
  : str :=
  (if twoDigits then pad (Num h) else numberToString (Num h))
  ++ match m with Some m => js ":" ++ pad (Num m) | None => [] end
  ++ match mer with Some t => t | None => [] end.

Definition tokenCheck (twoDigits : bool) (h : Z) (m : option Z) (mer : option str)
  : bool :=
  match clockFields (clockToken twoDigits h m mer) with
  | Some (Num h', Num m', mer') =>
      (h' =? h) && (m' =? match m with Some m => m | None => 0 end)
      && match mer', mer with
         | None, None => true
         | Some t', Some t => eqs t' t
         | _, _ => false
         end
  | _ => false
  end.

Definition minuteTokens : list (option Z) := None :: map Some (zrange 100).

Definition meridiemTokens : list (option str) := [None; Some (js "am"); Some (js "pm")].

Definition sameText (a : option str) (b : str) : bool :=
  match a with Some t => eqs t b | None => false end.

(** A canonical clock time is five units, digits around a colon; the parser
    reads it back as itself, also with a blank after it; and [toMinutes]
    gives its minute count. *)
Definition canonicalCheck (h m : Z) : bool :=
  let t := clockTime h m in
  match t with
  | [a; b; x; c; e] =>
      isDigit a && isDigit b && N.eqb x 58 && isDigit c && isDigit e
      && sameText (parseTimeTo24h t) t
      && sameText (parseTimeTo24h (t ++ [32%N])) t
      && neq (toMinutes t) (Num (h * 60 + m))
  | _ => false
  end.

(** The three-letter labels of the page, [DAY_LABELS], indexed by day. *)
Definition DAY_LABELS : list string :=
  [ "Sun"; "Mon"; "Tue"; "Wed"; "Thu"; "Fri"; "Sat" ]%string.

(** The canonical text of an interval: ["<Day> <open> - <close>"]. *)
Definition renderSpan (span : HoursSpan) : str :=
  js (nth (Z.to_nat (day span)) DAY_LABELS ""%string)
  ++ js " " ++ open span ++ js " - " ++ close span.

Definition blank : str := js " 00:00 - 00:00".

(** What re-reading a rendered interval needs of its day label, all of it
    computable: three units, none a digit, a dash variant or, in front,
    white space; no "closed" marker and no letters for an all-day marker;
    and, with every digit of the times zeroed, the place of the time range
    and of the first digit, and the day the label stands for. *)
Definition labelOK (lbl : str) (d : Z) : bool :=
  Nat.eqb (List.length lbl) 3
  && negb (existsb isDigit lbl)
  && negb (existsb isDashVariant lbl)
  && negb (isWhiteSpace (hd 32%N lbl))
  && negb (test closedRegex (lbl ++ blank))
  && negb (existsb (foldsTo 104) lbl && existsb (foldsTo 111) lbl)
  && negb (existsb (foldsTo 112) lbl)
  && groupAt 1 (exec timeRangeRegex (lbl ++ blank)) 4 10
  && groupAt 2 (exec timeRangeRegex (lbl ++ blank)) 12 17
  && (search digit (lbl ++ blank) =? 4)
  && match parseDaysPart (lbl ++ js " ") with
     | [d'] => d' =? d
     | _ => false
     end.

(** ** Proof steps *)

(** Decide the integer tests of the goal by arithmetic. *)
Ltac zbool :=
  repeat match goal with
    | |- context [?a <? ?b] =>
        first [ replace (a <? b) with true by (symmetry; apply Z.ltb_lt; lia)
              | replace (a <? b) with false by (symmetry; apply Z.ltb_ge; lia) ]
    | |- context [?a =? ?b] =>
        first [ replace (a =? b) with true by (symmetry; apply Z.eqb_eq; lia)
              | replace (a =? b) with false by (symmetry; apply Z.eqb_neq; lia) ]
    end.

Ltac clock_case :=
  repeat (zbool; cbv iota; cbn [orb andb negb neq nlt nadd]); reflexivity.

(** Decide the code-unit tests of the goal by arithmetic. *)
Ltac nbool :=
  repeat match goal with
    | |- context [N.eqb ?a ?b] =>
        first [ replace (N.eqb a b) with true by (symmetry; apply N.eqb_eq; lia)
              | replace (N.eqb a b) with false by (symmetry; apply N.eqb_neq; lia) ]
    | |- context [N.leb ?a ?b] =>
        first [ replace (N.leb a b) with true by (symmetry; apply N.leb_le; lia)
              | replace (N.leb a b) with false by (symmetry; apply N.leb_gt; lia) ]
    end.

(** Rewrite with a fact [L v H] about every unit [v] known to be a digit. *)
Ltac digits_with L :=
  repeat match goal with
         | H : isDigit ?v = true |- _ => progress rewrite (L v H)
         end.

(** * The rest of the code *)

(** ** [src/lib/hours.ts]: [getSpansForDate] *)

(** [xs.sort((a, b) => toMinutes(a.open) - toMinutes(b.open))], by stable
    insertion: the one order a stable sort can give when the comparator is
    consistent, that is, when no open time evaluates to [NaN]. *)
Fixpoint insertByOpen (x : HoursSpan) (xs : list HoursSpan) : list HoursSpan :=
  match xs with
  | [] => [x]
  | y :: ys =>
      if ngt (nsub (toMinutes (open x)) (toMinutes (open y))) (Num 0)
      then y :: insertByOpen x ys
      else x :: xs
  end.

Definition sortByOpen (xs : list HoursSpan) : list HoursSpan :=
  fold_right insertByOpen [] xs.

Section Engine2.
Context `{ZonedClock}.

Definition getSpansForDate (spans : list HoursSpan) (date : Date)
    (timeZone : option str) : list HoursSpan :=
  match spans with
  | [] => []
  | _ :: _ =>
      let parts := getZonedParts date (normalizeTimeZone (Some (orNYC timeZone))) in
      sortByOpen (filter (fun span => day span =? zday parts) spans)
  end.
End Engine2.

(** ** Global replacement

    [subject.replace(r, replacement)] for a pattern with the [g] flag and a
    replacement text without [$]: every match is replaced, from left to
    right, the search resuming where the last match ended (one unit further
    after an empty match).  [s] is the subject from [pos] on; the fuel
    bounds the number of matches. *)
Fixpoint replaceAllFrom (fuel : nat) (r : regex) (replacement s : str) (pos : nat)
  : str :=
  match fuel with
  | O => s
  | S fuel' =>
      match searchFrom r s pos with
      | None => s
      | Some m =>
          let before := firstn (mstart m - pos) s in
          let rest := skipn (mend m - pos) s in
          if Nat.eqb (mend m) (mstart m) then
            match rest with
            | [] => before ++ replacement
            | a :: rest' =>
                before ++ replacement
                ++ a :: replaceAllFrom fuel' r replacement rest' (S (mend m))
            end
          else before ++ replacement ++ replaceAllFrom fuel' r replacement rest (mend m)
      end
  end.

Definition replaceAll (r : regex) (replacement subject : str) : str :=
  replaceAllFrom (S (List.length subject)) r replacement subject 0.

(** ** [src/lib/types.ts]: hours of a club *)

Record HoursSet : Type := mkHoursSet {
  set_spans : list HoursSpan;
  set_raw : option (list str);
}.

(** [amenities: Record<string, HoursSet>]: the own properties of the
    object, in order. *)
Record ClubHours : Type := mkClubHours {
  hours_club : HoursSet;
  hours_amenities : list (str * HoursSet);
}.

(** Of a [Club], the two fields the functions below read. *)
Record Club : Type := mkClub {
  club_amenities : list str;
  club_hours : ClubHours;
}.

(** ** [src/lib/time.ts], second part: the amenities module *)

Definition isAlnum (c : code) : bool := inRange 97 122 c || inRange 48 57 c.

Definition nonAlnum (c : code) : bool := negb (isAlnum c).

(** [/[^a-z0-9]+/g] *)
Definition nonAlnumRun : regex := Cat (Chr nonAlnum) (Star nonAlnum).

(** [/^_+|_+$/g] *)
Definition edgeUnderscores : regex :=
  Alt (Cat Bol (Cat (Chr (N.eqb 95)) (Star (N.eqb 95))))
      (Cat (Cat (Chr (N.eqb 95)) (Star (N.eqb 95))) Eol).

(** [slugifyAmenity]; the scraper has the same function, of the same text
    ([src/scripts/scrape-equinox.ts]).  What [toLowerCase] does outside
    ASCII does not reach the result: a unit outside ASCII stays outside
    [a-z0-9] in either case and is replaced with its run. *)
Definition slugifyAmenity (value : str) : str :=
  replaceAll edgeUnderscores []
    (replaceAll nonAlnumRun (js "_") (toLowerCase value)).

(** [keys.add(key)] on a [Set], kept in insertion order. *)
Definition addKey (key : str) (keys : list str) : list str :=
  if existsb (eqs key) keys then keys else keys ++ [key].

Definition buildAmenityKeys (amenity : str) : list str :=
  let normalized := toLowerCase amenity in
  let keys := [] in
  let keys := if includes (js "pool") normalized then addKey (js "pool") keys else keys in
  let keys := if includes (js "spa") normalized then addKey (js "spa") keys else keys in
  let keys :=
    if includes (js "kids") normalized then addKey (js "kids_club") keys else keys in
  addKey (slugifyAmenity amenity) keys.

(** The property names an object has from [Object.prototype]. *)
Definition inheritedKeys : list str :=
  map js
    [ "constructor"; "hasOwnProperty"; "isPrototypeOf"; "propertyIsEnumerable";
      "toLocaleString"; "toString"; "valueOf"; "__proto__";
      "__defineGetter__"; "__defineSetter__"; "__lookupGetter__";
      "__lookupSetter__" ]%string.

(** [object[key]]: an own property, one inherited from [Object.prototype]
    (a function, or the prototype itself), or undefined. *)
Inductive Property (A : Type) : Type :=
| Own (a : A)
| Inherited
| Undefined.

Arguments Own {A} a.
Arguments Inherited {A}.
Arguments Undefined {A}.

Definition getProperty {A : Type} (object : list (str * A)) (key : str) : Property A :=
  match find (fun entry => eqs (fst entry) key) object with
  | Some (_, a) => Own a
  | None => if existsb (eqs key) inheritedKeys then Inherited else Undefined
  end.

(** The loop of [getHoursSetForClub] over the keys: [Some (Some h)] when it
    returns [h], [Some None] when it ends, [None] for the [TypeError] of
    reading [.spans.length] off an inherited property, which is truthy and
    has no [spans]. *)
Fixpoint firstAmenityHours (amenities : list (str * HoursSet)) (keys : list str)
  : option (option HoursSet) :=
  match keys with
  | [] => Some None
  | key :: keys' =>
      match getProperty amenities key with
      | Own amenityHours =>
          if negb (Nat.eqb (List.length (set_spans amenityHours)) 0)
          then Some (Some amenityHours)
          else firstAmenityHours amenities keys'
      | Inherited => None
      | Undefined => firstAmenityHours amenities keys'
      end
  end.

Definition getHoursSetForClub (club : Club) (amenity : option str) : option HoursSet :=
  match amenity with
  | None | Some [] => Some (hours_club (club_hours club))
  | Some amenity =>
      match firstAmenityHours (hours_amenities (club_hours club))
              (buildAmenityKeys amenity) with
      | None => None
      | Some (Some amenityHours) => Some amenityHours
      | Some None => Some (hours_club (club_hours club))
      end
  end.

Definition getHoursForClub (club : Club) (amenity : option str)
  : option (list HoursSpan) :=
  option_map set_spans (getHoursSetForClub club amenity).

(** ** [src/scripts/scrape-equinox.ts]: [normalizeServiceTime] *)

Definition normalizeServiceTime (value : option str) : option str :=
  match value with
  | None | Some [] => None
  | Some value =>
      match split 58%N value with
      | part0 :: part1 :: _ => Some (padStart0 2 part0 ++ js ":" ++ padStart0 2 part1)
      | _ => None
      end
  end.

(** ** [src/unnamed/part_000]: the formatting helpers of the page

    The page has its own [toMinutes], the same text as the one of
    [src/lib/hours.ts]; [toMinutes] above stands for both. *)

(** [x % y]: the remainder has the sign of the dividend; [NaN] for a zero
    divisor. *)
Definition nmod (x y : number) : number :=
  match x, y with
  | Num a, Num b => if b =? 0 then NaN else Num (Z.rem a b)
  | _, _ => NaN
  end.

(** [formatMinutes]; [None] is the [TypeError] of [m.toString()] when the
    text has no colon and [m] is undefined. *)
Definition formatMinutes (value : str) : option str :=
  match map Number (split 58%N value) with
  | h :: m :: _ =>
      if isNaN h || isNaN m then Some value
      else
        let hour := nmod h (Num 24) in
        let meridiem := if nge hour (Num 12) then js "PM" else js "AM" in
        let displayHour :=
          if neq (nmod hour (Num 12)) (Num 0) then Num 12 else nmod hour (Num 12) in
        Some (numberToString displayHour ++ js ":" ++ padStart0 2 (numberToString m)
              ++ js " " ++ meridiem)
  | [h] => if isNaN h then Some value else None
  | [] => None
  end.

Definition formatSpan (open close : str) : option str :=
  if eqs open (js "00:00") && eqs close (js "24:00") then Some (js "Open 24 hours")
  else
    match formatMinutes open with
    | None => None
    | Some openLabel =>
        match (if eqs close (js "24:00") then Some (js "12:00 AM")
               else formatMinutes close) with
        | None => None
        | Some closeLabel => Some (openLabel ++ js " - " ++ closeLabel)
        end
    end.

Definition DAY_ORDER : list Z := [1; 2; 3; 4; 5; 6; 0].

Record HoursRow : Type := mkRow {
  row_day : Z;
  row_label : str;
  row_ranges : list str;
}.

(** [grouped[i].push(span)] *)
Fixpoint pushAt (i : nat) (span : HoursSpan) (grouped : list (list HoursSpan))
  {struct grouped} : list (list HoursSpan) :=
  match grouped, i with
  | [], _ => []
  | g :: gs, O => (g ++ [span]) :: gs
  | g :: gs, S i' => g :: pushAt i' span gs
  end.

Definition groupByDay (spans : list HoursSpan) : list (list HoursSpan) :=
  fold_left
    (fun grouped span =>
       if (0 <=? day span) && (day span <=? 6)
       then pushAt (Z.to_nat (day span)) span grouped
       else grouped)
    spans (repeat [] 7).

(** [xs.map(f)] where [f] may throw: the first failure is the result. *)
Fixpoint mapThrowing {A B : Type} (f : A -> option B) (xs : list A) : option (list B) :=
  match xs with
  | [] => Some []
  | x :: xs' =>
      match f x with
      | None => None
      | Some y =>
          match mapThrowing f xs' with
          | None => None
          | Some ys => Some (y :: ys)
          end
      end
  end.

(** The row of one day: the callback of [DAY_ORDER.map]. *)
Definition hoursRow (grouped : list (list HoursSpan)) (day : Z) : option HoursRow :=
  let daySpans := sortByOpen (nth (Z.to_nat day) grouped []) in
  let hasAllDay :=
    existsb (fun span => eqs (open span) (js "00:00") && eqs (close span) (js "24:00"))
      daySpans in
  let ranges :=
    if hasAllDay then Some [js "Open 24 hours"]
    else match daySpans with
         | _ :: _ => mapThrowing (fun span => formatSpan (open span) (close span)) daySpans
         | [] => Some [js "Closed"]
         end in
  match ranges with
  | Some ranges => Some (mkRow day (js (nth (Z.to_nat day) DAY_LABELS ""%string)) ranges)
  | None => None
  end.

Definition buildHoursRows (spans : list HoursSpan) : option (list HoursRow) :=
  match spans with
  | [] => Some []
  | _ :: _ => mapThrowing (hoursRow (groupByDay spans)) DAY_ORDER
  end.

(** A clock time is shown in twelve-hour form and read back by the time
    parser as the time it was, 24:00 as 00:00. *)

(** ** [src/unnamed/part_000]: the status line of the page *)

(** [formatDuration]; the minute counts are whole numbers, which
    [Math.round] leaves as they are. *)
Definition formatDuration (minutes : number) : str :=
  let rounded := match minutes with Num z => Num (Z.max 0 z) | NaN => NaN end in
  let hours := match rounded with Num z => Num (z / 60) | NaN => NaN end in
  let remaining := nmod rounded (Num 60) in
  if neq hours (Num 0) then numberToString remaining ++ js "m"
  else if neq remaining (Num 0) then numberToString hours ++ js "h"
  else numberToString hours ++ js "h " ++ numberToString remaining ++ js "m".

Definition formatStatusDetail (result : HoursStatusResult) (isLive : bool) : str :=
  match status result with
  | st_closing_soon =>
      match minutesUntilClose result with
      | Some minutes => js "Closes in " ++ formatDuration minutes
      | None => js "Closing soon"
      end
  | st_opening_soon =>
      match minutesUntilOpen result with
      | Some minutes => js "Opens in " ++ formatDuration minutes
      | None => js "Opening soon"
      end
  | st_open => if isLive then js "Open now" else js "Open at that time"
  | st_closed => js "Closed"
  end.

(** ** Vocabulary of the further properties *)

Definition openingThreshold (options : HoursStatusOptions) : number :=
  match openingSoonMinutes options with Some n => n | None => Num 60 end.

(** The open times, in minutes, of the spans of day [d]. *)
Definition opensOn (spans : list HoursSpan) (d : Z) : list number :=
  map (fun span => toMinutes (open span)) (filter (fun span => day span =? d) spans).

(** Every span has numeric times between 00:00 and 24:00, open not after
    close: what the line parser guarantees of its output. *)
Definition wellTimed (spans : list HoursSpan) : Prop :=
  forall s, In s spans ->
    exists o c, toMinutes (open s) = Num o /\ toMinutes (close s) = Num c
                /\ 0 <= o <= c /\ c <= 24 * 60.

Fixpoint eqDays (a b : list Z) : bool :=
  match a, b with
  | [], [] => true
  | x :: a', y :: b' => (x =? y) && eqDays a' b'
  | _, _ => false
  end.

(** The days from [start] to [e], walking forward through the week. *)
Definition weekWalk (start e : Z) : list Z :=
  map (fun i => (start + i) mod 7) (zrange (S (Z.to_nat ((e - start) mod 7)))).

Definition expandCheck (start e : Z) : bool :=
  let r := expandDayRange start e in
  eqDays r (weekWalk start e)
  && (hd (-1) r =? start) && (last r (-1) =? e)
  && eqDays (dedupe [] r) r
  && forallb (fun d => (0 <=? d) && (d <=? 6)) r.

(** [a] opens no later than [b], both at a numeric minute. *)
Definition opensNoLater (a b : HoursSpan) : Prop :=
  exists x y, toMinutes (open a) = Num x /\ toMinutes (open b) = Num y /\ x <= y.

(** The spans of a list that open at minute [k], in the order of the list. *)
Definition openingAt (k : Z) (spans : list HoursSpan) : list HoursSpan :=
  filter (fun span => neq (toMinutes (open span)) (Num k)) spans.

Definition formatCheck (h m : Z) : bool :=
  match formatMinutes (clockTime h m) with
  | Some label => sameText (parseTimeTo24h label) (clockTime (h mod 24) m)
  | None => false
  end.

(** Both times of every span are canonical clock times. *)
Definition canonicalTimes (spans : list HoursSpan) : Prop :=
  forall s, In s spans ->
    exists h1 m1 h2 m2,
      validClock h1 m1 /\ validClock h2 m2
      /\ open s = clockTime h1 m1 /\ close s = clockTime h2 m2.

(** What a row of the hours table says of the spans of its day. *)
Definition rowOf (spans : list HoursSpan) (row : HoursRow) : Prop :=
  let today := filter (fun span => day span =? row_day row) spans in
  row_label row = js (nth (Z.to_nat (row_day row)) DAY_LABELS ""%string)
  /\ (today = [] -> row_ranges row = [js "Closed"])
  /\ ((exists s, In s today /\ allDay s) -> row_ranges row = [js "Open 24 hours"])
  /\ ((forall s, In s today -> ~ allDay s) ->
      today <> [] -> List.length (row_ranges row) = List.length today).

(** The length of the run of units of class [p] that [s] begins with. *)
Fixpoint runLength (p : code -> bool) (s : str) : nat :=
  match s with
  | a :: s' => if p a then S (runLength p s') else O
  | [] => O
  end.

(** Every run of units of class [p] replaced with one underscore; [inRun]
    says that the unit before was in such a run. *)
Fixpoint collapseRuns (p : code -> bool) (inRun : bool) (s : str) : str :=
  match s with
  | [] => []
  | a :: s' =>
      if p a then (if inRun then collapseRuns p true s' else 95%N :: collapseRuns p true s')
      else a :: collapseRuns p false s'
  end.

(** [s] without the run of underscores it ends with. *)
Fixpoint dropTrailing (s : str) : str :=
  match s with
  | [] => []
  | a :: s' => if N.eqb 95 a && forallb (N.eqb 95) s' then [] else a :: dropTrailing s'
  end.

(** A slug: units of [a-z0-9] and single underscores between them. *)
Fixpoint slugTail (s : str) : bool :=
  match s with
  | [] => true
  | a :: s' =>
      (isAlnum a
       || N.eqb 95 a && match s' with b :: _ => isAlnum b | [] => false end)
      && slugTail s'
  end.

Definition isSlug (s : str) : bool :=
  match s with [] => true | a :: _ => isAlnum a end && slugTail s.

(** Units of [a-z0-9] and underscores, no two underscores in a row. *)
Fixpoint singleUnderscores (s : str) : bool :=
  match s with
  | [] => true
  | a :: s' =>
      (isAlnum a
       || N.eqb 95 a && match s' with b :: _ => isAlnum b | [] => true end)
      && singleUnderscores s'
  end.

(** [s] is empty or begins with a unit of [a-z0-9]. *)
Definition alnumFirst (s : str) : bool :=
  match s with [] => true | a :: _ => isAlnum a end.

(** The keys that stand for a kind of amenity rather than for its name. *)
Definition genericKeys : list str := map js [ "pool"; "spa"; "kids_club" ]%string.

(** The own property of an object under [key], if it has one. *)
Definition ownProperty {A : Type} (object : list (str * A)) (key : str) : option A :=
  match find (fun entry => eqs (fst entry) key) object with
  | Some (_, a) => Some a
  | None => None
  end.

Definition hasColon (s : str) : bool := existsb (fun c => N.eqb c 58) s.

(** One field of a service time: no colon in it, two units or more. *)
Definition timeField (s : str) : Prop :=
  hasColon s = false /\ (2 <= List.length s)%nat.

(** * Properties *)

Example toMinutes_2400 : toMinutes (js "24:00") = Num 1440.
Proof. reflexivity. Qed.

Example toMinutes_no_colon : toMinutes (js "9") = NaN.
Proof. reflexivity. Qed.

Example pad_7 : pad (Num 7) = js "07".
Proof. reflexivity. Qed.

(** ** Strings and lists *)

Lemma eqs_spec (a b : str) : eqs a b = true <-> a = b.
Proof.
  revert b. induction a as [|x a IH]; intros [|y b]; simpl; try (split; congruence).
  rewrite andb_true_iff, N.eqb_eq, IH. split.
  - intros [-> ->]. reflexivity.
  - intros E. injection E. auto.
Qed.

Lemma eqs_refl (a : str) : eqs a a = true.
Proof. apply eqs_spec. reflexivity. Qed.

Lemma eqs_neq (a b : str) : a <> b -> eqs a b = false.
Proof.
  intros Hne. destruct (eqs a b) eqn:E; [|reflexivity].
  apply eqs_spec in E. contradiction.
Qed.

Lemma find_filter {A : Type} (p q : A -> bool) (l : list A) :
  find p (filter q l) = find (fun x => q x && p x) l.
Proof.
  induction l as [|x l IH]; simpl; [reflexivity|].
  destruct (q x); simpl; [destruct (p x)|]; auto.
Qed.

Lemma find_pointwise {A : Type} (p q : A -> bool) (l : list A) :
  (forall x, p x = q x) -> find p l = find q l.
Proof.
  intros Hpq. induction l as [|x l IH]; simpl; [reflexivity|].
  rewrite Hpq, IH. reflexivity.
Qed.

Lemma existsb_find {A : Type} (p : A -> bool) (l : list A) :
  existsb p l = match find p l with Some _ => true | None => false end.
Proof.
  induction l as [|x l IH]; simpl; [reflexivity|].
  destruct (p x); simpl; auto.
Qed.

(** ** The status engine *)

Section EngineFacts.
Context `{ZonedClock}.

Lemma reading_day_range date tz : 0 <= zday (reading date tz) <= 6.
Proof. unfold reading, getZonedParts. cbn [zday]. apply getDay_range. Qed.

Lemma reading_minutes_range date tz : 0 <= zminutes (reading date tz) <= 1439.
Proof.
  unfold reading, getZonedParts. cbn [zminutes].
  set (zoned := toZonedTime _ _).
  pose proof (getHours_range zoned). pose proof (getMinutes_range zoned). lia.
Qed.

Lemma next_day_mod (d : Z) : 0 <= d -> Z.rem (d + 1) 7 = (d + 1) mod 7.
Proof. intros Hd. apply Z.rem_mod_nonneg; lia. Qed.

Lemma containing_nonempty spans d m s : containing spans d m = Some s -> spans <> [].
Proof. destruct spans; [discriminate|congruence]. Qed.

Lemma allDay_dec (s : HoursSpan) :
  eqs (open s) (js "00:00") && eqs (close s) (js "24:00") = true <-> allDay s.
Proof. unfold allDay. rewrite andb_true_iff, !eqs_spec. reflexivity. Qed.

(** What the engine answers once its scan has found a span. *)
Lemma getHoursStatus_inside spans date tz options s :
  containing spans (zday (reading date tz)) (zminutes (reading date tz)) = Some s ->
  ~ allDay s ->
  let minutes := zminutes (reading date tz) in
  let until :=
    if eqs (close s) (js "24:00") then
      match opensAtMidnight spans ((zday (reading date tz) + 1) mod 7) with
      | Some m => nadd (Num (24 * 60 - minutes)) (toMinutes (close m))
      | None => nsub (toMinutes (close s)) (Num minutes)
      end
    else nsub (toMinutes (close s)) (Num minutes) in
  getHoursStatus spans date tz options =
    mkResult (if nle until (closingThreshold options) then st_closing_soon else st_open)
             (Some until) None.
Proof.
  intros Hc Hall. cbv zeta.
  pose proof (containing_nonempty _ _ _ _ Hc) as Hne.
  unfold containing in Hc. rewrite <- find_filter in Hc.
  unfold opensAtMidnight. rewrite <- find_filter.
  rewrite <- next_day_mod by apply reading_day_range.
  unfold getHoursStatus. destruct spans as [|s0 spans']; [congruence|].
  fold (reading date tz). cbv zeta.
  set (sp := s0 :: spans') in *. clearbody sp.
  revert Hc. generalize (reading date tz). intros parts Hc. rewrite Hc.
  clear Hc. cbv beta iota.
  destruct (eqs (open s) (js "00:00") && eqs (close s) (js "24:00")) eqn:Ead.
  { apply allDay_dec in Ead. contradiction. }
  unfold closingThreshold.
  destruct (eqs (close s) (js "24:00")).
  - destruct (find _ (filter _ sp)); cbv beta iota;
      match goal with |- context [nle ?a ?b] => destruct (nle a b) end; reflexivity.
  - cbv beta iota.
    match goal with |- context [nle ?a ?b] => destruct (nle a b) end; reflexivity.
Qed.

Lemma getHoursStatus_outside spans date tz options :
  containing spans (zday (reading date tz)) (zminutes (reading date tz)) = None ->
  status (getHoursStatus spans date tz options) = st_opening_soon
  \/ status (getHoursStatus spans date tz options) = st_closed.
Proof.
  intros Hc. unfold containing in Hc. rewrite <- find_filter in Hc.
  unfold getHoursStatus. destruct spans as [|s0 spans']; [right; reflexivity|].
  fold (reading date tz). cbv zeta.
  set (sp := s0 :: spans') in *. clearbody sp.
  revert Hc. generalize (reading date tz). intros parts Hc. rewrite Hc.
  clear Hc. cbv beta iota.
  match goal with
  | |- context [match ?x with Some _ => _ | None => mkResult st_closed None _ end] =>
      destruct x as [until|]
  end; [|right; reflexivity].
  destruct (nle until _); [left|right]; reflexivity.
Qed.

Lemma getHoursStatus_allDay spans date tz options s :
  containing spans (zday (reading date tz)) (zminutes (reading date tz)) = Some s ->
  allDay s ->
  getHoursStatus spans date tz options = mkResult st_open None None.
Proof.
  intros Hc Hall.
  pose proof (containing_nonempty _ _ _ _ Hc) as Hne.
  unfold containing in Hc. rewrite <- find_filter in Hc.
  unfold getHoursStatus. destruct spans as [|s0 spans']; [congruence|].
  fold (reading date tz). cbv zeta.
  set (sp := s0 :: spans') in *. clearbody sp.
  revert Hc. generalize (reading date tz). intros parts Hc. rewrite Hc.
  clear Hc. cbv beta iota.
  apply allDay_dec in Hall. rewrite Hall. reflexivity.
Qed.

Lemma isOpenAt_containing spans date tz :
  isOpenAt spans date tz =
    match containing spans (zday (reading date tz)) (zminutes (reading date tz)) with
    | Some _ => true
    | None => false
    end.
Proof.
  unfold isOpenAt, containing. destruct spans as [|s0 spans']; [reflexivity|].
  fold (reading date tz). cbv zeta. rewrite existsb_find.
  set (sp := s0 :: spans').
  erewrite find_pointwise; [reflexivity|].
  intros a. cbv beta. destruct (day a =? zday (reading date tz)); reflexivity.
Qed.
End EngineFacts.

Lemma opensAtMidnight_some (spans : list HoursSpan) (d : Z) (next : HoursSpan) :
  opensAtMidnight spans d = Some next ->
  In next spans /\ day next = d /\ open next = js "00:00".
Proof.
  unfold opensAtMidnight. intros Hf. apply find_some in Hf.
  destruct Hf as [Hin Hp]. apply andb_true_iff in Hp. destruct Hp as [Hd Ho].
  apply Z.eqb_eq in Hd. apply eqs_spec in Ho. auto.
Qed.

Lemma opensAtMidnight_none (spans : list HoursSpan) (d : Z) :
  opensAtMidnight spans d = None <->
  (forall x, In x spans -> day x = d -> open x <> js "00:00").
Proof.
  unfold opensAtMidnight. split.
  - intros Hf x Hin Hd Ho. pose proof (find_none _ _ Hf x Hin) as Hp.
    cbv beta in Hp. rewrite Hd, Z.eqb_refl, Ho, eqs_refl in Hp. discriminate.
  - intros Hall. destruct (find _ spans) as [x|] eqn:Hf; [|reflexivity].
    apply find_some in Hf. destruct Hf as [Hin Hp].
    apply andb_true_iff in Hp. destruct Hp as [Hd Ho].
    apply Z.eqb_eq in Hd. apply eqs_spec in Ho.
    exfalso. exact (Hall x Hin Hd Ho).
Qed.

Lemma parse_tuesday_overnight :
  parseHoursLines [js "Tue 10:00pm - 2:00am"] =
    [ mkSpan 2 (js "22:00") (js "24:00"); mkSpan 3 (js "00:00") (js "02:00") ].
Proof. vm_compute. reflexivity. Qed.

(** C1 (as amended).  The line ["Tue 10:00pm - 2:00am"] parses into the two
    halves of the overnight split; at a local Wednesday 01:30 (day 3, minute
    90) with the default thresholds the engine finds the Wednesday half
    00:00-02:00, counts 30 minutes to its close and, 30 being within the
    default 90-minute window, answers closing_soon with minutesUntilClose
    30. *)
Theorem tuesday_overnight_at_wednesday_0130 `{ZonedClock}
    (date : Date) (timeZone : option str) :
  reading date timeZone = mkParts 3 90 ->
  getHoursStatus (parseHoursLines [js "Tue 10:00pm - 2:00am"]) date timeZone noOptions
  = mkResult st_closing_soon (Some (Num 30)) None.
Proof.
  intros Hr. rewrite parse_tuesday_overnight.
  rewrite (getHoursStatus_inside _ date timeZone noOptions
             (mkSpan 3 (js "00:00") (js "02:00"))).
  - rewrite Hr. reflexivity.
  - rewrite Hr. reflexivity.
  - intros [_ Hc]. discriminate Hc.
Qed.

Lemma tuesday_overnight_at_wednesday_0130_witness :
  getHoursStatus (H := WallClock) (parseHoursLines [js "Tue 10:00pm - 2:00am"])
    (mkWall 3 1 30) None noOptions
  = mkResult st_closing_soon (Some (Num 30)) None.
Proof.
  apply (tuesday_overnight_at_wednesday_0130 (H := WallClock) (mkWall 3 1 30) None).
  reflexivity.
Defined.

(** C1 as stated fails: at that instant the status is not open. *)
Lemma wednesday_0130_is_not_open :
  reading (H := WallClock) (mkWall 3 1 30) None = mkParts 3 90 /\
  ~ (status (getHoursStatus (H := WallClock) (parseHoursLines [js "Tue 10:00pm - 2:00am"])
               (mkWall 3 1 30) None noOptions) = st_open
     /\ minutesUntilClose
          (getHoursStatus (H := WallClock) (parseHoursLines [js "Tue 10:00pm - 2:00am"])
             (mkWall 3 1 30) None noOptions) = Some (Num 30)).
Proof.
  split; [reflexivity|].
  intros [Hs _]. vm_compute in Hs. discriminate Hs.
Qed.

(** C4.  When the span containing the query minute closes at ["24:00"] and
    is not the all-day span: if some span of the next day, (day+1) mod 7,
    opens at ["00:00"], minutesUntilClose is (24*60 - minutes) plus the
    close, in minutes, of the first such span; if none does,
    minutesUntilClose is 24*60 - minutes. *)
Theorem midnight_continuation `{ZonedClock}
    (spans : list HoursSpan) (date : Date) (timeZone : option str)
    (options : HoursStatusOptions) (s : HoursSpan) :
  let d := zday (reading date timeZone) in
  let minutes := zminutes (reading date timeZone) in
  let result := getHoursStatus spans date timeZone options in
  containing spans d minutes = Some s ->
  close s = js "24:00" ->
  ~ allDay s ->
  ((exists x, In x spans /\ day x = (d + 1) mod 7 /\ open x = js "00:00") ->
   exists next,
     opensAtMidnight spans ((d + 1) mod 7) = Some next /\
     minutesUntilClose result
     = Some (nadd (Num (24 * 60 - minutes)) (toMinutes (close next))))
  /\
  ((forall x, In x spans -> day x = (d + 1) mod 7 -> open x <> js "00:00") ->
   minutesUntilClose result = Some (Num (24 * 60 - minutes))).
Proof.
  intros d minutes result Hc Hclose Hall. subst result.
  rewrite (getHoursStatus_inside _ _ _ _ _ Hc Hall). cbn [minutesUntilClose].
  rewrite Hclose, eqs_refl. fold d minutes. split.
  - intros [x (Hin & Hd & Ho)].
    destruct (opensAtMidnight spans ((d + 1) mod 7)) as [next|] eqn:Hn.
    + exists next. split; reflexivity.
    + exfalso. exact (proj1 (opensAtMidnight_none _ _) Hn x Hin Hd Ho).
  - intros Hnone. apply opensAtMidnight_none in Hnone. rewrite Hnone.
    reflexivity.
Qed.

Lemma midnight_continuation_witness :
  minutesUntilClose
    (getHoursStatus (H := WallClock) (parseHoursLines [js "Tue 10:00pm - 2:00am"])
       (mkWall 2 23 0) None noOptions)
  = Some (Num 180).
Proof.
  destruct (midnight_continuation (H := WallClock)
              (parseHoursLines [js "Tue 10:00pm - 2:00am"]) (mkWall 2 23 0) None
              noOptions (mkSpan 2 (js "22:00") (js "24:00"))) as [Hsome _].
  - vm_compute. reflexivity.
  - reflexivity.
  - intros [Ho _]. discriminate Ho.
  - destruct Hsome as [next [Hn Hm]].
    + exists (mkSpan 3 (js "00:00") (js "02:00")). vm_compute. auto.
    + vm_compute in Hn. injection Hn as <-. exact Hm.
Defined.

(** C6.  With closingSoonMinutes = 90 and the query minute inside a span
    that is not all-day, the result carries the computed minutesUntilClose
    and its status is closing_soon when that count is at most 90 and open
    otherwise: closing_soon at exactly 90, open at 91. *)
Theorem closing_soon_boundary `{ZonedClock}
    (spans : list HoursSpan) (date : Date) (timeZone : option str)
    (options : HoursStatusOptions) (s : HoursSpan) :
  let result := getHoursStatus spans date timeZone options in
  containing spans (zday (reading date timeZone)) (zminutes (reading date timeZone))
  = Some s ->
  ~ allDay s ->
  closingSoonMinutes options = Some (Num 90) ->
  exists until,
    minutesUntilClose result = Some until /\
    (nle until (Num 90) = true -> status result = st_closing_soon) /\
    (nle until (Num 90) = false -> status result = st_open) /\
    (until = Num 90 -> status result = st_closing_soon) /\
    (until = Num 91 -> status result = st_open).
Proof.
  intros result Hc Hall Hopt. subst result.
  rewrite (getHoursStatus_inside _ _ _ _ _ Hc Hall).
  unfold closingThreshold. rewrite Hopt. cbn [minutesUntilClose status].
  eexists. split; [reflexivity|].
  repeat split; intros E; rewrite E; reflexivity.
Qed.

Lemma closing_soon_boundary_witness :
  status (getHoursStatus (H := WallClock) [mkSpan 1 (js "09:00") (js "17:00")] (mkWall 1 15 30) None
            (mkOptions (Some (Num 90)) None)) = st_closing_soon
  /\ status (getHoursStatus (H := WallClock) [mkSpan 1 (js "09:00") (js "17:00")] (mkWall 1 15 29) None
               (mkOptions (Some (Num 90)) None)) = st_open.
Proof.
  split.
  - destruct (closing_soon_boundary (H := WallClock) [mkSpan 1 (js "09:00") (js "17:00")]
                (mkWall 1 15 30) None (mkOptions (Some (Num 90)) None)
                (mkSpan 1 (js "09:00") (js "17:00")))
      as [until (Hu & _ & _ & H90 & _)].
    + vm_compute. reflexivity.
    + intros [Ho _]. discriminate Ho.
    + reflexivity.
    + apply H90. vm_compute in Hu. congruence.
  - destruct (closing_soon_boundary (H := WallClock) [mkSpan 1 (js "09:00") (js "17:00")]
                (mkWall 1 15 29) None (mkOptions (Some (Num 90)) None)
                (mkSpan 1 (js "09:00") (js "17:00")))
      as [until (Hu & _ & _ & _ & H91)].
    + vm_compute. reflexivity.
    + intros [Ho _]. discriminate Ho.
    + reflexivity.
    + apply H91. vm_compute in Hu. congruence.
Defined.

(** The default threshold is the same 90 minutes. *)
Lemma closing_soon_default `{ZonedClock}
    (spans : list HoursSpan) (date : Date) (timeZone : option str) :
  getHoursStatus spans date timeZone noOptions
  = getHoursStatus spans date timeZone (mkOptions (Some (Num 90)) (Some (Num 60))).
Proof. reflexivity. Qed.

(** C10.  [isOpenAt] answers true exactly when the status computed by
    [getHoursStatus], whatever the thresholds, is open or closing_soon. *)
Theorem isOpenAt_agrees_with_status `{ZonedClock}
    (spans : list HoursSpan) (date : Date) (timeZone : option str)
    (options : HoursStatusOptions) :
  isOpenAt spans date timeZone = true <->
  (status (getHoursStatus spans date timeZone options) = st_open
   \/ status (getHoursStatus spans date timeZone options) = st_closing_soon).
Proof.
  rewrite isOpenAt_containing.
  destruct (containing spans (zday (reading date timeZone))
              (zminutes (reading date timeZone))) as [s|] eqn:Hc.
  - split; [intros _|reflexivity].
    destruct (eqs (open s) (js "00:00") && eqs (close s) (js "24:00")) eqn:Ead.
    + apply allDay_dec in Ead.
      rewrite (getHoursStatus_allDay _ _ _ _ _ Hc Ead). left. reflexivity.
    + assert (Hall : ~ allDay s).
      { intros Ha. apply allDay_dec in Ha. congruence. }
      rewrite (getHoursStatus_inside _ _ _ _ _ Hc Hall). cbn [status].
      match goal with |- context [nle ?a ?b] => destruct (nle a b) end; auto.
  - split; [discriminate|].
    destruct (getHoursStatus_outside spans date timeZone options Hc) as [E|E];
      rewrite E; intros [E'|E']; discriminate E'.
Qed.

(** ** Overnight normalization *)

Lemma ngt_inv (x y : number) :
  ngt x y = true -> exists a b, x = Num a /\ y = Num b /\ b < a.
Proof.
  destruct x as [a|], y as [b|]; simpl; try discriminate.
  intros Hlt. apply Z.ltb_lt in Hlt. eauto.
Qed.

(** C5.  A tentative span whose open is later, in minutes, than its close is
    split into exactly [{day, open, "24:00"}] and
    [{(day+1) mod 7, "00:00", close}]; for open 22:00 and close 02:00 the two
    pieces cover the minutes from 22:00 on of the day and the minutes before
    02:00 of the next day, which is the wraparound span. *)
Theorem overnight_split (span : HoursSpan) :
  0 <= day span <= 6 ->
  ngt (toMinutes (open span)) (toMinutes (close span)) = true ->
  normalizeSpan span
  = [ mkSpan (day span) (open span) (js "24:00");
      mkSpan ((day span + 1) mod 7) (js "00:00") (close span) ]
  /\
  (open span = js "22:00" -> close span = js "02:00" ->
   forall d m, 0 <= m < 24 * 60 ->
     existsb (fun piece => covers piece d m) (normalizeSpan span) = true <->
     (d = day span /\ 22 * 60 <= m) \/ (d = (day span + 1) mod 7 /\ m < 2 * 60)).
Proof.
  intros Hday Hgt.
  assert (Hsplit : normalizeSpan span
            = [ mkSpan (day span) (open span) (js "24:00");
                mkSpan ((day span + 1) mod 7) (js "00:00") (close span) ]).
  { unfold normalizeSpan. destruct (ngt_inv _ _ Hgt) as (a & b & -> & -> & Hlt).
    cbn [neq nlt].
    replace (a =? b) with false by (symmetry; apply Z.eqb_neq; lia).
    replace (a <? b) with false by (symmetry; apply Z.ltb_ge; lia).
    rewrite Z.rem_mod_nonneg by lia. reflexivity. }
  split; [exact Hsplit|].
  intros Ho Hc d m Hm. rewrite Hsplit, Ho, Hc.
  cbn [existsb]. unfold covers, contains. cbn [day open close].
  change (toMinutes (js "22:00")) with (Num 1320).
  change (toMinutes (js "24:00")) with (Num 1440).
  change (toMinutes (js "00:00")) with (Num 0).
  change (toMinutes (js "02:00")) with (Num 120).
  unfold nge. cbn [nle nlt].
  rewrite !orb_true_iff, !andb_true_iff, !Z.eqb_eq, !Z.leb_le, !Z.ltb_lt.
  lia.
Qed.

Lemma overnight_split_witness :
  normalizeSpan (mkSpan 6 (js "22:00") (js "02:00"))
  = [ mkSpan 6 (js "22:00") (js "24:00"); mkSpan 0 (js "00:00") (js "02:00") ].
Proof.
  apply (overnight_split (mkSpan 6 (js "22:00") (js "02:00"))).
  - simpl. lia.
  - reflexivity.
Defined.

(** C3 fails on the code.  A range that closes at midnight, such as
    ["Mon 10pm - 12am"], has open 22:00 later than close 00:00 and is split;
    the second piece is [{2, "00:00", "00:00"}], whose open equals its
    close.  A range that opens at 24:00 leaves such a piece on the first
    day. *)
Theorem midnight_close_leaves_empty_span :
  parseHoursLines [js "Mon 10pm - 12am"]
  = [ mkSpan 1 (js "22:00") (js "24:00"); mkSpan 2 (js "00:00") (js "00:00") ]
  /\ parseHoursLines [js "Mon 24:00 - 9:00"]
     = [ mkSpan 1 (js "24:00") (js "24:00"); mkSpan 2 (js "00:00") (js "09:00") ]
  /\ ~ (forall lines span,
          In span (parseHoursLines lines) ->
          nlt (toMinutes (open span)) (toMinutes (close span)) = true).
Proof.
  split; [vm_compute; reflexivity|].
  split; [vm_compute; reflexivity|].
  intros Hinv.
  specialize (Hinv [js "Mon 10pm - 12am"] (mkSpan 2 (js "00:00") (js "00:00"))).
  assert (Hin : In (mkSpan 2 (js "00:00") (js "00:00"))
                  (parseHoursLines [js "Mon 10pm - 12am"])).
  { vm_compute. right. left. reflexivity. }
  specialize (Hinv Hin). vm_compute in Hinv. discriminate Hinv.
Qed.

(** ** Time-zone aliases *)

Lemma aliases_dec (t : str) : existsb (eqs t) aliases = true <-> In t aliases.
Proof.
  rewrite existsb_exists. split.
  - intros [x [Hin Heq]]. apply eqs_spec in Heq. subst. exact Hin.
  - intros Hin. exists t. split; [exact Hin|apply eqs_refl].
Qed.

(** C7 (as amended).  An absent input gives the New York identifier.  A
    given input is trimmed first: if nothing is left, or if what is left is
    one of the five aliases, the result is the New York identifier;
    otherwise the result is the trimmed input (the input itself when it has
    no white space at either end). *)
Theorem normalizeTimeZone_cases (value : option str) :
  match value with
  | None => normalizeTimeZone value = NYC_TIMEZONE
  | Some v =>
      (trim v = [] -> normalizeTimeZone value = NYC_TIMEZONE) /\
      (In (trim v) aliases -> normalizeTimeZone value = NYC_TIMEZONE) /\
      (trim v <> [] -> ~ In (trim v) aliases -> normalizeTimeZone value = trim v) /\
      (trim v = v -> v <> [] -> ~ In v aliases -> normalizeTimeZone value = v)
  end.
Proof.
  destruct value as [v|]; [|reflexivity].
  assert (Hcases :
    (trim v = [] -> normalizeTimeZone (Some v) = NYC_TIMEZONE) /\
    (In (trim v) aliases -> normalizeTimeZone (Some v) = NYC_TIMEZONE) /\
    (trim v <> [] -> ~ In (trim v) aliases -> normalizeTimeZone (Some v) = trim v)).
  { unfold normalizeTimeZone. destruct v as [|c v'].
    { change (trim []) with (@nil code). repeat split; auto. intros Hne. congruence. }
    cbv zeta. destruct (trim (c :: v')) as [|t ts] eqn:Ht.
    - repeat split; auto. intros Hne. congruence.
    - destruct (existsb (eqs (t :: ts)) aliases) eqn:Ea.
      + apply aliases_dec in Ea. repeat split; auto. intros _ Hnot. contradiction.
      + repeat split; auto; [discriminate|].
        intros Hin. apply aliases_dec in Hin. congruence. }
  destruct Hcases as (H1 & H2 & H3). repeat split; auto.
  intros Hid Hne Hnot. rewrite <- Hid at 2. apply H3; rewrite Hid; assumption.
Qed.

Lemma normalizeTimeZone_cases_witness :
  normalizeTimeZone (Some (js " Europe/Paris ")) = js "Europe/Paris"
  /\ normalizeTimeZone (Some (js "EST")) = NYC_TIMEZONE.
Proof.
  pose proof (normalizeTimeZone_cases (Some (js " Europe/Paris "))) as Hp.
  pose proof (normalizeTimeZone_cases (Some (js "EST"))) as He.
  cbv beta iota in Hp, He.
  destruct Hp as (_ & _ & Hp & _). destruct He as (_ & He & _).
  split.
  - apply Hp.
    + vm_compute. discriminate.
    + vm_compute. intros Hin. repeat destruct Hin as [Hin|Hin]; try discriminate Hin.
      exact Hin.
  - apply He. vm_compute. auto.
Defined.

(** C7 as stated fails: a non-empty input that is no alias can come back
    changed (trimmed), or as the New York identifier when it is blank. *)
Lemma normalizeTimeZone_trims :
  ~ (forall v, v <> [] -> ~ In v aliases -> normalizeTimeZone (Some v) = v).
Proof.
  intros Hall. specialize (Hall (js " UTC")).
  assert (Hne : js " UTC" <> []) by (vm_compute; discriminate).
  assert (Hnot : ~ In (js " UTC") aliases).
  { vm_compute. intros Hin. repeat destruct Hin as [Hin|Hin]; try discriminate Hin.
    exact Hin. }
  specialize (Hall Hne Hnot). vm_compute in Hall. discriminate Hall.
Qed.

Example normalizeTimeZone_blank :
  normalizeTimeZone (Some (js "  ")) = NYC_TIMEZONE.
Proof. reflexivity. Qed.

(** ** The matcher *)

Section MatcherFacts.
Context {R : Type}.
Implicit Types (k : @cont R) (s : str) (c : captures).

(** A star that succeeds has consumed a run of its class and handed the
    rest to what follows. *)
Lemma star_sound p k s pos c x :
  star p k s pos c = Some x ->
  exists s1 s2,
    s = s1 ++ s2 /\ forallb p s1 = true
    /\ k s2 (pos + List.length s1)%nat c = Some x.
Proof.
  revert pos. induction s as [|a s IH]; intros pos Hs; simpl in Hs.
  - exists [], []. simpl. rewrite Nat.add_0_r. auto.
  - destruct (p a) eqn:Hp.
    + destruct (star p k s (S pos) c) as [y|] eqn:Hrec.
      * injection Hs as <-. destruct (IH _ Hrec) as (s1 & s2 & -> & Hall & Hk).
        exists (a :: s1), s2. simpl. rewrite Hp, Hall.
        replace (pos + S (List.length s1))%nat with (S pos + List.length s1)%nat by lia.
        auto.
      * exists [], (a :: s). simpl. rewrite Nat.add_0_r. auto.
    + exists [], (a :: s). simpl. rewrite Nat.add_0_r. auto.
Qed.

Lemma star_map f p k' k :
  (forall a, p (f a) = p a) -> sameCont f k' k ->
  sameCont f (star p k') (star p k).
Proof.
  intros Hp Hk s. induction s as [|a s IH]; intros pos c; simpl.
  - apply (Hk []).
  - rewrite Hp. destruct (p a); [|apply (Hk (a :: s))].
    rewrite IH. destruct (star p k s (S pos) c); [reflexivity|].
    apply (Hk (a :: s)).
Qed.

Lemma rx_map f r :
  respects f r ->
  forall k' k, sameCont f k' k -> sameCont f (rx r k') (rx r k).
Proof.
  induction r as [|p|r1 IH1 r2 IH2|r1 IH1 r2 IH2|r1 IH1|p|n r1 IH1| |];
    simpl; intros Hr k' k Hk s pos c; simpl.
  - apply Hk.
  - destruct s as [|a s]; simpl; [reflexivity|].
    rewrite Hr. destruct (p a); [apply Hk|reflexivity].
  - destruct Hr as [Hr1 Hr2]. apply IH1; [exact Hr1|]. apply IH2; assumption.
  - destruct Hr as [Hr1 Hr2]. rewrite (IH1 Hr1 k' k Hk), (IH2 Hr2 k' k Hk).
    reflexivity.
  - rewrite (IH1 Hr k' k Hk), Hk. reflexivity.
  - apply star_map; assumption.
  - apply IH1; [exact Hr|]. intros s' pos' c'. apply Hk.
  - destruct (Nat.eqb pos 0); [apply Hk|reflexivity].
  - destruct s; simpl; [apply (Hk [])|reflexivity].
Qed.
End MatcherFacts.

Lemma searchFrom_sound (r : regex) (s : str) (pos : nat) (m : MatchResult) :
  searchFrom r s pos = Some m ->
  exists s1 s2, s = s1 ++ s2 /\ matchHere r s2 (pos + List.length s1)%nat = Some m.
Proof.
  revert pos. induction s as [|a s IH]; intros pos Hs; simpl in Hs.
  - destruct (matchHere r [] pos) eqn:Hm; [|discriminate].
    exists [], []. simpl. rewrite Nat.add_0_r. split; congruence.
  - destruct (matchHere r (a :: s) pos) eqn:Hm.
    + exists [], (a :: s). simpl. rewrite Nat.add_0_r. split; congruence.
    + destruct (IH _ Hs) as (s1 & s2 & -> & Hm2).
      exists (a :: s1), s2. simpl.
      replace (pos + S (List.length s1))%nat with (S pos + List.length s1)%nat by lia.
      auto.
Qed.

Lemma searchFrom_map (f : code -> code) (r : regex) (s : str) (pos : nat) :
  respects f r -> searchFrom r (map f s) pos = searchFrom r s pos.
Proof.
  intros Hr. revert pos. induction s as [|a s IH]; intros pos; simpl.
  - reflexivity.
  - assert (Hm : matchHere r (f a :: map f s) pos = matchHere r (a :: s) pos).
    { unfold matchHere.
      apply (rx_map f r Hr (fun _ e c => Some (mkMatch pos e c))
               (fun _ e c => Some (mkMatch pos e c)) (fun _ _ _ => eq_refl) (a :: s)). }
    rewrite Hm, IH. reflexivity.
Qed.

Lemma exec_map (f : code -> code) (r : regex) (s : str) :
  respects f r -> exec r (map f s) = exec r s.
Proof. apply searchFrom_map. Qed.

Lemma test_map (f : code -> code) (r : regex) (s : str) :
  respects f r -> test r (map f s) = test r s.
Proof. intros Hr. unfold test. rewrite exec_map by exact Hr. reflexivity. Qed.

(** [search(/\d/)] finds the first digit. *)
Lemma searchFrom_digit (s : str) (pos : nat) :
  searchFrom digit s pos =
    match s with
    | [] => None
    | c :: s' =>
        if isDigit c then Some (mkMatch pos (S pos) [])
        else searchFrom digit s' (S pos)
    end.
Proof.
  destruct s as [|c s']; cbn [searchFrom]; unfold matchHere, digit; cbn [rx];
    [reflexivity|destruct (isDigit c); reflexivity].
Qed.

Lemma search_digit_from (s : str) (pos : nat) :
  (searchFrom digit s pos = None /\ noDigit s = true)
  \/ exists pre c post,
       s = pre ++ c :: post /\ noDigit pre = true /\ isDigit c = true
       /\ searchFrom digit s pos
          = Some (mkMatch (pos + List.length pre) (S (pos + List.length pre)) []).
Proof.
  revert pos. induction s as [|a s IH]; intros pos.
  - left. auto.
  - rewrite searchFrom_digit. destruct (isDigit a) eqn:Ha.
    + right. exists [], a, s. simpl. rewrite Nat.add_0_r. auto.
    + destruct (IH (S pos)) as [[Hn Hd]|(pre & c & post & -> & Hpre & Hc & Hs)].
      * left. simpl. rewrite Ha. auto.
      * right. exists (a :: pre), c, post. simpl. rewrite Ha.
        replace (pos + S (List.length pre))%nat
          with (S pos + List.length pre)%nat by lia.
        auto.
Qed.

Lemma search_digit_spec (s : str) :
  (search digit s = -1 /\ noDigit s = true)
  \/ exists pre c post,
       s = pre ++ c :: post /\ noDigit pre = true /\ isDigit c = true
       /\ search digit s = Z.of_nat (List.length pre).
Proof.
  unfold search, exec.
  destruct (search_digit_from s 0) as [[Hn Hd]|(pre & c & post & E & Hpre & Hc & Hs)].
  - left. rewrite Hn. auto.
  - right. exists pre, c, post. rewrite Hs. simpl. auto.
Qed.

Section LiteralFacts.
Context {R : Type}.
Implicit Types (k : @cont R) (s : str) (c : captures).

Lemma rx_chr_inv p k s pos c x :
  rx (Chr p) k s pos c = Some x ->
  exists a s', s = a :: s' /\ p a = true /\ k s' (S pos) c = Some x.
Proof.
  simpl. destruct s as [|a s']; [discriminate|].
  destruct (p a) eqn:Hp; [|discriminate]. eauto.
Qed.

(** A literal consumes its own text. *)
Lemma rx_lit_inv (t : str) k s pos c x :
  rx (seq (map chr t)) k s pos c = Some x ->
  exists s', s = t ++ s' /\ k s' (pos + List.length t)%nat c = Some x.
Proof.
  revert s pos. induction t as [|b t IH]; intros s pos Hm.
  - exists s. simpl in *. rewrite Nat.add_0_r. auto.
  - change (rx (Chr (N.eqb b)) (rx (seq (map chr t)) k) s pos c = Some x) in Hm.
    apply rx_chr_inv in Hm. destruct Hm as (a & s' & -> & Ha & Hm).
    apply N.eqb_eq in Ha. subst a.
    destruct (IH _ _ Hm) as (s'' & -> & Hk).
    exists s''. simpl.
    replace (pos + S (List.length t))%nat with (S pos + List.length t)%nat by lia.
    auto.
Qed.

(** A literal under the [i] flag consumes as many units as it has, each
    one folding to the corresponding letter. *)
Lemma rx_litI_inv (t : str) k s pos c x :
  rx (seq (map chrI t)) k s pos c = Some x ->
  exists u s',
    s = u ++ s' /\ Forall2 (fun b a => foldsTo b a = true) t u
    /\ k s' (pos + List.length t)%nat c = Some x.
Proof.
  revert s pos. induction t as [|b t IH]; intros s pos Hm.
  - exists [], s. simpl in *. rewrite Nat.add_0_r. auto.
  - change (rx (Chr (foldsTo b)) (rx (seq (map chrI t)) k) s pos c = Some x) in Hm.
    apply rx_chr_inv in Hm. destruct Hm as (a & s' & -> & Ha & Hm).
    destruct (IH _ _ Hm) as (u & s'' & -> & Hu & Hk).
    exists (a :: u), s''. simpl.
    replace (pos + S (List.length t))%nat with (S pos + List.length t)%nat by lia.
    auto.
Qed.
End LiteralFacts.

Lemma noDigit_app (a b : str) : noDigit (a ++ b) = noDigit a && noDigit b.
Proof. apply forallb_app. Qed.

Lemma matchHere_timeRange_digit (s : str) (pos : nat) (m : MatchResult) :
  matchHere timeRangeRegex s pos = Some m -> noDigit s = false.
Proof.
  unfold matchHere, timeRangeRegex, timeToken, seq, digit. cbn [fold_right rx].
  destruct s as [|c s']; [discriminate|].
  destruct (isDigit c) eqn:Hc; [|discriminate].
  intros _. simpl. rewrite Hc. reflexivity.
Qed.

Lemma matchHere_allDay1_digit (s : str) (pos : nat) (m : MatchResult) :
  matchHere allDayRegex1 s pos = Some m -> noDigit s = false.
Proof.
  unfold matchHere, allDayRegex1. intros Hm.
  change (rx (seq (map chr (js "24")))
            (rx (seq [spaces; litI "hour"; Opt (litI "s")])
               (fun _ e c => Some (mkMatch pos e c))) s pos [] = Some m) in Hm.
  apply rx_lit_inv in Hm. destruct Hm as (s' & -> & _). reflexivity.
Qed.

Lemma matchHere_allDay2_digit (s : str) (pos : nat) (m : MatchResult) :
  matchHere allDayRegex2 s pos = Some m -> noDigit s = false.
Proof.
  unfold matchHere, allDayRegex2. intros Hm.
  change (rx (seq (map chrI (js "open")))
            (star isWhiteSpace
               (rx (seq (map chr (js "24")))
                  (rx Eps (fun _ e c => Some (mkMatch pos e c))))) s pos []
          = Some m) in Hm.
  apply rx_litI_inv in Hm. destruct Hm as (u & s' & -> & _ & Hm).
  apply star_sound in Hm. destruct Hm as (s1 & s2 & -> & _ & Hm).
  apply rx_lit_inv in Hm. destruct Hm as (s3 & -> & _).
  rewrite !noDigit_app. change (noDigit (js "24")) with false.
  rewrite andb_false_l, !andb_false_r. reflexivity.
Qed.

Lemma exec_digit (r : regex) (s : str) (m : MatchResult) :
  (forall s2 pos m', matchHere r s2 pos = Some m' -> noDigit s2 = false) ->
  exec r s = Some m -> noDigit s = false.
Proof.
  intros Hr He. apply searchFrom_sound in He.
  destruct He as (s1 & s2 & -> & Hm). rewrite noDigit_app, (Hr _ _ _ Hm).
  apply andb_false_r.
Qed.

Lemma test_digit (r : regex) (s : str) :
  (forall s2 pos m', matchHere r s2 pos = Some m' -> noDigit s2 = false) ->
  test r s = true -> noDigit s = false.
Proof.
  intros Hr. unfold test. destruct (exec r s) eqn:He; [|discriminate].
  intros _. exact (exec_digit r s _ Hr He).
Qed.

(** A line with a time range has a digit in it. *)
Lemma parseTimeRange_has_digit (text : str) (tr : TimeRange) :
  parseTimeRange text = Some tr -> noDigit (normalizeDash text) = false.
Proof.
  unfold parseTimeRange. cbv zeta.
  destruct (test allDayRegex1 (normalizeDash text)) eqn:H1.
  { intros _. exact (test_digit _ _ matchHere_allDay1_digit H1). }
  destruct (test allDayRegex2 (normalizeDash text)) eqn:H2.
  { intros _. exact (test_digit _ _ matchHere_allDay2_digit H2). }
  cbn [orb]. destruct (exec timeRangeRegex (normalizeDash text)) eqn:He; [|discriminate].
  intros _. exact (exec_digit _ _ _ matchHere_timeRange_digit He).
Qed.

Lemma normalizeDash_firstn (n : nat) (s : str) :
  normalizeDash (firstn n s) = firstn n (normalizeDash s).
Proof. unfold normalizeDash. symmetry. apply firstn_map. Qed.

(** ** The line parser *)

(** C2 (as amended).  For a line that is not empty once trimmed, has no
    "closed" marker and has a parseable time range, the dash-normalized line
    does contain a digit.  When the first digit is not at position 0, the
    day-spec text is the line up to that digit (dash-normalized, the part of
    the dash-normalized line before its first digit); when the first digit
    is at position 0, the day-spec text is the whole line.  The spans of the
    line are those of the days found in that text. *)
Theorem days_text_selection (rawLine : str) (tr : TimeRange) :
  let line := trim rawLine in
  line <> [] ->
  test closedRegex line = false ->
  parseTimeRange line = Some tr ->
  exists pre c post,
    normalizeDash line = pre ++ c :: post /\ noDigit pre = true /\ isDigit c = true
    /\ (pre <> [] -> normalizeDash (daysPartOf line) = pre)
    /\ (pre = [] -> daysPartOf line = line)
    /\ parseHoursLines [rawLine]
       = flat_map normalizeSpan (spansOf tr (parseDaysPart (daysPartOf line))).
Proof.
  intros line Hne Hclosed Htr.
  pose proof (parseTimeRange_has_digit _ _ Htr) as Hd.
  destruct (search_digit_spec (normalizeDash line))
    as [[_ Hno]|(pre & c & post & E & Hpre & Hc & Hs)]; [congruence|].
  exists pre, c, post. repeat split; try assumption.
  - intros Hp. unfold daysPartOf. rewrite Hs.
    destruct pre as [|p pre']; [congruence|].
    replace (0 <? Z.of_nat (List.length (p :: pre'))) with true
      by (symmetry; apply Z.ltb_lt; simpl List.length; lia).
    rewrite Nat2Z.id. unfold slice0. rewrite normalizeDash_firstn, E.
    rewrite firstn_app, Nat.sub_diag, firstn_all.
    change (firstn 0 (c :: post)) with (@nil code). apply app_nil_r.
  - intros ->. unfold daysPartOf. rewrite Hs. reflexivity.
  - unfold parseHoursLines. cbn [flat_map]. rewrite app_nil_r.
    unfold parseLine. fold line. destruct line as [|l0 line']; [congruence|].
    rewrite Hclosed, Htr. reflexivity.
Qed.

Lemma days_text_selection_witness :
  parseHoursLines [js "9:00 - 17:00 Mon"]
  = flat_map normalizeSpan
      (spansOf (mkRange (js "09:00") (js "17:00"))
         (parseDaysPart (js "9:00 - 17:00 Mon"))).
Proof.
  destruct (days_text_selection (js "9:00 - 17:00 Mon")
              (mkRange (js "09:00") (js "17:00")))
    as (pre & c & post & _ & _ & _ & _ & _ & Hparse).
  - vm_compute. discriminate.
  - vm_compute. reflexivity.
  - vm_compute. reflexivity.
  - exact Hparse.
Defined.

(** C2 as stated fails: ["9:00 - 17:00 Mon"] is not empty, has no "closed"
    marker and has a parseable time range, and its first digit is at
    position 0; the day-spec text is then the whole line, not the empty
    text, the day in it is recognized and the line yields its interval. *)
Lemma leading_time_line_is_kept :
  let line := trim (js "9:00 - 17:00 Mon") in
  test closedRegex line = false
  /\ parseTimeRange line = Some (mkRange (js "09:00") (js "17:00"))
  /\ search digit (normalizeDash line) = 0
  /\ daysPartOf line = js "9:00 - 17:00 Mon"
  /\ daysPartOf line <> []
  /\ parseDaysPart (daysPartOf line) = [1]
  /\ parseHoursLines [js "9:00 - 17:00 Mon"] = [ mkSpan 1 (js "09:00") (js "17:00") ]
  /\ parseHoursLines [js "9:00 - 17:00 Mon"] <> [].
Proof. repeat split; vm_compute; solve [reflexivity | discriminate]. Qed.

(** ** The clock-time parser *)

Lemma parseTimeTo24h_no_fields (value : str) :
  clockFields value = None -> parseTimeTo24h value = None.
Proof.
  unfold clockFields, parseTimeTo24h. cbv zeta.
  destruct (exec clockRegex (cleanTime value)); [discriminate|reflexivity].
Qed.

Lemma parseTimeTo24h_fields (value : str) (hour minute : number) (mer : option str) :
  clockFields value = Some (hour, minute, mer) ->
  parseTimeTo24h value =
    let finish (hour : number) :=
      if neq hour (Num 24) && negb (neq minute (Num 0)) then None
      else Some (pad hour ++ js ":" ++ pad minute) in
    if nlt minute (Num 0) || ngt minute (Num 59) then None
    else
      match mer with
      | Some mer =>
          if nlt hour (Num 1) || ngt hour (Num 12) then None
          else if eqs mer (js "am")
          then finish (if neq hour (Num 12) then Num 0 else hour)
          else finish (if neq hour (Num 12) then Num 12 else nadd hour (Num 12))
      | None =>
          if nlt hour (Num 0) || ngt hour (Num 24) then None
          else finish hour
      end.
Proof.
  unfold clockFields, parseTimeTo24h. cbv zeta.
  destruct (exec clockRegex (cleanTime value)) as [m|]; [|discriminate].
  intros E. injection E as <- <- <-.
  destruct (group 3 m (cleanTime value)) as [[|x mer']|]; reflexivity.
Qed.

(** C8.  Whatever the input, once the clock pattern has found an hour, a
    minute and possibly a meridiem suffix in it: with a suffix an hour
    outside 1..12 is rejected, 12am becomes hour 0, 12pm stays 12, another
    pm hour has 12 added (an am hour is kept); without a suffix an hour
    outside 0..24 is rejected; hour 24 is accepted with minute 0 only; a
    minute above 59 is rejected. *)
Theorem parseTimeTo24h_rules (value : str) (hour minute : Z) (mer : option str) :
  clockFields value = Some (Num hour, Num minute, mer) ->
  let am := Some (js "am") in
  let pm := Some (js "pm") in
  let result := parseTimeTo24h value in
  (mer <> None -> hour < 1 \/ 12 < hour -> result = None)
  /\ (mer = am -> hour = 12 -> 0 <= minute <= 59 ->
      result = Some (clockTime 0 minute))
  /\ (mer = am -> 1 <= hour <= 11 -> 0 <= minute <= 59 ->
      result = Some (clockTime hour minute))
  /\ (mer = pm -> hour = 12 -> 0 <= minute <= 59 ->
      result = Some (clockTime 12 minute))
  /\ (mer = pm -> 1 <= hour <= 11 -> 0 <= minute <= 59 ->
      result = Some (clockTime (hour + 12) minute))
  /\ (mer = None -> hour < 0 \/ 24 < hour -> result = None)
  /\ (mer = None -> 0 <= hour <= 23 -> 0 <= minute <= 59 ->
      result = Some (clockTime hour minute))
  /\ (mer = None -> hour = 24 -> minute = 0 -> result = Some (js "24:00"))
  /\ (mer = None -> hour = 24 -> minute <> 0 -> result = None)
  /\ (59 < minute -> result = None).
Proof.
  intros Hf am pm result. subst result am pm.
  rewrite (parseTimeTo24h_fields _ _ _ _ Hf). cbv zeta. unfold ngt, clockTime.
  cbn [nlt neq nadd].
  change (eqs (js "am") (js "am")) with true.
  change (eqs (js "pm") (js "am")) with false.
  repeat split.
  - intros Hm Hh. destruct mer as [t|]; [|congruence].
    destruct (minute <? 0), (59 <? minute); cbn [orb]; try reflexivity.
    replace ((hour <? 1) || (12 <? hour)) with true; [reflexivity|].
    symmetry. apply orb_true_iff. rewrite !Z.ltb_lt. exact Hh.
  - intros -> -> Hm. clock_case.
  - intros -> Hh Hm. clock_case.
  - intros -> -> Hm. clock_case.
  - intros -> Hh Hm. clock_case.
  - intros -> Hh. destruct (minute <? 0), (59 <? minute); cbn [orb]; try reflexivity.
    replace ((hour <? 0) || (24 <? hour)) with true; [reflexivity|].
    symmetry. apply orb_true_iff. rewrite !Z.ltb_lt. exact Hh.
  - intros -> Hh Hm. clock_case.
  - intros -> -> ->. reflexivity.
  - intros -> -> Hm. destruct (minute <? 0), (59 <? minute); cbn [orb]; try reflexivity.
    clock_case.
  - intros Hm. zbool. rewrite orb_true_r. reflexivity.
Qed.

Lemma parseTimeTo24h_rules_witness :
  parseTimeTo24h (js "12 AM") = Some (js "00:00")
  /\ parseTimeTo24h (js "7:30 p.m.") = Some (js "19:30")
  /\ parseTimeTo24h (js "24:30") = None.
Proof.
  split; [|split].
  - destruct (parseTimeTo24h_rules (js "12 AM") 12 0 (Some (js "am")) eq_refl)
      as (_ & H12am & _).
    apply H12am; [reflexivity|reflexivity|lia].
  - destruct (parseTimeTo24h_rules (js "7:30 p.m.") 7 30 (Some (js "pm")) eq_refl)
      as (_ & _ & _ & _ & Hpm & _).
    apply Hpm; [reflexivity|lia|lia].
  - destruct (parseTimeTo24h_rules (js "24:30") 24 30 None eq_refl)
      as (_ & _ & _ & _ & _ & _ & _ & _ & H24 & _).
    apply H24; [reflexivity|reflexivity|lia].
Defined.

(** *** Every token of the clock pattern *)

Lemma zrange_in (z : Z) (n : nat) : 0 <= z < Z.of_nat n -> In z (zrange n).
Proof.
  intros Hz. unfold zrange. apply in_map_iff. exists (Z.to_nat z).
  split; [lia|]. apply in_seq. lia.
Qed.

Lemma tokens_checked :
  forallb (fun two =>
    forallb (fun h =>
      forallb (fun m =>
        forallb (fun mer => tokenCheck two h m mer) meridiemTokens)
        minuteTokens)
      (zrange 100))
    [true; false] = true.
Proof. vm_compute. reflexivity. Qed.

(** The pattern finds in each of its tokens the fields the token was built
    from, so the rules of the parser apply to every one of them. *)
Lemma clockFields_token (twoDigits : bool) (h : Z) (m : option Z) (mer : option str) :
  0 <= h <= 99 ->
  (forall x, m = Some x -> 0 <= x <= 99) ->
  In mer meridiemTokens ->
  clockFields (clockToken twoDigits h m mer)
  = Some (Num h, Num (match m with Some m => m | None => 0 end), mer).
Proof.
  intros Hh Hm Hmer.
  pose proof tokens_checked as Hall.
  rewrite forallb_forall in Hall.
  assert (Htwo : In twoDigits [true; false]) by (destruct twoDigits; simpl; auto).
  specialize (Hall _ Htwo). rewrite forallb_forall in Hall.
  specialize (Hall h (zrange_in h 100 ltac:(lia))). rewrite forallb_forall in Hall.
  assert (Hmin : In m minuteTokens).
  { destruct m as [x|]; [|left; reflexivity]. right. apply in_map.
    apply zrange_in. specialize (Hm x eq_refl). lia. }
  specialize (Hall _ Hmin). rewrite forallb_forall in Hall.
  specialize (Hall _ Hmer). unfold tokenCheck in Hall.
  destruct (clockFields (clockToken twoDigits h m mer)) as [[[[h'|] [m'|]] mer']|];
    try discriminate.
  apply andb_true_iff in Hall. destruct Hall as [Hall Hmer'].
  apply andb_true_iff in Hall. destruct Hall as [Hh' Hm'].
  apply Z.eqb_eq in Hh', Hm'. subst h' m'.
  destruct mer' as [t'|], mer as [t|]; try discriminate.
  - apply eqs_spec in Hmer'. subst. reflexivity.
  - reflexivity.
Qed.

Example eleven_pm : parseTimeTo24h (clockToken false 11 None (Some (js "pm")))
                    = Some (js "23:00").
Proof. reflexivity. Qed.

(** *** Canonical clock times *)

Lemma canonical_checked :
  forallb (fun h =>
    forallb (fun m => ((h =? 24) && negb (m =? 0)) || canonicalCheck h m) (zrange 60))
    (zrange 25) = true.
Proof. vm_compute. reflexivity. Qed.

Lemma neq_true (x : number) (z : Z) : neq x (Num z) = true -> x = Num z.
Proof.
  destruct x as [a|]; simpl; [|discriminate].
  intros E. apply Z.eqb_eq in E. congruence.
Qed.

Lemma sameText_true (a : option str) (b : str) : sameText a b = true -> a = Some b.
Proof.
  destruct a as [t|]; simpl; [|discriminate].
  intros E. apply eqs_spec in E. congruence.
Qed.

(** A canonical clock time is two digits, a colon and two digits; the parser
    reads it back as itself, also with a blank after it. *)
Lemma clockTime_shape (h m : Z) :
  validClock h m ->
  exists a b c e,
    clockTime h m = [a; b; 58%N; c; e]
    /\ isDigit a = true /\ isDigit b = true /\ isDigit c = true /\ isDigit e = true
    /\ parseTimeTo24h [a; b; 58%N; c; e] = Some [a; b; 58%N; c; e]
    /\ parseTimeTo24h ([a; b; 58%N; c; e] ++ [32%N]) = Some [a; b; 58%N; c; e]
    /\ toMinutes [a; b; 58%N; c; e] = Num (h * 60 + m).
Proof.
  intros (Hh & Hm & H24).
  pose proof canonical_checked as Hall. rewrite forallb_forall in Hall.
  specialize (Hall h (zrange_in h 25 ltac:(lia))). rewrite forallb_forall in Hall.
  specialize (Hall m (zrange_in m 60 ltac:(lia))).
  apply orb_true_iff in Hall. destruct Hall as [Hbad|Hok].
  { apply andb_true_iff in Hbad. destruct Hbad as [E24 Em].
    apply Z.eqb_eq in E24. apply negb_true_iff, Z.eqb_neq in Em. lia. }
  unfold canonicalCheck in Hok. cbv zeta in Hok.
  destruct (clockTime h m) as [|a [|b [|x [|c [|e [|y t]]]]]]; try discriminate.
  repeat (apply andb_true_iff in Hok; destruct Hok as [Hok ?]).
  match goal with E : N.eqb x 58 = true |- _ => apply N.eqb_eq in E; subst x end.
  exists a, b, c, e.
  repeat split; auto using sameText_true, neq_true.
  unfold isDigit, inRange. apply andb_true_iff. split; assumption.
Qed.

(** *** Re-reading a rendered interval *)

Lemma digit_bounds (a : code) : isDigit a = true -> (48 <= a <= 57)%N.
Proof.
  unfold isDigit, inRange. intros Ha. apply andb_true_iff in Ha.
  destruct Ha as [Hlo Hhi]. apply N.leb_le in Hlo, Hhi. lia.
Qed.

Lemma zeroDigits_digit (a : code) : isDigit a = true -> zeroDigits a = 48%N.
Proof. unfold zeroDigits. intros ->. reflexivity. Qed.

Lemma zeroDigits_class (p : code -> bool) :
  (forall a, isDigit a = true -> p a = p 48%N) ->
  forall a, p (zeroDigits a) = p a.
Proof.
  intros Hp a. unfold zeroDigits. destruct (isDigit a) eqn:Ha; [|reflexivity].
  symmetry. apply Hp. exact Ha.
Qed.

Ltac class_respects :=
  cbn -[N.eqb N.leb isDigit isWhiteSpace foldsTo];
  repeat split; try exact I;
  apply zeroDigits_class; intros a Ha; pose proof (digit_bounds a Ha);
  unfold isDigit, isWhiteSpace, foldsTo, inRange; nbool; reflexivity.

Lemma respects_timeRange : respects zeroDigits timeRangeRegex.
Proof. unfold timeRangeRegex, timeToken. class_respects. Qed.

Lemma respects_closed : respects zeroDigits closedRegex.
Proof. unfold closedRegex. class_respects. Qed.

Lemma respects_digit : respects zeroDigits digit.
Proof. unfold digit. class_respects. Qed.

Lemma test_existsb (r : regex) (p : code -> bool) (s : str) :
  (forall s2 pos m, matchHere r s2 pos = Some m -> existsb p s2 = true) ->
  test r s = true -> existsb p s = true.
Proof.
  intros Hr. unfold test, exec. destruct (searchFrom r s 0) eqn:He; [|discriminate].
  intros _. apply searchFrom_sound in He. destruct He as (s1 & s2 & -> & Hm).
  rewrite existsb_app, (Hr _ _ _ Hm). apply orb_true_r.
Qed.

(** The all-day markers need letters: an [h] and an [o] for ["24 hours"], a
    [p] for ["open 24"]. *)
Lemma allDay1_letters (s : str) :
  test allDayRegex1 s = true ->
  existsb (foldsTo 104) s = true /\ existsb (foldsTo 111) s = true.
Proof.
  assert (Hm : forall s2 pos m, matchHere allDayRegex1 s2 pos = Some m ->
                 existsb (foldsTo 104) s2 = true /\ existsb (foldsTo 111) s2 = true).
  { intros s2 pos m. unfold matchHere, allDayRegex1. intros Hm.
    change (rx (seq (map chr (js "24")))
              (star isWhiteSpace
                 (rx (seq (map chrI (js "hour")))
                    (rx (seq [Opt (litI "s")])
                       (fun _ e c => Some (mkMatch pos e c))))) s2 pos []
            = Some m) in Hm.
    apply rx_lit_inv in Hm. destruct Hm as (s' & -> & Hm).
    apply star_sound in Hm. destruct Hm as (s1 & s3 & -> & _ & Hm).
    apply rx_litI_inv in Hm. destruct Hm as (u & s4 & -> & Hu & _).
    change (js "hour") with [104; 111; 117; 114]%N in Hu.
    inversion Hu as [|h1 x1 t1 u1 Hh Hu1]; subst.
    inversion Hu1 as [|h2 x2 t2 u2 Ho Hu2]; subst.
    rewrite !existsb_app. cbn [existsb app]. rewrite Hh, Ho.
    rewrite !orb_true_r. auto. }
  intros Ht. split.
  - apply (test_existsb allDayRegex1); [|exact Ht].
    intros s2 pos m H. apply (Hm s2 pos m H).
  - apply (test_existsb allDayRegex1); [|exact Ht].
    intros s2 pos m H. apply (Hm s2 pos m H).
Qed.

Lemma allDay2_letters (s : str) :
  test allDayRegex2 s = true -> existsb (foldsTo 112) s = true.
Proof.
  apply test_existsb. intros s2 pos m. unfold matchHere, allDayRegex2. intros Hm.
  change (rx (seq (map chrI (js "open")))
            (rx (seq [spaces; lit "24"]) (fun _ e c => Some (mkMatch pos e c)))
            s2 pos [] = Some m) in Hm.
  apply rx_litI_inv in Hm. destruct Hm as (u & s' & -> & Hu & _).
  change (js "open") with [111; 112; 101; 110]%N in Hu.
  inversion Hu as [|h1 x1 t1 u1 Ho Hu1]; subst.
  inversion Hu1 as [|h2 x2 t2 u2 Hp Hu2]; subst.
  cbn [existsb app]. rewrite Hp. rewrite !orb_true_r. reflexivity.
Qed.

Lemma digit_not_space (a : code) : isDigit a = true -> isWhiteSpace a = false.
Proof.
  intros Ha. pose proof (digit_bounds a Ha).
  unfold isWhiteSpace, inRange. nbool. reflexivity.
Qed.

Lemma digit_not_dash (a : code) : isDigit a = true -> isDashVariant a = false.
Proof.
  intros Ha. pose proof (digit_bounds a Ha).
  unfold isDashVariant. nbool. reflexivity.
Qed.

Lemma digit_not_letter (a : code) :
  isDigit a = true -> forall l, N.leb 97 l = true -> foldsTo l a = false.
Proof.
  intros Ha l Hl. apply N.leb_le in Hl. pose proof (digit_bounds a Ha).
  unfold foldsTo. nbool. rewrite andb_false_r. reflexivity.
Qed.

Lemma trim_fixed (s : str) :
  match s with [] => True | x :: _ => isWhiteSpace x = false end ->
  isWhiteSpace (last s 0%N) = false ->
  trim s = s.
Proof.
  intros Hhd Hlast. unfold trim.
  assert (Hfront : dropWhile isWhiteSpace s = s).
  { destruct s as [|x s']; [reflexivity|]. simpl. rewrite Hhd. reflexivity. }
  rewrite Hfront.
  destruct s as [|x s'] using rev_ind; [reflexivity|].
  rewrite last_last in Hlast. rewrite rev_app_distr. simpl.
  rewrite Hlast. simpl. rewrite rev_involutive. reflexivity.
Qed.

Lemma normalizeDash_fixed (s : str) :
  existsb isDashVariant s = false -> normalizeDash s = s.
Proof.
  unfold normalizeDash. induction s as [|c s IH]; simpl; [reflexivity|].
  intros H. apply orb_false_iff in H. destruct H as [Hc Hs].
  rewrite Hc, (IH Hs). reflexivity.
Qed.

Lemma parseLine_parts (rawLine : str) (tr : TimeRange) (days : list Z) :
  trim rawLine = rawLine ->
  rawLine <> [] ->
  test closedRegex rawLine = false ->
  parseTimeRange rawLine = Some tr ->
  parseDaysPart (daysPartOf rawLine) = days ->
  parseLine rawLine = spansOf tr days.
Proof.
  intros Ht Hne Hc Htr Hd. unfold parseLine. rewrite Ht. cbv zeta.
  destruct rawLine as [|x l]; [congruence|].
  rewrite Hc, Htr, Hd. reflexivity.
Qed.

Lemma groupAt_true (n : nat) (m : option MatchResult) (st en : nat) (subject : str) :
  groupAt n m st en = true ->
  exists m', m = Some m' /\ group n m' subject = Some (substring st en subject).
Proof.
  unfold groupAt. destruct m as [m'|]; [|discriminate].
  intros H. exists m'. split; [reflexivity|]. unfold group.
  destruct (lookupGroup n (mgroups m')) as [[s e]|]; [|discriminate].
  apply andb_true_iff in H. destruct H as [Hs He].
  apply Nat.eqb_eq in Hs, He. subst. reflexivity.
Qed.

Lemma labels_checked :
  forallb (fun d => labelOK (js (nth (Z.to_nat d) DAY_LABELS ""%string)) d) (zrange 7)
  = true.
Proof. vm_compute. reflexivity. Qed.

Lemma zeroDigits_other (a : code) : isDigit a = false -> zeroDigits a = a.
Proof. unfold zeroDigits. intros ->. reflexivity. Qed.

Lemma search_map (f : code -> code) (r : regex) (s : str) :
  respects f r -> search r (map f s) = search r s.
Proof. intros Hr. unfold search. rewrite exec_map by exact Hr. reflexivity. Qed.

Lemma labelOK_inv (lbl : str) (d : Z) :
  labelOK lbl d = true ->
  exists l1 l2 l3,
    lbl = [l1; l2; l3]
    /\ existsb isDigit lbl = false
    /\ existsb isDashVariant lbl = false
    /\ isWhiteSpace l1 = false
    /\ test closedRegex (lbl ++ blank) = false
    /\ (existsb (foldsTo 104) lbl = false \/ existsb (foldsTo 111) lbl = false)
    /\ existsb (foldsTo 112) lbl = false
    /\ groupAt 1 (exec timeRangeRegex (lbl ++ blank)) 4 10 = true
    /\ groupAt 2 (exec timeRangeRegex (lbl ++ blank)) 12 17 = true
    /\ search digit (lbl ++ blank) = 4
    /\ parseDaysPart (lbl ++ js " ") = [d].
Proof.
  unfold labelOK. intros Hok.
  repeat match goal with
         | H : _ && _ = true |- _ => apply andb_true_iff in H; destruct H
         end.
  repeat match goal with
         | H : negb _ = true |- _ => apply negb_true_iff in H
         end.
  destruct lbl as [|l1 [|l2 [|l3 [|l4 t]]]]; try discriminate.
  exists l1, l2, l3.
  repeat match goal with
         | |- _ /\ _ => split
         end; try assumption; try reflexivity.
  - match goal with H : _ && _ = false |- _ => apply andb_false_iff in H; exact H end.
  - match goal with H : (_ =? 4) = true |- _ => apply Z.eqb_eq in H; exact H end.
  - match goal with
    | H : match ?p with [] => _ | _ :: _ => _ end = true |- _ =>
        destruct p as [|d' [|d'' t']]; try discriminate H;
        apply Z.eqb_eq in H; subst; reflexivity
    end.
Qed.

Lemma rendered_parseLine (lbl : str) (d : Z) (a b x y a' b' x' y' : code) :
  let o := [a; b; 58; x; y]%N in
  let c := [a'; b'; 58; x'; y']%N in
  labelOK lbl d = true ->
  isDigit a = true -> isDigit b = true -> isDigit x = true -> isDigit y = true ->
  isDigit a' = true -> isDigit b' = true -> isDigit x' = true -> isDigit y' = true ->
  parseTimeTo24h (o ++ [32%N]) = Some o ->
  parseTimeTo24h c = Some c ->
  parseLine (lbl ++ js " " ++ o ++ js " - " ++ c) = [mkSpan d o c].
Proof.
  intros o c Hok Ha Hb Hx Hy Ha' Hb' Hx' Hy' Ho Hc.
  destruct (labelOK_inv _ _ Hok)
    as (l1 & l2 & l3 & -> & Hnod & Hnodash & Hws & Hclosed & Hho & Hp
        & Hg1 & Hg2 & Hsearch & Hdays).
  set (rest := js " " ++ o ++ js " - " ++ c).
  set (line := [l1; l2; l3] ++ rest).
  assert (Hrest : map zeroDigits rest = blank).
  { subst rest o c. cbn [app map js list_ascii_of_string].
    digits_with zeroDigits_digit. reflexivity. }
  assert (Hzero : map zeroDigits line = [l1; l2; l3] ++ blank).
  { subst line. rewrite map_app, Hrest. f_equal.
    cbn [existsb] in Hnod. rewrite !orb_false_iff in Hnod.
    destruct Hnod as (H1 & H2 & H3 & _).
    cbn [map]. rewrite !zeroDigits_other by assumption. reflexivity. }
  assert (Hletters : existsb (foldsTo 104) rest = false
                     /\ existsb (foldsTo 111) rest = false
                     /\ existsb (foldsTo 112) rest = false).
  { subst rest o c. cbn [app existsb js list_ascii_of_string map].
    digits_with (fun v H => digit_not_letter v H 104%N eq_refl).
    digits_with (fun v H => digit_not_letter v H 111%N eq_refl).
    digits_with (fun v H => digit_not_letter v H 112%N eq_refl).
    repeat split; reflexivity. }
  destruct Hletters as (Lh & Lo & Lp).
  assert (Hdash : normalizeDash line = line).
  { apply normalizeDash_fixed. subst line. rewrite existsb_app, Hnodash.
    subst rest o c. cbn [app existsb js list_ascii_of_string map].
    digits_with digit_not_dash. reflexivity. }
  change [mkSpan d o c] with (spansOf (mkRange o c) [d]).
  apply parseLine_parts.
  - apply trim_fixed; [exact Hws|].
    subst line rest o c. cbn [app last js list_ascii_of_string map].
    apply digit_not_space. exact Hy'.
  - discriminate.
  - rewrite <- (test_map zeroDigits closedRegex line respects_closed), Hzero.
    exact Hclosed.
  - unfold parseTimeRange. cbv zeta. rewrite Hdash.
    assert (Hall1 : test allDayRegex1 line = false).
    { destruct (test allDayRegex1 line) eqn:E; [|reflexivity].
      apply allDay1_letters in E. destruct E as [Eh Eo].
      subst line. rewrite existsb_app in Eh, Eo.
      rewrite Lh in Eh. rewrite Lo in Eo. rewrite orb_false_r in Eh, Eo.
      destruct Hho; congruence. }
    assert (Hall2 : test allDayRegex2 line = false).
    { destruct (test allDayRegex2 line) eqn:E; [|reflexivity].
      apply allDay2_letters in E.
      subst line. rewrite existsb_app in E.
      rewrite Lp, orb_false_r in E. congruence. }
    rewrite Hall1, Hall2. cbn [orb].
    rewrite <- (exec_map zeroDigits timeRangeRegex line respects_timeRange), Hzero.
    destruct (groupAt_true _ _ _ _ line Hg1) as (m1 & Em1 & G1).
    destruct (groupAt_true _ _ _ _ line Hg2) as (m2 & Em2 & G2).
    rewrite Em1. rewrite Em1 in Em2. injection Em2 as <-.
    rewrite G1, G2.
    change (substring 4 10 line) with (o ++ [32%N]).
    change (substring 12 17 line) with c.
    rewrite Ho, Hc. reflexivity.
  - unfold daysPartOf. rewrite Hdash.
    rewrite <- (search_map zeroDigits digit line respects_digit), Hzero, Hsearch.
    change (slice0 (Z.to_nat 4) line) with ([l1; l2; l3] ++ js " ").
    exact Hdays.
Qed.

Lemma zrange_cases (z : Z) (n : nat) : In z (zrange n) <-> 0 <= z < Z.of_nat n.
Proof.
  split; [|apply zrange_in].
  unfold zrange. intros Hin. apply in_map_iff in Hin.
  destruct Hin as (k & <- & Hk). apply in_seq in Hk. lia.
Qed.

(** C9.  Every canonical interval (a day in 0..6, canonical clock times,
    open before close in minutes) is read back from its canonical text
    ["<Day> <open> - <close>"] as that single interval. *)
Theorem render_then_parse (d h1 m1 h2 m2 : Z) :
  0 <= d <= 6 ->
  validClock h1 m1 ->
  validClock h2 m2 ->
  h1 * 60 + m1 < h2 * 60 + m2 ->
  let span := mkSpan d (clockTime h1 m1) (clockTime h2 m2) in
  parseHoursLines [renderSpan span] = [span].
Proof.
  intros Hd Ho Hc Hlt span. subst span.
  destruct (clockTime_shape _ _ Ho)
    as (a & b & x & y & Eo & Ha & Hb & Hx & Hy & Po & Po' & Mo).
  destruct (clockTime_shape _ _ Hc)
    as (a' & b' & x' & y' & Ec & Ha' & Hb' & Hx' & Hy' & Pc & _ & Mc).
  pose proof labels_checked as Hlbl. rewrite forallb_forall in Hlbl.
  specialize (Hlbl d (zrange_in d 7 ltac:(lia))).
  unfold parseHoursLines, renderSpan. cbn [day open close flat_map].
  rewrite Eo, Ec, app_nil_r.
  pose proof (rendered_parseLine _ d a b x y a' b' x' y'
                Hlbl Ha Hb Hx Hy Ha' Hb' Hx' Hy' Po' Pc) as Hline.
  cbv zeta in Hline.
  transitivity (flat_map normalizeSpan
                  [mkSpan d [a; b; 58%N; x; y] [a'; b'; 58%N; x'; y']]);
    [f_equal; exact Hline|].
  cbn [flat_map]. rewrite app_nil_r.
  unfold normalizeSpan. cbn [open close]. rewrite Mo, Mc. cbn [neq nlt].
  replace (h1 * 60 + m1 =? h2 * 60 + m2) with false by (symmetry; apply Z.eqb_neq; lia).
  replace (h1 * 60 + m1 <? h2 * 60 + m2) with true by (symmetry; apply Z.ltb_lt; lia).
  reflexivity.
Qed.

Lemma render_then_parse_witness :
  parseHoursLines [js "Mon 09:00 - 17:00"] = [mkSpan 1 (js "09:00") (js "17:00")].
Proof.
  apply (render_then_parse 1 9 0 17 0); unfold validClock; lia.
Defined.

(** *** The fields of the clock pattern are numbers *)

Section ClockStages.
Context {R : Type}.
Implicit Types (k : @cont R) (s : str) (c : captures).

Lemma rx_opt_inv r k s pos c x :
  rx (Opt r) k s pos c = Some x ->
  rx r k s pos c = Some x \/ k s pos c = Some x.
Proof. cbn [rx]. destruct (rx r k s pos c); auto. Qed.

Lemma rx_alt_inv r1 r2 k s pos c x :
  rx (Alt r1 r2) k s pos c = Some x ->
  rx r1 k s pos c = Some x \/ rx r2 k s pos c = Some x.
Proof. cbn [rx]. destruct (rx r1 k s pos c); auto. Qed.

(** [\d{1,2}], captured as group 1 from position 0. *)
Lemma hour_stage k s x :
  rx (Grp 1 (Cat digit (Opt digit))) k s 0 [] = Some x ->
  exists t s',
    s = t ++ s' /\ forallb isDigit t = true
    /\ (List.length t = 1 \/ List.length t = 2)%nat
    /\ k s' (List.length t) [(1, (0, List.length t))%nat] = Some x.
Proof.
  unfold digit. cbn [rx]. intros H.
  destruct s as [|a s1]; [discriminate|].
  destruct (isDigit a) eqn:Ha; [|discriminate].
  destruct s1 as [|b s2].
  - exists [a], []. cbn [forallb List.length app]. rewrite Ha. auto.
  - destruct (isDigit b) eqn:Hb.
    + destruct (k s2 2%nat [(1, (0, 2))%nat]) as [y|] eqn:Hk.
      * exists [a; b], s2. cbn [forallb List.length app]. rewrite Ha, Hb.
        repeat split; auto. congruence.
      * exists [a], (b :: s2). cbn [forallb List.length app]. rewrite Ha. auto.
    + exists [a], (b :: s2). cbn [forallb List.length app]. rewrite Ha. auto.
Qed.

(** [(?::(\d{2}))?] *)
Lemma minute_stage k s pos c x :
  rx (Opt (Cat (lit ":") (Grp 2 (Cat digit digit)))) k s pos c = Some x ->
  k s pos c = Some x
  \/ exists a b s',
       s = 58%N :: a :: b :: s' /\ isDigit a = true /\ isDigit b = true
       /\ k s' (S (S (S pos))) ((2, (S pos, S (S (S pos))))%nat :: c) = Some x.
Proof.
  intros H. apply rx_opt_inv in H. destruct H as [H|H]; [|auto]. right.
  unfold lit, seq, chr, digit in H.
  cbn [map js list_ascii_of_string fold_right rx] in H.
  destruct s as [|u s1]; [discriminate|].
  destruct (N.eqb (N_of_ascii ":") u) eqn:Hu; [|discriminate].
  apply N.eqb_eq in Hu. subst u.
  destruct s1 as [|a s2]; [discriminate|].
  destruct (isDigit a) eqn:Ha; [|discriminate].
  destruct s2 as [|b s3]; [discriminate|].
  destruct (isDigit b) eqn:Hb; [|discriminate].
  exists a, b, s3. auto.
Qed.

(** [(am|pm)?], under the [i] flag *)
Lemma meridiem_stage k s pos c x :
  rx (Opt (Grp 3 (Alt (litI "am") (litI "pm")))) k s pos c = Some x ->
  k s pos c = Some x
  \/ exists a b s',
       s = a :: b :: s'
       /\ (foldsTo 97 a = true \/ foldsTo 112 a = true) /\ foldsTo 109 b = true
       /\ k s' (S (S pos)) ((3, (pos, S (S pos)))%nat :: c) = Some x.
Proof.
  intros H. apply rx_opt_inv in H. destruct H as [H|H]; [|auto]. right.
  cbn [rx] in H. apply rx_alt_inv in H.
  unfold litI, seq, chrI in H.
  cbn [map js list_ascii_of_string fold_right rx] in H.
  destruct s as [|a s1]; [destruct H; discriminate|].
  destruct s1 as [|b s2].
  - destruct H as [H|H];
      match type of H with context [if ?t then _ else _] => destruct t end;
      discriminate.
  - destruct H as [H|H].
    + destruct (foldsTo (N_of_ascii "a") a) eqn:Ea; [|discriminate].
      destruct (foldsTo (N_of_ascii "m") b) eqn:Eb; [|discriminate].
      exists a, b, s2. auto.
    + destruct (foldsTo (N_of_ascii "p") a) eqn:Ea; [|discriminate].
      destruct (foldsTo (N_of_ascii "m") b) eqn:Eb; [|discriminate].
      exists a, b, s2. auto.
Qed.
End ClockStages.

Lemma searchFrom_clock_later (s : str) (pos : nat) :
  searchFrom clockRegex s (S pos) = None.
Proof.
  revert pos. induction s as [|a s IH]; intros pos; cbn [searchFrom].
  - reflexivity.
  - rewrite IH. reflexivity.
Qed.

Lemma exec_clock (s : str) : exec clockRegex s = matchHere clockRegex s 0.
Proof.
  unfold exec. destruct s as [|a s]; cbn [searchFrom].
  - destruct (matchHere clockRegex [] 0); reflexivity.
  - rewrite searchFrom_clock_later. destruct (matchHere clockRegex (a :: s) 0); reflexivity.
Qed.

Lemma Number_digits (t : str) :
  forallb isDigit t = true -> (List.length t = 1 \/ List.length t = 2)%nat ->
  exists h, Number t = Num h /\ 0 <= h <= 99.
Proof.
  intros Hd Hlen.
  destruct t as [|a [|b [|x t]]]; cbn [List.length] in Hlen; try lia.
  - cbn [forallb] in Hd. rewrite andb_true_r in Hd.
    pose proof (digit_bounds a Hd).
    unfold Number. rewrite (trim_fixed [a]) by (apply digit_not_space; exact Hd).
    cbn [forallb]. rewrite Hd. cbn [andb].
    eexists. split; [reflexivity|]. unfold digitsValue. cbn [fold_left]. lia.
  - cbn [forallb] in Hd. rewrite andb_true_r in Hd.
    apply andb_true_iff in Hd. destruct Hd as [Ha Hb].
    pose proof (digit_bounds a Ha). pose proof (digit_bounds b Hb).
    unfold Number. rewrite (trim_fixed [a; b]) by (apply digit_not_space; assumption).
    cbn [forallb]. rewrite Ha, Hb. cbn [andb].
    eexists. split; [reflexivity|]. unfold digitsValue. cbn [fold_left]. lia.
Qed.

(** Whenever the clock pattern matches, its hour and its minute are numbers
    below 100 and its suffix, if any, is two units that fold to [am] or to
    [pm]. *)
Lemma clock_match_fields (s : str) (m : MatchResult) :
  exec clockRegex s = Some m ->
  (exists h, (match group 1 m s with Some t => Number t | None => NaN end) = Num h
             /\ 0 <= h <= 99)
  /\ (exists mi, (match group 2 m s with
                  | Some ((_ :: _) as t) => Number t
                  | _ => Num 0
                  end) = Num mi /\ 0 <= mi <= 99)
  /\ (group 3 m s = None
      \/ exists a b, group 3 m s = Some [a; b]
                     /\ (foldsTo 97 a = true \/ foldsTo 112 a = true)
                     /\ foldsTo 109 b = true).
Proof.
  rewrite exec_clock. unfold matchHere, clockRegex, seq. cbn [fold_right].
  intros H. change (rx (Grp 1 (Cat digit (Opt digit)))
                      (rx (Opt (Cat (lit ":") (Grp 2 (Cat digit digit))))
                         (rx (Opt (Grp 3 (Alt (litI "am") (litI "pm"))))
                            (rx (Cat Eol Eps)
                               (fun _ e c => Some (mkMatch 0 e c)))))
                      s 0%nat [] = Some m) in H.
  apply hour_stage in H. destruct H as (t & s1 & -> & Ht & Hlen & H).
  destruct (Number_digits t Ht Hlen) as (h & Hh & Hhr).
  apply minute_stage in H.
  destruct H as [H|(a & b & s2 & -> & Ha & Hb & H)];
    apply meridiem_stage in H;
    destruct H as [H|(x & y & s3 & -> & Hx & Hy & H)];
    cbn [rx] in H;
    match type of H with
    | match ?l with [] => _ | _ :: _ => _ end = _ => destruct l; [|discriminate H]
    end;
    injection H as <-;
    destruct t as [|u [|v [|w t]]]; cbn [List.length] in Hlen; try lia;
    unfold group;
    cbn [mgroups lookupGroup Nat.eqb List.length substring skipn firstn Nat.sub app];
    (split; [exists h; split; assumption|]);
    (split;
     [ first [ exists 0; split; [reflexivity|lia]
             | apply Number_digits;
               [cbn [forallb]; rewrite Ha, Hb; reflexivity|right; reflexivity] ]
     | first [ left; reflexivity
             | right; exists x, y; auto ] ]).
Qed.

Lemma lowerUnit_not_capital (c : code) :
  forallb (fun a => negb (inRange 65 90 a)) (lowerUnit c) = true.
Proof.
  unfold lowerUnit. destruct (inRange 65 90 c) eqn:Hc.
  - unfold inRange in *. apply andb_true_iff in Hc. destruct Hc as [H1 H2].
    apply N.leb_le in H1, H2. cbn [forallb]. nbool. reflexivity.
  - destruct (N.eqb c 304); [reflexivity|]. destruct (N.eqb c 8490); [reflexivity|].
    cbn [forallb]. rewrite Hc. reflexivity.
Qed.

(** The cleaned text has no ASCII capital left. *)
Lemma cleanTime_no_capital (value : str) (a : code) :
  In a (cleanTime value) -> inRange 65 90 a = false.
Proof.
  unfold cleanTime. intros Hin.
  apply filter_In in Hin. destruct Hin as [Hin _].
  apply filter_In in Hin. destruct Hin as [Hin _].
  unfold toLowerCase in Hin. apply in_flat_map in Hin.
  destruct Hin as (c & _ & Hin).
  pose proof (lowerUnit_not_capital c) as Hall. rewrite forallb_forall in Hall.
  specialize (Hall a Hin). apply negb_true_iff in Hall. exact Hall.
Qed.

Lemma foldsTo_lower (l a : code) :
  inRange 97 122 l = true -> inRange 65 90 a = false -> foldsTo l a = true -> a = l.
Proof.
  unfold foldsTo, inRange. intros Hl Ha Hf.
  apply andb_true_iff in Hl. destruct Hl as [L1 L2]. apply N.leb_le in L1, L2.
  apply orb_true_iff in Hf. destruct Hf as [Hf|Hf].
  - apply N.eqb_eq in Hf. exact Hf.
  - apply andb_true_iff in Hf. destruct Hf as [_ Hf]. apply N.eqb_eq in Hf.
    apply andb_false_iff in Ha. destruct Ha as [Ha|Ha];
      [apply N.leb_gt in Ha|apply N.leb_gt in Ha]; lia.
Qed.

Lemma in_firstn (a : code) (n : nat) (s : str) : In a (firstn n s) -> In a s.
Proof.
  revert s. induction n as [|n IH]; intros s; [intros []|].
  destruct s as [|c s]; cbn [firstn In]; [tauto|].
  intros [E|Hin]; [left; exact E|right; apply IH; exact Hin].
Qed.

Lemma in_substring (a : code) (from to : nat) (s : str) :
  In a (substring from to s) -> In a s.
Proof.
  unfold substring. intros Hin. apply in_firstn in Hin.
  revert s Hin. induction from as [|n IH]; intros s Hin; [exact Hin|].
  destruct s as [|c s]; [exact Hin|]. right. apply IH. exact Hin.
Qed.

Lemma in_group (n : nat) (m : MatchResult) (s t : str) (a : code) :
  group n m s = Some t -> In a t -> In a s.
Proof.
  unfold group. destruct (lookupGroup n (mgroups m)) as [[st en]|]; [|discriminate].
  intros E Hin. injection E as <-. exact (in_substring _ _ _ _ Hin).
Qed.

(** Every input falls under the rules of the parser: either the clock
    pattern finds nothing in it, and the result is null, or it finds an hour
    and a minute that are numbers below 100 and a suffix that is absent,
    [am] or [pm]. *)
Lemma clockFields_numeric (value : str) :
  clockFields value = None
  \/ exists hour minute mer,
       clockFields value = Some (Num hour, Num minute, mer)
       /\ 0 <= hour <= 99 /\ 0 <= minute <= 99 /\ In mer meridiemTokens.
Proof.
  unfold clockFields. cbv zeta.
  destruct (exec clockRegex (cleanTime value)) as [m|] eqn:He; [right|left; reflexivity].
  destruct (clock_match_fields _ _ He) as ((h & Hh & Hhr) & (mi & Hm & Hmr) & Hmer).
  exists h, mi. rewrite Hh, Hm.
  destruct Hmer as [Hn|(a & b & Hg & Ha & Hb)].
  - exists None. rewrite Hn. repeat split; try lia. left. reflexivity.
  - rewrite Hg.
    assert (Hina : inRange 65 90 a = false).
    { apply (cleanTime_no_capital value). apply (in_group _ _ _ _ _ Hg). left. reflexivity. }
    assert (Hinb : inRange 65 90 b = false).
    { apply (cleanTime_no_capital value). apply (in_group _ _ _ _ _ Hg).
      right. left. reflexivity. }
    apply (foldsTo_lower 109 b eq_refl Hinb) in Hb. subst b.
    destruct Ha as [Ha|Ha].
    + apply (foldsTo_lower 97 a eq_refl Hina) in Ha. subst a.
      exists (Some (js "am")). repeat split; try lia. right. left. reflexivity.
    + apply (foldsTo_lower 112 a eq_refl Hina) in Ha. subst a.
      exists (Some (js "pm")). repeat split; try lia. right. right. left. reflexivity.
Qed.

(** *** What the line parser does guarantee *)

Lemma some_inj {A : Type} (a b : A) : Some a = Some b -> a = b.
Proof. congruence. Qed.

(** Every time the clock-time parser returns is a canonical clock time. *)
Lemma parseTimeTo24h_canonical (value t : str) :
  parseTimeTo24h value = Some t ->
  exists h m, validClock h m /\ t = clockTime h m.
Proof.
  destruct (clockFields_numeric value)
    as [Hnone|(hour & minute & mer & Hf & Hh & Hm & Hmer)].
  { rewrite (parseTimeTo24h_no_fields _ Hnone). discriminate. }
  rewrite (parseTimeTo24h_fields _ _ _ _ Hf). cbv zeta. unfold ngt.
  cbn [nlt neq nadd].
  destruct Hmer as [<-|[<-|[<-|[]]]];
    try change (eqs (js "am") (js "am")) with true;
    try change (eqs (js "pm") (js "am")) with false;
    cbv iota;
    repeat match goal with
           | |- context [?a <? ?b] => destruct (Z.ltb_spec a b)
           | |- context [?a =? ?b] => destruct (Z.eqb_spec a b)
           end;
    cbn [orb andb negb neq];
    repeat match goal with
           | |- context [?a =? ?b] => destruct (Z.eqb_spec a b)
           end;
    cbn [orb andb negb];
    try discriminate;
    intros E; apply some_inj in E; rewrite <- E;
    (do 2 eexists; split; [|unfold clockTime; reflexivity]; unfold validClock; lia).
Qed.

Lemma toMinutes_clockTime (h m : Z) :
  validClock h m -> toMinutes (clockTime h m) = Num (h * 60 + m).
Proof.
  intros Hv. destruct (clockTime_shape h m Hv) as (a & b & c & e & -> & H).
  apply H.
Qed.

Lemma parseTimeRange_canonical (text : str) (tr : TimeRange) :
  parseTimeRange text = Some tr ->
  (exists h m, validClock h m /\ ropen tr = clockTime h m)
  /\ (exists h m, validClock h m /\ rclose tr = clockTime h m).
Proof.
  unfold parseTimeRange. cbv zeta.
  destruct (test allDayRegex1 (normalizeDash text) || test allDayRegex2 (normalizeDash text)).
  { intros E. injection E as <-. cbn [ropen rclose]. split.
    - exists 0, 0. split; [unfold validClock; lia|reflexivity].
    - exists 24, 0. split; [unfold validClock; lia|reflexivity]. }
  destruct (exec timeRangeRegex (normalizeDash text)) as [m|]; [|discriminate].
  destruct (group 1 m (normalizeDash text)) as [t1|]; [|discriminate].
  destruct (parseTimeTo24h t1) as [[|x o]|] eqn:E1; try discriminate.
  destruct (group 2 m (normalizeDash text)) as [t2|]; [|discriminate].
  destruct (parseTimeTo24h t2) as [[|y c]|] eqn:E2; try discriminate.
  intros E. injection E as <-. cbn [ropen rclose].
  split; eapply parseTimeTo24h_canonical; eassumption.
Qed.

(** Open is never later than close in an emitted interval, and both lie
    between 00:00 and 24:00; it is the strict order that the split can
    break. *)
Lemma parseHoursLines_weak_order (lines : list str) (span : HoursSpan) :
  In span (parseHoursLines lines) ->
  exists o c,
    toMinutes (open span) = Num o /\ toMinutes (close span) = Num c
    /\ 0 <= o <= c /\ c <= 24 * 60.
Proof.
  unfold parseHoursLines. cbv zeta. intros Hin.
  apply in_flat_map in Hin. destruct Hin as (raw & Hraw & Hin).
  apply in_flat_map in Hraw. destruct Hraw as (line & _ & Hraw).
  assert (Hcanon : exists h1 m1 h2 m2,
             validClock h1 m1 /\ validClock h2 m2
             /\ open raw = clockTime h1 m1 /\ close raw = clockTime h2 m2).
  { unfold parseLine in Hraw. cbv zeta in Hraw.
    destruct (trim line) as [|l0 l']; [destruct Hraw|].
    destruct (test closedRegex (l0 :: l')); [destruct Hraw|].
    destruct (parseTimeRange (l0 :: l')) as [tr|] eqn:Htr; [|destruct Hraw].
    apply in_map_iff in Hraw. destruct Hraw as (d & <- & _). cbn [open close].
    destruct (parseTimeRange_canonical _ _ Htr)
      as ((h1 & m1 & V1 & E1) & (h2 & m2 & V2 & E2)).
    exists h1, m1, h2, m2. auto. }
  destruct Hcanon as (h1 & m1 & h2 & m2 & V1 & V2 & Eo & Ec).
  pose proof (toMinutes_clockTime _ _ V1) as M1.
  pose proof (toMinutes_clockTime _ _ V2) as M2.
  unfold normalizeSpan in Hin. cbv zeta in Hin.
  rewrite Eo, Ec, M1, M2 in Hin. cbn [neq nlt] in Hin.
  unfold validClock in V1, V2.
  destruct (Z.eqb_spec (h1 * 60 + m1) (h2 * 60 + m2)); [destruct Hin|].
  destruct (Z.ltb_spec (h1 * 60 + m1) (h2 * 60 + m2)).
  - destruct Hin as [<-|[]]. rewrite Eo, Ec, M1, M2.
    exists (h1 * 60 + m1), (h2 * 60 + m2). repeat split; lia.
  - destruct Hin as [<-|[<-|[]]]; cbn [open close].
    + rewrite M1. exists (h1 * 60 + m1), (24 * 60). repeat split; try lia.
    + rewrite M2. exists 0, (h2 * 60 + m2). repeat split; lia.
Qed.

(** ** The scenarios of the specification, run on the model *)

Example weekday_evening :
  getHoursStatus (H := WallClock)
    (parseHoursLines [js "Mon-Fri 6:00am - 10:00pm"; js "Sat-Sun 8:00am - 8:00pm"])
    (mkWall 3 21 45) None noOptions
  = mkResult st_closing_soon (Some (Num 15)) None.
Proof. vm_compute. reflexivity. Qed.

Example daily_24_hours :
  getHoursStatus (H := WallClock) (parseHoursLines [js "Daily 24 hours"])
    (mkWall 5 3 10) None noOptions
  = mkResult st_open None None.
Proof. vm_compute. reflexivity. Qed.

Example no_hours :
  getHoursStatus (H := WallClock) [] (mkWall 5 3 10) None noOptions
  = mkResult st_closed None None.
Proof. reflexivity. Qed.

Example friday_to_monday :
  parseDaysPart (js "Fri-Mon") = [5; 6; 0; 1]
  /\ parseDaysPart (js "Mon-Fri") = [1; 2; 3; 4; 5].
Proof. split; vm_compute; reflexivity. Qed.

Example opening_soon_boundary :
  status (getHoursStatus (H := WallClock) [mkSpan 1 (js "09:00") (js "17:00")]
            (mkWall 1 8 0) None noOptions) = st_opening_soon
  /\ status (getHoursStatus (H := WallClock) [mkSpan 1 (js "09:00") (js "17:00")]
               (mkWall 1 7 59) None noOptions) = st_closed.
Proof. split; vm_compute; reflexivity. Qed.

(** * Further properties *)

(** ** The clock-time parser *)

(** X1.  Whatever [parseTimeTo24h] returns is a canonical clock time: two
    digits, a colon, two digits, with the hour in 0..24, the minute in 0..59
    and 24 only with minute 00; [toMinutes] reads it as hour*60 + minute. *)
Theorem parseTimeTo24h_output (value t : str) :
  parseTimeTo24h value = Some t ->
  exists h m,
    0 <= h <= 24 /\ 0 <= m <= 59 /\ (h = 24 -> m = 0)
    /\ t = pad (Num h) ++ js ":" ++ pad (Num m)
    /\ List.length t = 5%nat
    /\ toMinutes t = Num (h * 60 + m).
Proof.
  intros Hp. destruct (parseTimeTo24h_canonical _ _ Hp) as (h & m & Hv & ->).
  exists h, m. destruct Hv as (Hh & Hm & H24).
  repeat split; try lia; try assumption.
  - destruct (clockTime_shape h m (conj Hh (conj Hm H24)))
      as (a & b & c & e & -> & _). reflexivity.
  - apply toMinutes_clockTime. unfold validClock. auto.
Qed.

Lemma parseTimeTo24h_output_witness :
  exists h m, 0 <= h <= 24 /\ 0 <= m <= 59 /\ (h = 24 -> m = 0)
    /\ js "19:30" = pad (Num h) ++ js ":" ++ pad (Num m)
    /\ List.length (js "19:30") = 5%nat
    /\ toMinutes (js "19:30") = Num (h * 60 + m).
Proof.
  apply (parseTimeTo24h_output (js "7:30 p.m.") (js "19:30")). reflexivity.
Defined.

Lemma lowerUnit_plain (c : code) :
  isWhiteSpace c = true \/ c = 46%N -> lowerUnit c = [c].
Proof.
  intros Hc. unfold lowerUnit.
  assert (Hcap : inRange 65 90 c = false /\ N.eqb c 304 = false /\ N.eqb c 8490 = false).
  { destruct Hc as [Hc| ->]; [|repeat split; reflexivity].
    unfold isWhiteSpace, inRange in Hc. unfold inRange.
    repeat (apply orb_true_iff in Hc; destruct Hc as [Hc|Hc]);
      repeat (apply andb_true_iff in Hc; destruct Hc as [Hc ?]);
      repeat match goal with
             | H : N.leb _ _ = true |- _ => apply N.leb_le in H
             | H : N.eqb _ _ = true |- _ => apply N.eqb_eq in H
             end;
      repeat split; nbool; reflexivity. }
  destruct Hcap as (-> & -> & ->). reflexivity.
Qed.

(** X2.  White space and periods do not count: a white-space unit or a
    period put anywhere in the text leaves the result of [parseTimeTo24h]
    as it was. *)
Theorem parseTimeTo24h_ignores_blanks (a b : str) (c : code) :
  isWhiteSpace c = true \/ c = 46%N ->
  parseTimeTo24h (a ++ c :: b) = parseTimeTo24h (a ++ b).
Proof.
  intros Hc.
  assert (Hclean : cleanTime (a ++ c :: b) = cleanTime (a ++ b)).
  { unfold cleanTime, toLowerCase. rewrite !flat_map_app. cbn [flat_map].
    rewrite (lowerUnit_plain c Hc). cbn [app].
    rewrite !filter_app. cbn [filter].
    destruct Hc as [Hc| ->].
    - rewrite Hc. reflexivity.
    - change (isWhiteSpace 46) with false. cbn [negb filter N.eqb Pos.eqb].
      reflexivity. }
  unfold parseTimeTo24h. rewrite Hclean. reflexivity.
Qed.

Lemma parseTimeTo24h_ignores_blanks_witness :
  parseTimeTo24h (js "7:30 p" ++ 46%N :: js "m") = parseTimeTo24h (js "7:30 p" ++ js "m").
Proof.
  apply (parseTimeTo24h_ignores_blanks (js "7:30 p") (js "m") 46%N).
  right. reflexivity.
Defined.

(** ** The day-spec parser *)

Lemma eqDays_spec (a b : list Z) : eqDays a b = true <-> a = b.
Proof.
  revert b. induction a as [|x a IH]; intros [|y b]; simpl; try (split; congruence).
  rewrite andb_true_iff, Z.eqb_eq, IH. split.
  - intros [-> ->]. reflexivity.
  - intros E. injection E. auto.
Qed.

Lemma dedupe_spec (days seen : list Z) :
  NoDup (dedupe seen days)
  /\ forall d, In d (dedupe seen days) <-> In d days /\ ~ In d seen.
Proof.
  revert seen. induction days as [|x days IH]; intros seen; cbn [dedupe].
  - split; [constructor|]. intros d. cbn [In]. tauto.
  - destruct (existsb (Z.eqb x) seen) eqn:Ex.
    + apply existsb_exists in Ex. destruct Ex as (y & Hy & Exy).
      apply Z.eqb_eq in Exy. subst y.
      destruct (IH seen) as [Hnd Hin]. split; [exact Hnd|].
      intros d. rewrite Hin. cbn [In]. split.
      * intros [H1 H2]. auto.
      * intros [[->|H1] H2]; [contradiction|auto].
    + assert (Hx : ~ In x seen).
      { intros Hin. assert (existsb (Z.eqb x) seen = true); [|congruence].
        apply existsb_exists. exists x. split; [exact Hin|apply Z.eqb_refl]. }
      destruct (IH (x :: seen)) as [Hnd Hin]. split.
      * constructor; [|exact Hnd]. rewrite Hin. cbn [In]. tauto.
      * intros d. cbn [In]. rewrite Hin. cbn [In].
        destruct (Z.eq_dec x d) as [->|Hne]; [tauto|]. tauto.
Qed.

Lemma expand_checked :
  forallb (fun s => forallb (fun e => expandCheck s e) (zrange 7)) (zrange 7) = true.
Proof. vm_compute. reflexivity. Qed.

Lemma expandDayRange_days (start e : Z) :
  0 <= start <= 6 -> 0 <= e <= 6 ->
  NoDup (expandDayRange start e)
  /\ (forall d, In d (expandDayRange start e) -> 0 <= d <= 6).
Proof.
  intros Hs He. pose proof expand_checked as Hall.
  rewrite forallb_forall in Hall.
  specialize (Hall start (zrange_in start 7 ltac:(lia))).
  rewrite forallb_forall in Hall.
  specialize (Hall e (zrange_in e 7 ltac:(lia))).
  unfold expandCheck in Hall. cbv zeta in Hall.
  apply andb_true_iff in Hall. destruct Hall as [Hall Hrange].
  apply andb_true_iff in Hall. destruct Hall as [Hall Hdup].
  apply eqDays_spec in Hdup. rewrite forallb_forall in Hrange. split.
  - rewrite <- Hdup. apply dedupe_spec.
  - intros d Hd. specialize (Hrange d Hd).
    apply andb_true_iff in Hrange. destruct Hrange as [H1 H2].
    apply Z.leb_le in H1, H2. lia.
Qed.

(** X3.  For days of the week, [expandDayRange] walks forward from [start]
    to [end] through the week, wrapping after Saturday: it gives the days
    (start + i) mod 7 for i from 0 to (end - start) mod 7, so it begins with
    [start], ends with [end], repeats no day and stays within 0..6. *)
Theorem expandDayRange_walk (start e : Z) :
  0 <= start <= 6 -> 0 <= e <= 6 ->
  expandDayRange start e = weekWalk start e
  /\ hd_error (expandDayRange start e) = Some start
  /\ last (expandDayRange start e) (-1) = e
  /\ NoDup (expandDayRange start e)
  /\ (forall d, In d (expandDayRange start e) -> 0 <= d <= 6).
Proof.
  intros Hs He. pose proof expand_checked as Hall.
  rewrite forallb_forall in Hall.
  specialize (Hall start (zrange_in start 7 ltac:(lia))).
  rewrite forallb_forall in Hall.
  specialize (Hall e (zrange_in e 7 ltac:(lia))).
  unfold expandCheck in Hall. cbv zeta in Hall.
  apply andb_true_iff in Hall. destruct Hall as [Hall Hrange].
  apply andb_true_iff in Hall. destruct Hall as [Hall Hdup].
  apply andb_true_iff in Hall. destruct Hall as [Hall Hlast].
  apply andb_true_iff in Hall. destruct Hall as [Hwalk Hhd].
  apply eqDays_spec in Hwalk, Hdup. apply Z.eqb_eq in Hhd, Hlast.
  rewrite forallb_forall in Hrange.
  split; [exact Hwalk|]. split; [|split; [exact Hlast|split]].
  - destruct (expandDayRange start e) as [|x l]; cbn [hd hd_error] in *; [lia|congruence].
  - rewrite <- Hdup. apply dedupe_spec.
  - intros d Hd. specialize (Hrange d Hd).
    apply andb_true_iff in Hrange. destruct Hrange as [H1 H2].
    apply Z.leb_le in H1, H2. lia.
Qed.

Lemma expandDayRange_walk_witness :
  expandDayRange 5 1 = [5; 6; 0; 1].
Proof.
  destruct (expandDayRange_walk 5 1) as [Hwalk _]; [lia|lia|].
  rewrite Hwalk. reflexivity.
Defined.

Lemma lookupDay_in (table : list (string * Z)) (token : str) (d : Z) :
  lookupDay table token = Some d -> In d (map snd table).
Proof.
  induction table as [|[k v] table IH]; cbn [lookupDay map snd In]; [discriminate|].
  destruct (eqs (js k) token); [intros E; injection E; auto|auto].
Qed.

Lemma DAY_MAP_range (token : str) (d : Z) :
  lookupDay DAY_MAP token = Some d -> 0 <= d <= 6.
Proof.
  intros Hl. apply lookupDay_in in Hl. cbn in Hl.
  repeat (destruct Hl as [<-|Hl]; [lia|]). destruct Hl.
Qed.

Lemma filterDefined_in {A : Type} (xs : list (option A)) (x : A) :
  In x (filterDefined xs) -> In (Some x) xs.
Proof.
  induction xs as [|[y|] xs IH]; cbn [filterDefined In]; [tauto| |].
  - intros [->|Hin]; auto.
  - auto.
Qed.

Lemma parseDaysPart_cases (text : str) (P : list Z -> Prop) :
  P [] -> P allWeek ->
  (forall tokens, P (dedupe [] (filterDefined (map (lookupDay DAY_MAP) tokens)))) ->
  (forall start e, 0 <= start <= 6 -> 0 <= e <= 6 -> P (expandDayRange start e)) ->
  P (parseDaysPart text).
Proof.
  intros Hnil Hweek Htokens Hrange. unfold parseDaysPart. cbv zeta.
  destruct (trim (normalizeDash (toLowerCase text))) as [|c0 normalized'] eqn:Hn.
  { exact Hnil. }
  set (normalized := c0 :: normalized') in *.
  destruct (includes (js "daily") normalized || includes (js "every day") normalized
            || includes (js "everyday") normalized).
  { exact Hweek. }
  destruct (exec dayRangeRegex normalized) as [rangeMatch|]; [|apply Htokens].
  destruct (group 1 rangeMatch normalized) as [t1|]; [|apply Htokens].
  destruct (lookupDay DAY_MAP t1) as [start|] eqn:H1; [|apply Htokens].
  destruct (group 2 rangeMatch normalized) as [t2|]; [|apply Htokens].
  destruct (lookupDay DAY_MAP t2) as [e|] eqn:H2; [|apply Htokens].
  apply Hrange; eapply DAY_MAP_range; eassumption.
Qed.

Lemma tokens_range (tokens : list str) (d : Z) :
  In d (dedupe [] (filterDefined (map (lookupDay DAY_MAP) tokens))) -> 0 <= d <= 6.
Proof.
  intros Hd. apply dedupe_spec in Hd. destruct Hd as [Hd _].
  apply filterDefined_in in Hd. apply in_map_iff in Hd.
  destruct Hd as (t & Ht & _). exact (DAY_MAP_range _ _ Ht).
Qed.

Lemma parseDaysPart_range (text : str) (d : Z) :
  In d (parseDaysPart text) -> 0 <= d <= 6.
Proof.
  revert d. apply parseDaysPart_cases.
  - intros d [].
  - unfold allWeek. cbn [In]. intros d Hd. lia.
  - intros tokens d. apply tokens_range.
  - intros start e Hs He. apply (expandDayRange_days start e Hs He).
Qed.

(** X4.  Whatever the text, [parseDaysPart] gives days of the week, 0..6,
    and gives none twice. *)
Theorem parseDaysPart_days (text : str) :
  NoDup (parseDaysPart text)
  /\ forall d, In d (parseDaysPart text) -> 0 <= d <= 6.
Proof.
  apply parseDaysPart_cases.
  - split; [constructor|intros d []].
  - split.
    + unfold allWeek. repeat constructor; cbn [In]; lia.
    + unfold allWeek. cbn [In]. intros d Hd. lia.
  - intros tokens. split; [apply dedupe_spec|].
    intros d. apply tokens_range.
  - intros start e Hs He.
    destruct (expandDayRange_days start e Hs He) as [Hnd Hr].
    split; assumption.
Qed.

Lemma parseDaysPart_days_witness : 0 <= 0 <= 6.
Proof.
  apply (proj2 (parseDaysPart_days (js "Fri-Mon")) 0).
  vm_compute. right. right. left. reflexivity.
Defined.

(** ** The line parser *)

Lemma parseLine_spans (rawLine : str) (span : HoursSpan) :
  In span (parseLine rawLine) ->
  0 <= day span <= 6
  /\ exists h1 m1 h2 m2,
       validClock h1 m1 /\ validClock h2 m2
       /\ open span = clockTime h1 m1 /\ close span = clockTime h2 m2.
Proof.
  unfold parseLine. cbv zeta. intros Hin.
  destruct (trim rawLine) as [|l0 l']; [destruct Hin|].
  destruct (test closedRegex (l0 :: l')); [destruct Hin|].
  destruct (parseTimeRange (l0 :: l')) as [tr|] eqn:Htr; [|destruct Hin].
  apply in_map_iff in Hin. destruct Hin as (d & <- & Hd). cbn [day open close].
  split; [exact (parseDaysPart_range _ d Hd)|].
  destruct (parseTimeRange_canonical _ _ Htr)
    as ((h1 & m1 & V1 & E1) & (h2 & m2 & V2 & E2)).
  exists h1, m1, h2, m2. auto.
Qed.

(** X5.  Every interval [parseHoursLines] emits has a day in 0..6 and
    canonical clock times, with open not later than close: the split of an
    overnight range never leaves a close before its open. *)
Theorem parseHoursLines_wellformed (lines : list str) (span : HoursSpan) :
  In span (parseHoursLines lines) ->
  0 <= day span <= 6
  /\ exists h1 m1 h2 m2,
       validClock h1 m1 /\ validClock h2 m2
       /\ open span = clockTime h1 m1 /\ close span = clockTime h2 m2
       /\ h1 * 60 + m1 <= h2 * 60 + m2.
Proof.
  unfold parseHoursLines. cbv zeta. intros Hin.
  apply in_flat_map in Hin. destruct Hin as (raw & Hraw & Hin).
  apply in_flat_map in Hraw. destruct Hraw as (line & _ & Hraw).
  destruct (parseLine_spans _ _ Hraw) as (Hd & h1 & m1 & h2 & m2 & V1 & V2 & Eo & Ec).
  pose proof (toMinutes_clockTime _ _ V1) as M1.
  pose proof (toMinutes_clockTime _ _ V2) as M2.
  unfold normalizeSpan in Hin. cbv zeta in Hin.
  rewrite Eo, Ec, M1, M2 in Hin. cbn [neq nlt] in Hin.
  destruct (Z.eqb_spec (h1 * 60 + m1) (h2 * 60 + m2)); [destruct Hin|].
  destruct (Z.ltb_spec (h1 * 60 + m1) (h2 * 60 + m2)).
  - destruct Hin as [<-|[]]. split; [exact Hd|].
    exists h1, m1, h2, m2. repeat split; try apply V1; try apply V2; auto; lia.
  - destruct Hin as [<-|[<-|[]]]; cbn [day open close].
    + split; [exact Hd|]. exists h1, m1, 24, 0. unfold validClock in *.
      repeat split; try lia; try apply V1.
    + split.
      * rewrite Z.rem_mod_nonneg by lia.
        pose proof (Z.mod_pos_bound (day raw + 1) 7). lia.
      * exists 0, 0, h2, m2. unfold validClock in *.
        repeat split; try lia; try apply V2.
Qed.

Lemma parseHoursLines_wellformed_witness :
  0 <= 2 <= 6
  /\ exists h1 m1 h2 m2,
       validClock h1 m1 /\ validClock h2 m2
       /\ js "00:00" = clockTime h1 m1 /\ js "00:00" = clockTime h2 m2
       /\ h1 * 60 + m1 <= h2 * 60 + m2.
Proof.
  apply (parseHoursLines_wellformed [js "Mon 10pm - 12am"]
           (mkSpan 2 (js "00:00") (js "00:00"))).
  vm_compute. right. left. reflexivity.
Defined.

Lemma dropWhile_app_stop (p : code -> bool) (a rest : str) :
  match rest with [] => False | x :: _ => p x = false end ->
  exists a', dropWhile p (a ++ rest) = a' ++ rest.
Proof.
  intros Hrest. induction a as [|c a IH]; cbn [app dropWhile].
  - exists []. destruct rest as [|x r]; [destruct Hrest|].
    cbn [dropWhile app]. rewrite Hrest. reflexivity.
  - destruct (p c); [exact IH|]. exists (c :: a). reflexivity.
Qed.

(** Trimming does not reach into a line: a piece that begins and ends with
    units that are not white space stays, with what lies between. *)
Lemma trim_keeps_core (a u b : str) (x y : code) (mid : str) :
  u = x :: mid -> last u x = y ->
  isWhiteSpace x = false -> isWhiteSpace y = false ->
  exists a' b', trim (a ++ u ++ b) = a' ++ u ++ b'.
Proof.
  intros Hu Hlast Hx Hy. unfold trim.
  destruct (dropWhile_app_stop isWhiteSpace a (u ++ b)) as [a' Ha].
  { rewrite Hu. exact Hx. }
  rewrite Ha. rewrite !rev_app_distr.
  destruct (dropWhile_app_stop isWhiteSpace (rev b) (rev u ++ rev a')) as [b' Hb].
  { assert (Hrev : exists t, rev u = y :: t).
    { rewrite Hu in *. clear Hu Ha.
      destruct (rev (x :: mid)) as [|z t] eqn:Hr.
      - apply (f_equal (@rev code)) in Hr. rewrite rev_involutive in Hr. discriminate.
      - exists t. f_equal.
        apply (f_equal (@rev code)) in Hr. rewrite rev_involutive in Hr.
        cbn [rev] in Hr. rewrite Hr in Hlast. rewrite last_last in Hlast. congruence. }
    destruct Hrev as (t & ->). exact Hy. }
  rewrite <- app_assoc. rewrite Hb.
  rewrite !rev_app_distr, !rev_involutive. rewrite <- app_assoc.
  exists a', (rev b'). reflexivity.
Qed.

Lemma searchFrom_complete (r : regex) (s1 s2 : str) (pos : nat) (m : MatchResult) :
  matchHere r s2 (pos + List.length s1) = Some m ->
  exists m', searchFrom r (s1 ++ s2) pos = Some m'.
Proof.
  revert pos. induction s1 as [|a s1 IH]; intros pos Hm.
  - cbn [app List.length] in *. rewrite Nat.add_0_r in Hm.
    destruct s2 as [|b s2]; cbn [searchFrom]; rewrite Hm; eauto.
  - cbn [app searchFrom].
    destruct (matchHere r (a :: s1 ++ s2) pos) as [m0|]; [eauto|].
    apply IH. cbn [List.length] in Hm.
    replace (S pos + List.length s1)%nat with (pos + S (List.length s1))%nat by lia.
    exact Hm.
Qed.

Lemma rx_litI_complete {R : Type} (t u : str) (k : @cont R) (s : str)
    (pos : nat) (c : captures) :
  Forall2 (fun b a => foldsTo b a = true) t u ->
  rx (seq (map chrI t)) k (u ++ s) pos c = k s (pos + List.length t)%nat c.
Proof.
  intros Hf. revert pos. induction Hf as [|b a t u Hba Hf IH]; intros pos.
  - cbn. rewrite Nat.add_0_r. reflexivity.
  - change (rx (Chr (foldsTo b)) (rx (seq (map chrI t)) k) ((a :: u) ++ s) pos c
            = k s (pos + List.length (b :: t))%nat c).
    cbn [rx app]. rewrite Hba, IH. cbn [List.length]. f_equal. lia.
Qed.

(** A case-insensitive literal is found wherever it stands. *)
Lemma test_litI_found (t : string) (a u b : str) :
  Forall2 (fun l x => foldsTo l x = true) (js t) u ->
  test (litI t) (a ++ u ++ b) = true.
Proof.
  intros Hf. unfold test, exec.
  destruct (searchFrom_complete (litI t) a (u ++ b) 0
              (mkMatch (List.length a) (List.length a + List.length (js t))%nat []))
    as [m' Hm'].
  - unfold matchHere, litI. rewrite (rx_litI_complete _ _ _ _ _ _ Hf). reflexivity.
  - rewrite Hm'. reflexivity.
Qed.

Lemma letter_not_space (l x : code) :
  inRange 97 122 l = true -> foldsTo l x = true -> isWhiteSpace x = false.
Proof.
  unfold foldsTo, inRange. intros Hl Hf.
  apply andb_true_iff in Hl. destruct Hl as [L1 L2]. apply N.leb_le in L1, L2.
  assert (Hx : (65 <= x <= 122)%N).
  { apply orb_true_iff in Hf. destruct Hf as [Hf|Hf].
    - apply N.eqb_eq in Hf. lia.
    - apply andb_true_iff in Hf. destruct Hf as [_ Hf]. apply N.eqb_eq in Hf. lia. }
  unfold isWhiteSpace, inRange. nbool. reflexivity.
Qed.

Lemma parseHoursLines_app (l1 l2 : list str) :
  parseHoursLines (l1 ++ l2) = parseHoursLines l1 ++ parseHoursLines l2.
Proof. unfold parseHoursLines. cbv zeta. rewrite !flat_map_app. reflexivity. Qed.

(** X6.  A line with the word "closed" in it, in whatever letter case and
    whatever stands before and after (a time range included), contributes no
    interval: the result is that of the other lines. *)
Theorem closed_line_is_dropped (l1 l2 : list str) (a u b : str) :
  Forall2 (fun l x => foldsTo l x = true) (js "closed") u ->
  parseHoursLines (l1 ++ (a ++ u ++ b) :: l2) = parseHoursLines (l1 ++ l2).
Proof.
  intros Hf.
  assert (Hline : parseLine (a ++ u ++ b) = []).
  { change (js "closed") with [99; 108; 111; 115; 101; 100]%N in Hf.
    pose proof Hf as Hf0.
    inversion Hf as [|? x ? u1 Hc Hf1]; subst.
    inversion Hf1 as [|? x1 ? u2 H1 Hf2]; subst.
    inversion Hf2 as [|? x2 ? u3 H2 Hf3]; subst.
    inversion Hf3 as [|? x3 ? u4 H3 Hf4]; subst.
    inversion Hf4 as [|? x4 ? u5 H4 Hf5]; subst.
    inversion Hf5 as [|? x5 ? u6 H5 Hf6]; subst.
    inversion Hf6; subst.
    destruct (trim_keeps_core a [x; x1; x2; x3; x4; x5] b x x5 [x1; x2; x3; x4; x5]
                eq_refl eq_refl
                (letter_not_space 99 x eq_refl Hc)
                (letter_not_space 100 x5 eq_refl H5)) as (a' & b' & Ht).
    unfold parseLine. cbv zeta. rewrite Ht.
    destruct (a' ++ [x; x1; x2; x3; x4; x5] ++ b') as [|l0 l'] eqn:El; [reflexivity|].
    rewrite <- El. unfold closedRegex.
    rewrite (test_litI_found "closed" a' [x; x1; x2; x3; x4; x5] b' Hf0).
    reflexivity. }
  rewrite !parseHoursLines_app.
  change ((a ++ u ++ b) :: l2) with ([a ++ u ++ b] ++ l2).
  rewrite parseHoursLines_app. f_equal.
  unfold parseHoursLines at 1. cbv zeta. cbn [flat_map]. rewrite Hline. reflexivity.
Qed.

Lemma closed_line_is_dropped_witness :
  parseHoursLines ([js "Mon 9am - 5pm"] ++ (js "Sun " ++ js "CLOSED" ++ js " 9am - 5pm") :: [])
  = parseHoursLines ([js "Mon 9am - 5pm"] ++ []).
Proof.
  apply (closed_line_is_dropped [js "Mon 9am - 5pm"] [] (js "Sun ") (js "CLOSED")
           (js " 9am - 5pm")).
  repeat constructor.
Defined.

(** ** The status engine, outside opening hours *)


Lemma insertAscending_in (x y : number) (xs : list number) :
  In y (insertAscending x xs) <-> y = x \/ In y xs.
Proof.
  induction xs as [|z zs IH]; cbn [insertAscending In].
  - split; [intros [E|[]]; auto|intros [E|[]]; auto].
  - destruct (ngt (nsub x z) (Num 0)); cbn [In]; [rewrite IH|]; intuition congruence.
Qed.

Lemma sortAscending_in (y : number) (l : list number) :
  In y (sortAscending l) <-> In y l.
Proof.
  induction l as [|x l IH]; cbn [sortAscending fold_right In]; [tauto|].
  fold (sortAscending l). rewrite insertAscending_in, IH. intuition congruence.
Qed.



(** [Math.min] over numbers is the least of them. *)
Lemma fold_nmin_least (os : list number) (z : Z) :
  (forall y, In y os -> exists w, y = Num w) ->
  exists r, fold_left nmin os (Num z) = Num r
            /\ In (Num r) (Num z :: os)
            /\ forall w, In (Num w) (Num z :: os) -> r <= w.
Proof.
  revert z. induction os as [|o os IH]; intros z Hnum.
  - exists z. cbn. repeat split; auto. intros w [E|[]]. injection E. lia.
  - destruct (Hnum o (or_introl eq_refl)) as [zo ->].
    cbn [fold_left nmin].
    destruct (IH (Z.min z zo)) as (r & Hr & Hin & Hmin).
    { intros y Hy. apply Hnum. right. exact Hy. }
    exists r. split; [exact Hr|]. split.
    + destruct Hin as [E|Hin]; [|right; right; exact Hin].
      injection E as E. destruct (Z.min_spec z zo) as [[_ Em]|[_ Em]];
        rewrite Em in E; subst; cbn; auto.
    + intros w [E|[E|Hw]].
      * injection E as <-. specialize (Hmin (Z.min z zo) (or_introl eq_refl)). lia.
      * injection E as <-. specialize (Hmin (Z.min z zo) (or_introl eq_refl)). lia.
      * apply Hmin. right. exact Hw.
Qed.

Section OutsideFacts.
Context `{ZonedClock}.

(** What the engine answers when its scan finds no span. *)
Lemma getHoursStatus_outside_result spans date tz options :
  let d := zday (reading date tz) in
  let minutes := zminutes (reading date tz) in
  containing spans d minutes = None ->
  let until :=
    match hd_error (sortAscending
                      (filter (fun o => ngt o (Num minutes)) (opensOn spans d))) with
    | Some nextOpen => Some (nsub nextOpen (Num minutes))
    | None =>
        match opensOn spans ((d + 1) mod 7) with
        | [] => None
        | o :: os => Some (nadd (Num (24 * 60 - minutes)) (fold_left nmin os o))
        end
    end in
  getHoursStatus spans date tz options =
    match until with
    | Some u =>
        mkResult (if nle u (openingThreshold options) then st_opening_soon else st_closed)
                 None (Some u)
    | None => mkResult st_closed None None
    end.
Proof.
  intros d minutes Hc. subst d minutes. cbv zeta.
  unfold containing in Hc. rewrite <- find_filter in Hc.
  rewrite <- next_day_mod by apply reading_day_range.
  unfold getHoursStatus, opensOn, openingThreshold.
  destruct spans as [|s0 spans']; [reflexivity|].
  fold (reading date tz). cbv zeta.
  set (sp := s0 :: spans') in *. clearbody sp.
  revert Hc. generalize (reading date tz). intros parts Hc. rewrite Hc. clear Hc.
  cbv beta iota.
  destruct (hd_error _) as [nextOpen|]; cbv beta iota.
  - destruct (nle _ _); reflexivity.
  - destruct (map _ (filter _ sp)) as [|o os]; cbv beta iota; [reflexivity|].
    destruct (nle _ _); reflexivity.
Qed.
End OutsideFacts.

Lemma opensOn_in (spans : list HoursSpan) (d : Z) (x : number) :
  In x (opensOn spans d) <->
  exists s, In s spans /\ day s = d /\ toMinutes (open s) = x.
Proof.
  unfold opensOn. rewrite in_map_iff. split.
  - intros (s & Hx & Hs). apply filter_In in Hs. destruct Hs as [Hs Hd].
    apply Z.eqb_eq in Hd. eauto.
  - intros (s & Hs & Hd & Hx). exists s. split; [exact Hx|].
    apply filter_In. split; [exact Hs|]. apply Z.eqb_eq. exact Hd.
Qed.

(** X7.  Outside every span the result carries no minutesUntilClose, and
    its status follows the inclusive opening threshold: with a countdown to
    the next opening it is opening_soon when the countdown is at most
    openingSoonMinutes (60 by default) and closed otherwise; without one it
    is closed. *)
Theorem opening_soon_threshold `{ZonedClock}
    (spans : list HoursSpan) (date : Date) (timeZone : option str)
    (options : HoursStatusOptions) :
  let result := getHoursStatus spans date timeZone options in
  containing spans (zday (reading date timeZone)) (zminutes (reading date timeZone))
  = None ->
  minutesUntilClose result = None
  /\ match minutesUntilOpen result with
     | Some u =>
         status result
         = if nle u (openingThreshold options) then st_opening_soon else st_closed
     | None => status result = st_closed
     end.
Proof.
  intros result Hc. subst result.
  rewrite (getHoursStatus_outside_result _ _ _ _ Hc). cbv zeta.
  match goal with
  | |- context [match ?x with Some _ => _ | None => mkResult st_closed None None end] =>
      destruct x as [until|]
  end; cbn [minutesUntilClose minutesUntilOpen status]; auto.
Qed.

Lemma opening_soon_threshold_witness :
  status (getHoursStatus (H := WallClock) [mkSpan 1 (js "09:00") (js "17:00")]
            (mkWall 1 8 0) None noOptions) = st_opening_soon.
Proof.
  destruct (opening_soon_threshold (H := WallClock) [mkSpan 1 (js "09:00") (js "17:00")]
              (mkWall 1 8 0) None noOptions) as [_ Hs].
  - vm_compute. reflexivity.
  - vm_compute in Hs. exact Hs.
Defined.



(** ** The engine on parsed hours *)

Lemma parseHoursLines_wellTimed (lines : list str) : wellTimed (parseHoursLines lines).
Proof. intros s Hs. exact (parseHoursLines_weak_order lines s Hs). Qed.

Lemma containing_some (spans : list HoursSpan) (d m : Z) (s : HoursSpan) :
  containing spans d m = Some s ->
  In s spans /\ day s = d /\ contains m s = true.
Proof.
  unfold containing. intros Hf. apply find_some in Hf. destruct Hf as [Hin Hp].
  apply andb_true_iff in Hp. destruct Hp as [Hd Hc]. apply Z.eqb_eq in Hd. auto.
Qed.

Lemma nadd_num (a b : Z) : nadd (Num a) (Num b) = Num (a + b).
Proof. reflexivity. Qed.

Lemma nsub_num (a b : Z) : nsub (Num a) (Num b) = Num (a - b).
Proof. reflexivity. Qed.

(** X9.  On hours that come from [parseHoursLines], every countdown the
    engine reports is a whole number of minutes, at least 1 and at most
    2880 (two days): it never reports a zero, negative or undefined-number
    countdown. *)
Theorem countdown_bounds `{ZonedClock}
    (lines : list str) (date : Date) (timeZone : option str)
    (options : HoursStatusOptions) (u : number) :
  let result := getHoursStatus (parseHoursLines lines) date timeZone options in
  minutesUntilClose result = Some u \/ minutesUntilOpen result = Some u ->
  exists z, u = Num z /\ 1 <= z <= 2 * 24 * 60.
Proof.
  intros result. subst result.
  pose proof (parseHoursLines_wellTimed lines) as Hwt.
  set (spans := parseHoursLines lines) in *. clearbody spans.
  pose proof (reading_minutes_range date timeZone) as Hm.
  destruct (containing spans (zday (reading date timeZone))
              (zminutes (reading date timeZone))) as [s|] eqn:Hc.
  - destruct (containing_some _ _ _ _ Hc) as (Hin & Hd & Hcont).
    destruct (Hwt s Hin) as (o & c & Ho & Hcl & Hoc & Hc24).
    unfold contains in Hcont. rewrite Ho, Hcl in Hcont. unfold nge in Hcont.
    cbn [nle nlt] in Hcont. apply andb_true_iff in Hcont.
    destruct Hcont as [H1 H2]. apply Z.leb_le in H1. apply Z.ltb_lt in H2.
    destruct (eqs (open s) (js "00:00") && eqs (close s) (js "24:00")) eqn:Ead.
    + apply allDay_dec in Ead. rewrite (getHoursStatus_allDay _ _ _ _ _ Hc Ead).
      cbn. intros [E|E]; discriminate E.
    + assert (Hall : ~ allDay s).
      { intros Ha. apply allDay_dec in Ha. congruence. }
      rewrite (getHoursStatus_inside _ _ _ _ _ Hc Hall).
      cbn [minutesUntilClose minutesUntilOpen]. intros [E|E]; [|discriminate E].
      apply some_inj in E; rewrite <- E; clear E. rewrite Hcl. rewrite ?nsub_num.
      destruct (eqs (close s) (js "24:00")).
      * destruct (opensAtMidnight spans _) as [next|] eqn:Hn.
        -- apply opensAtMidnight_some in Hn. destruct Hn as (Hnin & _ & _).
           destruct (Hwt next Hnin) as (o' & c' & _ & Hcl' & Hoc' & Hc24').
           rewrite Hcl'. rewrite ?nadd_num. eexists. split; [reflexivity|lia].
        -- eexists. split; [reflexivity|lia].
      * eexists. split; [reflexivity|lia].
  - rewrite (getHoursStatus_outside_result _ _ _ _ Hc). cbv zeta.
    set (d := zday (reading date timeZone)) in *.
    set (minutes := zminutes (reading date timeZone)) in *.
    set (later := filter (fun o => ngt o (Num minutes)) (opensOn spans d)).
    assert (Hopens : forall dd x, In x (opensOn spans dd) ->
                       exists z, x = Num z /\ 0 <= z <= 24 * 60).
    { intros dd x Hx. apply opensOn_in in Hx. destruct Hx as (s & Hs & _ & <-).
      destruct (Hwt s Hs) as (o & c & -> & _ & Hoc & Hc24). exists o. split; [reflexivity|lia]. }
    destruct (hd_error (sortAscending later)) as [x|] eqn:Hhd.
    + assert (Hx : In x later).
      { apply sortAscending_in. destruct (sortAscending later); [discriminate|].
        cbn in Hhd. injection Hhd as <-. left. reflexivity. }
      apply filter_In in Hx. destruct Hx as [Hx Hgt].
      destruct (Hopens d x Hx) as (z & -> & Hz). unfold ngt, nlt in Hgt. apply Z.ltb_lt in Hgt.
      rewrite ?nsub_num. destruct (nle _ _); cbn [minutesUntilClose minutesUntilOpen];
        (intros [E|E]; [discriminate E|]); apply some_inj in E; rewrite <- E; clear E;
        (eexists; split; [reflexivity|lia]).
    + destruct (opensOn spans ((d + 1) mod 7)) as [|o os] eqn:Eo.
      * cbn. intros [E|E]; discriminate E.
      * destruct (Hopens ((d + 1) mod 7) o) as (z & -> & Hz).
        { rewrite Eo. left. reflexivity. }
        destruct (fold_nmin_least os z) as (r & Hr & Hin & _).
        { intros y Hy. destruct (Hopens ((d + 1) mod 7) y) as (w & -> & _);
            [rewrite Eo; right; exact Hy|eauto]. }
        rewrite Hr. rewrite ?nadd_num.
        destruct (Hopens ((d + 1) mod 7) (Num r)) as (r' & Er & Hr').
        { rewrite Eo. exact Hin. }
        injection Er as <-.
        destruct (nle _ _); cbn [minutesUntilClose minutesUntilOpen];
          (intros [E|E]; [discriminate E|]); apply some_inj in E; rewrite <- E; clear E;
          (eexists; split; [reflexivity|lia]).
Qed.

Lemma countdown_bounds_witness : exists z, Num 180 = Num z /\ 1 <= z <= 2 * 24 * 60.
Proof.
  apply (countdown_bounds (H := WallClock) [js "Tue 10:00pm - 2:00am"] (mkWall 2 23 0)
           None noOptions (Num 180)).
  left. vm_compute. reflexivity.
Defined.

(** X10.  When the query day has spans and every one of them is the all-day
    span 00:00-24:00, the status is open, with no countdown, at whatever
    time of that day the query falls. *)
Theorem all_day_open `{ZonedClock}
    (spans : list HoursSpan) (date : Date) (timeZone : option str)
    (options : HoursStatusOptions) :
  let d := zday (reading date timeZone) in
  (exists s, In s spans /\ day s = d) ->
  (forall s, In s spans -> day s = d -> allDay s) ->
  getHoursStatus spans date timeZone options = mkResult st_open None None.
Proof.
  intros d (s0 & Hin0 & Hd0) Hall.
  pose proof (reading_minutes_range date timeZone) as Hm.
  assert (Hcont : forall s, allDay s -> contains (zminutes (reading date timeZone)) s = true).
  { intros s [Ho Hc]. unfold contains. rewrite Ho, Hc.
    change (toMinutes (js "00:00")) with (Num 0).
    change (toMinutes (js "24:00")) with (Num 1440).
    unfold nge. cbn [nle nlt]. apply andb_true_iff.
    split; [apply Z.leb_le|apply Z.ltb_lt]; lia. }
  destruct (containing spans d (zminutes (reading date timeZone))) as [s|] eqn:Hc.
  - destruct (containing_some _ _ _ _ Hc) as (Hin & Hd & _).
    exact (getHoursStatus_allDay _ _ _ _ _ Hc (Hall s Hin Hd)).
  - exfalso. unfold containing in Hc.
    pose proof (find_none _ _ Hc s0 Hin0) as Hp. cbv beta in Hp.
    rewrite Hd0, Z.eqb_refl, (Hcont s0 (Hall s0 Hin0 Hd0)) in Hp. discriminate Hp.
Qed.

Lemma all_day_open_witness :
  getHoursStatus (H := WallClock) (parseHoursLines [js "Daily 24 hours"])
    (mkWall 6 23 59) None noOptions
  = mkResult st_open None None.
Proof.
  apply (all_day_open (H := WallClock)).
  - exists (mkSpan 6 (js "00:00") (js "24:00")). vm_compute. intuition.
  - vm_compute. intros s Hin Hd.
    repeat (destruct Hin as [<-|Hin]; [try discriminate Hd; split; reflexivity|]).
    destruct Hin.
Defined.

(** ** [isOpenAt] *)

Lemma isOpenAt_existsb `{ZonedClock} (spans : list HoursSpan) (date : Date)
    (timeZone : option str) :
  isOpenAt spans date timeZone
  = existsb (fun span => (day span =? zday (reading date timeZone))
                         && contains (zminutes (reading date timeZone)) span) spans.
Proof.
  unfold isOpenAt. destruct spans as [|s0 spans']; [reflexivity|].
  fold (reading date timeZone). cbv zeta.
  generalize (s0 :: spans'). intros l.
  induction l as [|a l IH]; [reflexivity|]. cbn [existsb]. rewrite IH.
  destruct (day a =? zday (reading date timeZone)); reflexivity.
Qed.

(** X11.  Openness is that of some span: [isOpenAt] on two span lists put
    together is the disjunction of [isOpenAt] on each, and it does not
    depend on the order of the spans. *)
Theorem isOpenAt_union `{ZonedClock}
    (a b : list HoursSpan) (date : Date) (timeZone : option str) :
  isOpenAt (a ++ b) date timeZone
  = isOpenAt a date timeZone || isOpenAt b date timeZone
  /\ (Permutation a b -> isOpenAt a date timeZone = isOpenAt b date timeZone).
Proof.
  rewrite !isOpenAt_existsb. split; [apply existsb_app|].
  intros Hp.
  set (p := fun span => (day span =? zday (reading date timeZone))
                        && contains (zminutes (reading date timeZone)) span).
  destruct (existsb p a) eqn:Ea, (existsb p b) eqn:Eb; try reflexivity.
  - apply existsb_exists in Ea. destruct Ea as (x & Hx & Hpx).
    assert (existsb p b = true); [|congruence].
    apply existsb_exists. exists x. split; [exact (Permutation_in _ Hp Hx)|exact Hpx].
  - apply existsb_exists in Eb. destruct Eb as (x & Hx & Hpx).
    assert (existsb p a = true); [|congruence].
    apply existsb_exists. exists x.
    split; [exact (Permutation_in _ (Permutation_sym Hp) Hx)|exact Hpx].
Qed.

Lemma isOpenAt_union_witness :
  isOpenAt (H := WallClock)
    [mkSpan 1 (js "09:00") (js "12:00"); mkSpan 1 (js "13:00") (js "17:00")]
    (mkWall 1 14 0) None
  = isOpenAt (H := WallClock)
      [mkSpan 1 (js "13:00") (js "17:00"); mkSpan 1 (js "09:00") (js "12:00")]
      (mkWall 1 14 0) None.
Proof.
  apply (isOpenAt_union (H := WallClock)). apply perm_swap.
Defined.

(** ** [getSpansForDate] *)

Lemma insertByOpen_perm (x : HoursSpan) (xs : list HoursSpan) :
  Permutation (insertByOpen x xs) (x :: xs).
Proof.
  induction xs as [|y ys IH]; cbn [insertByOpen]; [reflexivity|].
  destruct (ngt _ _); [|reflexivity].
  rewrite IH. apply perm_swap.
Qed.

Lemma sortByOpen_perm (xs : list HoursSpan) : Permutation (sortByOpen xs) xs.
Proof.
  induction xs as [|x xs IH]; cbn [sortByOpen fold_right]; [reflexivity|].
  rewrite insertByOpen_perm. constructor. exact IH.
Qed.

Lemma insertByOpen_sorted (x : HoursSpan) (xs : list HoursSpan) (k : Z) :
  toMinutes (open x) = Num k ->
  (forall s, In s xs -> exists o, toMinutes (open s) = Num o) ->
  StronglySorted opensNoLater xs ->
  StronglySorted opensNoLater (insertByOpen x xs).
Proof.
  intros Hx Hnum Hs. induction Hs as [|y ys Hys IH Hall]; cbn [insertByOpen].
  { repeat constructor. }
  destruct (Hnum y (or_introl eq_refl)) as (o & Hy).
  rewrite Hx, Hy. cbn [nsub]. unfold ngt. cbn [nlt].
  destruct (Z.ltb_spec 0 (k - o)) as [Hlt|Hge].
  - constructor.
    + apply IH. intros s Hin. apply Hnum. right. exact Hin.
    + rewrite Forall_forall in *. intros s Hin.
      apply (Permutation_in _ (insertByOpen_perm x ys)) in Hin.
      destruct Hin as [<-|Hin]; [|exact (Hall s Hin)].
      exists o, k. repeat split; [exact Hy|exact Hx|lia].
  - constructor; [constructor; assumption|].
    constructor.
    + exists k, o. repeat split; [exact Hx|exact Hy|lia].
    + rewrite Forall_forall in *. intros s Hin.
      destruct (Hall s Hin) as (a & b & Ha & Hb & Hab).
      exists k, b. repeat split; [exact Hx|exact Hb|]. rewrite Hy in Ha.
      injection Ha as <-. lia.
Qed.

Lemma sortByOpen_sorted (xs : list HoursSpan) :
  (forall s, In s xs -> exists o, toMinutes (open s) = Num o) ->
  StronglySorted opensNoLater (sortByOpen xs).
Proof.
  induction xs as [|x xs IH]; intros Hnum; cbn [sortByOpen fold_right].
  { constructor. }
  destruct (Hnum x (or_introl eq_refl)) as (k & Hk).
  apply (insertByOpen_sorted x _ k Hk).
  - intros s Hin. apply (Permutation_in _ (sortByOpen_perm xs)) in Hin.
    apply Hnum. right. exact Hin.
  - apply IH. intros s Hin. apply Hnum. right. exact Hin.
Qed.

(** Insertion is stable: a span goes in front of the spans that open at its
    own minute. *)
Lemma insertByOpen_stable (x : HoursSpan) (xs : list HoursSpan) (k : Z) :
  (forall s, In s (x :: xs) -> exists o, toMinutes (open s) = Num o) ->
  openingAt k (insertByOpen x xs) = openingAt k (x :: xs).
Proof.
  intros Hnum. induction xs as [|y ys IH]; cbn [insertByOpen]; [reflexivity|].
  destruct (Hnum x (or_introl eq_refl)) as (a & Hx).
  destruct (Hnum y (or_intror (or_introl eq_refl))) as (b & Hy).
  rewrite Hx, Hy. cbn [nsub]. unfold ngt. cbn [nlt].
  destruct (Z.ltb_spec 0 (a - b)) as [Hlt|Hge]; [|reflexivity].
  unfold openingAt in *. cbn [filter]. fold (insertByOpen x ys).
  rewrite IH.
  2:{ intros s [<-|Hin]; [eauto|]. apply Hnum. right. right. exact Hin. }
  cbn [filter]. rewrite Hx, Hy. cbn [neq].
  destruct (Z.eqb_spec a k), (Z.eqb_spec b k); try reflexivity. lia.
Qed.

Lemma sortByOpen_stable (xs : list HoursSpan) (k : Z) :
  (forall s, In s xs -> exists o, toMinutes (open s) = Num o) ->
  openingAt k (sortByOpen xs) = openingAt k xs.
Proof.
  induction xs as [|x xs IH]; intros Hnum; cbn [sortByOpen fold_right]; [reflexivity|].
  fold (sortByOpen xs). rewrite insertByOpen_stable.
  - unfold openingAt in *. cbn [filter]. rewrite IH; [reflexivity|].
    intros s Hin. apply Hnum. right. exact Hin.
  - intros s [<-|Hin]; [apply Hnum; left; reflexivity|].
    apply (Permutation_in _ (sortByOpen_perm xs)) in Hin. apply Hnum. right. exact Hin.
Qed.

(** X12.  When every open time is numeric, [getSpansForDate] returns the
    spans of the query day and no others, each as often as it is listed,
    ordered by opening minute, and with spans that open at the same minute
    left in their listed order. *)
Theorem getSpansForDate_sorted `{ZonedClock}
    (spans : list HoursSpan) (date : Date) (timeZone : option str) :
  (forall s, In s spans -> exists o, toMinutes (open s) = Num o) ->
  let today := filter (fun span => day span =? zday (reading date timeZone)) spans in
  let result := getSpansForDate spans date timeZone in
  Permutation result today
  /\ StronglySorted opensNoLater result
  /\ forall k, openingAt k result = openingAt k today.
Proof.
  intros Hnum today result.
  assert (Hres : result = sortByOpen today).
  { subst result today. unfold getSpansForDate. fold (reading date timeZone).
    destruct spans as [|s0 spans']; reflexivity. }
  assert (Htoday : forall s, In s today -> exists o, toMinutes (open s) = Num o).
  { intros s Hin. apply filter_In in Hin. apply Hnum. apply Hin. }
  rewrite Hres. split; [apply sortByOpen_perm|].
  split; [apply sortByOpen_sorted; exact Htoday|].
  intros k. apply sortByOpen_stable. exact Htoday.
Qed.

Lemma getSpansForDate_sorted_witness :
  StronglySorted opensNoLater
    (getSpansForDate (H := WallClock)
       [mkSpan 1 (js "17:00") (js "21:00"); mkSpan 2 (js "06:00") (js "10:00");
        mkSpan 1 (js "06:00") (js "11:00")]
       (mkWall 1 12 0) None).
Proof.
  destruct (getSpansForDate_sorted (H := WallClock)
              [mkSpan 1 (js "17:00") (js "21:00"); mkSpan 2 (js "06:00") (js "10:00");
               mkSpan 1 (js "06:00") (js "11:00")]
              (mkWall 1 12 0) None) as (_ & Hsorted & _).
  - intros s [<-|[<-|[<-|[]]]]; vm_compute; eauto.
  - exact Hsorted.
Defined.

(** ** [normalizeTimeZone] *)

Lemma dropWhile_suffix (p : code -> bool) (s : str) :
  exists a, s = a ++ dropWhile p s.
Proof.
  induction s as [|c s IH]; [exists []; reflexivity|]. cbn [dropWhile].
  destruct (p c); [|exists []; reflexivity].
  destruct IH as [a Ha]. exists (c :: a). cbn [app]. f_equal. exact Ha.
Qed.

Lemma dropWhile_head (p : code -> bool) (s : str) :
  match dropWhile p s with [] => True | x :: _ => p x = false end.
Proof.
  induction s as [|c s IH]; [exact I|]. cbn [dropWhile].
  destruct (p c) eqn:Hc; [exact IH|exact Hc].
Qed.

Lemma trim_ends (s : str) :
  match trim s with [] => True | x :: _ => isWhiteSpace x = false end
  /\ isWhiteSpace (last (trim s) 0%N) = false.
Proof.
  unfold trim.
  pose proof (dropWhile_head isWhiteSpace s) as Hfront.
  set (d := dropWhile isWhiteSpace s) in *.
  pose proof (dropWhile_head isWhiteSpace (rev d)) as Hback.
  destruct (dropWhile_suffix isWhiteSpace (rev d)) as [a Ha].
  set (e := dropWhile isWhiteSpace (rev d)) in *.
  split.
  - destruct e as [|y e'] using rev_ind; [exact I|].
    rewrite rev_app_distr. cbn [rev app].
    apply (f_equal (@rev code)) in Ha. rewrite rev_involutive in Ha.
    rewrite app_assoc, rev_app_distr in Ha. cbn [rev app] in Ha.
    rewrite Ha in Hfront. exact Hfront.
  - destruct e as [|y e']; [reflexivity|].
    cbn [rev]. rewrite last_last. exact Hback.
Qed.

Lemma trim_idempotent (s : str) : trim (trim s) = trim s.
Proof. destruct (trim_ends s) as [Hh Hl]. apply trim_fixed; assumption. Qed.

(** X13.  Normalising a time zone twice is normalising it once; and the
    result is never empty, never one of the aliases, and has no white space
    at either end. *)
Theorem normalizeTimeZone_idempotent (value : option str) :
  let zone := normalizeTimeZone value in
  normalizeTimeZone (Some zone) = zone
  /\ zone <> [] /\ ~ In zone aliases /\ trim zone = zone.
Proof.
  cbv zeta.
  assert (Hnyc : normalizeTimeZone (Some NYC_TIMEZONE) = NYC_TIMEZONE
                 /\ NYC_TIMEZONE <> [] /\ ~ In NYC_TIMEZONE aliases
                 /\ trim NYC_TIMEZONE = NYC_TIMEZONE).
  { split; [reflexivity|]. split; [discriminate|]. split; [|reflexivity].
    intros Hin. apply aliases_dec in Hin. vm_compute in Hin. discriminate Hin. }
  assert (Hz : normalizeTimeZone value = NYC_TIMEZONE
               \/ exists t ts, normalizeTimeZone value = t :: ts
                    /\ trim (t :: ts) = t :: ts
                    /\ existsb (eqs (t :: ts)) aliases = false).
  { unfold normalizeTimeZone. destruct value as [[|c v]|]; auto.
    cbv zeta. destruct (trim (c :: v)) as [|t ts] eqn:Ht; auto.
    destruct (existsb (eqs (t :: ts)) aliases) eqn:Ea; auto.
    right. exists t, ts. repeat split; auto.
    rewrite <- Ht. apply trim_idempotent. }
  destruct Hz as [->|(t & ts & -> & Htrim & Ea)]; [exact Hnyc|].
  split.
  - unfold normalizeTimeZone. cbv zeta. rewrite Htrim, Ea. reflexivity.
  - split; [discriminate|]. split; [|exact Htrim].
    intros Hin. apply aliases_dec in Hin. congruence.
Qed.

(** ** The page: [formatMinutes], [formatSpan], [buildHoursRows] *)

Lemma format_checked :
  forallb (fun h => forallb (fun m => formatCheck h m) (zrange 60)) (zrange 25) = true.
Proof. vm_compute. reflexivity. Qed.

Lemma formatCheck_valid (h m : Z) : validClock h m -> formatCheck h m = true.
Proof.
  intros (Hh & Hm & _).
  pose proof format_checked as Hall. rewrite forallb_forall in Hall.
  specialize (Hall h (zrange_in h 25 ltac:(lia))). cbv beta in Hall.
  rewrite forallb_forall in Hall. exact (Hall m (zrange_in m 60 ltac:(lia))).
Qed.

(** X14.  The label the page shows for a canonical clock time is read back
    by the time parser as that time; 24:00, shown as 12:00 AM, is read
    back as 00:00. *)
Theorem formatMinutes_read_back (h m : Z) :
  validClock h m ->
  exists label,
    formatMinutes (clockTime h m) = Some label
    /\ parseTimeTo24h label = Some (clockTime (h mod 24) m).
Proof.
  intros Hv. pose proof (formatCheck_valid h m Hv) as Hc. unfold formatCheck in Hc.
  destruct (formatMinutes (clockTime h m)) as [label|]; [|discriminate Hc].
  exists label. split; [reflexivity|].
  unfold sameText in Hc. destruct (parseTimeTo24h label) as [t|]; [|discriminate Hc].
  apply eqs_spec in Hc. rewrite Hc. reflexivity.
Qed.

Lemma formatMinutes_read_back_witness :
  exists label,
    formatMinutes (js "19:05") = Some label
    /\ parseTimeTo24h label = Some (js "19:05").
Proof.
  apply (formatMinutes_read_back 19 5). unfold validClock. lia.
Defined.

Lemma pushAt_length (i : nat) (span : HoursSpan) (grouped : list (list HoursSpan)) :
  List.length (pushAt i span grouped) = List.length grouped.
Proof.
  revert i. induction grouped as [|g gs IH]; intros i; [reflexivity|].
  destruct i; cbn [pushAt List.length]; [reflexivity|]. rewrite IH. reflexivity.
Qed.

Lemma pushAt_nth (i j : nat) (span : HoursSpan) (grouped : list (list HoursSpan)) :
  (i < List.length grouped)%nat ->
  nth j (pushAt i span grouped) []
  = if Nat.eqb j i then nth j grouped [] ++ [span] else nth j grouped [].
Proof.
  revert i j. induction grouped as [|g gs IH]; intros i j Hi; [cbn in Hi; lia|].
  destruct i as [|i], j as [|j]; cbn [pushAt nth Nat.eqb]; try reflexivity.
  apply IH. cbn in Hi. lia.
Qed.

Lemma groupByDay_fold (spans : list HoursSpan) (acc : list (list HoursSpan)) (d : Z) :
  List.length acc = 7%nat -> 0 <= d <= 6 ->
  nth (Z.to_nat d)
    (fold_left
       (fun grouped span =>
          if (0 <=? day span) && (day span <=? 6)
          then pushAt (Z.to_nat (day span)) span grouped
          else grouped)
       spans acc) []
  = nth (Z.to_nat d) acc [] ++ filter (fun span => day span =? d) spans.
Proof.
  intros Hlen Hd. revert acc Hlen.
  induction spans as [|s spans IH]; intros acc Hlen; cbn [fold_left filter].
  { rewrite app_nil_r. reflexivity. }
  destruct (Z.leb_spec 0 (day s)) as [H0|H0], (Z.leb_spec (day s) 6) as [H6|H6];
    cbn [andb].
  - rewrite IH by (rewrite pushAt_length; exact Hlen).
    rewrite pushAt_nth by lia.
    destruct (Nat.eqb_spec (Z.to_nat d) (Z.to_nat (day s))) as [He|Hne].
    + replace (day s =? d) with true by (symmetry; apply Z.eqb_eq; lia).
      rewrite <- app_assoc. reflexivity.
    + replace (day s =? d) with false by (symmetry; apply Z.eqb_neq; lia).
      reflexivity.
  - rewrite IH by exact Hlen.
    replace (day s =? d) with false by (symmetry; apply Z.eqb_neq; lia). reflexivity.
  - rewrite IH by exact Hlen.
    replace (day s =? d) with false by (symmetry; apply Z.eqb_neq; lia). reflexivity.
  - lia.
Qed.

Lemma groupByDay_nth (spans : list HoursSpan) (d : Z) :
  0 <= d <= 6 ->
  nth (Z.to_nat d) (groupByDay spans) [] = filter (fun span => day span =? d) spans.
Proof.
  intros Hd. unfold groupByDay. rewrite groupByDay_fold; [|reflexivity|exact Hd].
  assert (Hnil : nth (Z.to_nat d) (repeat (@nil HoursSpan) 7) [] = []).
  { destruct (Z.to_nat d) as [|[|[|[|[|[|[|n]]]]]]]; try reflexivity.
    cbn [repeat nth]. destruct n; reflexivity. }
  rewrite Hnil. reflexivity.
Qed.

Lemma mapThrowing_spec {A B : Type} (f : A -> option B) (P : A -> B -> Prop)
    (xs : list A) :
  (forall x, In x xs -> exists y, f x = Some y /\ P x y) ->
  exists ys, mapThrowing f xs = Some ys /\ Forall2 P xs ys.
Proof.
  induction xs as [|x xs IH]; intros Hf; cbn [mapThrowing].
  { exists []. split; [reflexivity|constructor]. }
  destruct (Hf x (or_introl eq_refl)) as (y & Hy & Py). rewrite Hy.
  destruct IH as (ys & Hys & Pys); [intros z Hz; apply Hf; right; exact Hz|].
  rewrite Hys. exists (y :: ys). split; [reflexivity|constructor; assumption].
Qed.

Lemma formatMinutes_canonical (h m : Z) :
  validClock h m -> exists label, formatMinutes (clockTime h m) = Some label.
Proof.
  intros Hv. pose proof (formatCheck_valid h m Hv) as Hc. unfold formatCheck in Hc.
  destruct (formatMinutes (clockTime h m)) as [label|]; [eauto|discriminate Hc].
Qed.

Lemma formatSpan_canonical (h1 m1 h2 m2 : Z) :
  validClock h1 m1 -> validClock h2 m2 ->
  exists label, formatSpan (clockTime h1 m1) (clockTime h2 m2) = Some label.
Proof.
  intros V1 V2. unfold formatSpan.
  destruct (eqs (clockTime h1 m1) (js "00:00") && eqs (clockTime h2 m2) (js "24:00"));
    [eauto|].
  destruct (formatMinutes_canonical _ _ V1) as (l1 & ->).
  destruct (eqs (clockTime h2 m2) (js "24:00")); [eauto|].
  destruct (formatMinutes_canonical _ _ V2) as (l2 & ->). eauto.
Qed.

Lemma existsb_perm {A : Type} (p : A -> bool) (xs ys : list A) :
  Permutation xs ys -> existsb p xs = existsb p ys.
Proof.
  intros Hp. induction Hp; cbn [existsb].
  - reflexivity.
  - rewrite IHHp. reflexivity.
  - destruct (p x), (p y); reflexivity.
  - congruence.
Qed.

Lemma hoursRow_spec (spans : list HoursSpan) (d : Z) :
  canonicalTimes spans -> 0 <= d <= 6 ->
  exists row,
    hoursRow (groupByDay spans) d = Some row /\ row_day row = d /\ rowOf spans row.
Proof.
  intros Hcanon Hd. unfold hoursRow. cbv zeta. rewrite (groupByDay_nth _ _ Hd).
  set (today := filter (fun span => day span =? d) spans).
  pose proof (sortByOpen_perm today) as Hperm.
  set (daySpans := sortByOpen today) in *.
  set (p := fun span => eqs (open span) (js "00:00") && eqs (close span) (js "24:00")).
  rewrite (existsb_perm p _ _ Hperm).
  assert (Hp : forall s, p s = true <-> allDay s).
  { intros s. unfold p. rewrite allDay_dec. reflexivity. }
  destruct (existsb p today) eqn:Hall.
  - eexists. split; [reflexivity|]. split; [reflexivity|].
    unfold rowOf. cbn [row_day row_label row_ranges]. fold today.
    apply existsb_exists in Hall. destruct Hall as (s & Hs & Hps).
    split; [reflexivity|]. split; [|split; [reflexivity|]].
    + intros Hnil. rewrite Hnil in Hs. destruct Hs.
    + intros Hnone. exfalso. apply (Hnone s Hs). apply Hp. exact Hps.
  - assert (Hnone : forall s, In s today -> ~ allDay s).
    { intros s Hs Ha. apply Hp in Ha.
      assert (existsb p today = true); [|congruence].
      apply existsb_exists. eauto. }
    destruct daySpans as [|s0 rest] eqn:Hds.
    + apply Permutation_nil in Hperm.
      eexists. split; [reflexivity|]. split; [reflexivity|].
      unfold rowOf. cbn [row_day row_label row_ranges]. fold today.
      split; [reflexivity|]. split; [reflexivity|]. split.
      * intros (s & Hs & _). rewrite Hperm in Hs. destruct Hs.
      * intros _ Hne. congruence.
    + destruct (mapThrowing_spec (fun span => formatSpan (open span) (close span))
                  (fun _ _ => True) (s0 :: rest)) as (ranges & Hr & Hf2).
      { intros s Hs. apply (Permutation_in _ Hperm) in Hs.
        apply filter_In in Hs. destruct Hs as [Hs _].
        destruct (Hcanon s Hs) as (h1 & m1 & h2 & m2 & V1 & V2 & -> & ->).
        destruct (formatSpan_canonical _ _ _ _ V1 V2) as (l & Hl). eauto. }
      rewrite Hr. eexists. split; [reflexivity|]. split; [reflexivity|].
      unfold rowOf. cbn [row_day row_label row_ranges]. fold today.
      split; [reflexivity|]. split; [|split].
      * intros Hnil. rewrite Hnil in Hperm.
        apply Permutation_sym, Permutation_nil in Hperm. discriminate Hperm.
      * intros (s & Hs & Ha). exfalso. exact (Hnone s Hs Ha).
      * intros _ _. apply Forall2_length in Hf2. rewrite <- Hf2.
        apply Permutation_length. exact Hperm.
Qed.

(** X15.  For a non-empty list of spans with canonical times, the hours
    table is built without failure and has the seven days, Monday first and
    Sunday last; a day with no span reads "Closed", a day with an all-day
    span reads "Open 24 hours" alone, and any other day has one range for
    each of its spans. *)
Theorem buildHoursRows_week (spans : list HoursSpan) :
  spans <> [] -> canonicalTimes spans ->
  exists rows,
    buildHoursRows spans = Some rows
    /\ map row_day rows = DAY_ORDER
    /\ forall row, In row rows -> rowOf spans row.
Proof.
  intros Hne Hcanon. unfold buildHoursRows.
  destruct spans as [|s0 spans']; [congruence|].
  set (spans := s0 :: spans') in *.
  destruct (mapThrowing_spec (hoursRow (groupByDay spans))
              (fun d row => row_day row = d /\ rowOf spans row) DAY_ORDER)
    as (rows & Hrows & Hf2).
  { intros d Hd. apply hoursRow_spec; [exact Hcanon|].
    unfold DAY_ORDER in Hd. cbn [In] in Hd. lia. }
  exists rows. split; [exact Hrows|].
  clear Hrows. induction Hf2 as [|d row ds rows' [Hd Hrow] Hf2 IH].
  { split; [reflexivity|intros row []]. }
  destruct IH as [Hmap Hall]. split.
  - cbn [map]. rewrite Hd, Hmap. reflexivity.
  - intros r [<-|Hr]; [exact Hrow|exact (Hall r Hr)].
Qed.

Lemma buildHoursRows_week_witness :
  exists rows,
    buildHoursRows (parseHoursLines [js "Mon-Fri 6am-10pm"; js "Sat 24 hours"]) = Some rows
    /\ map row_day rows = DAY_ORDER.
Proof.
  destruct (buildHoursRows_week (parseHoursLines [js "Mon-Fri 6am-10pm"; js "Sat 24 hours"]))
    as (rows & Hrows & Hdays & _).
  - vm_compute. discriminate.
  - intros s Hs. vm_compute in Hs.
    repeat (destruct Hs as [<-|Hs];
            [first [ exists 6, 0, 22, 0; unfold validClock; repeat split; lia
                   | exists 0, 0, 24, 0; unfold validClock; repeat split; lia ]|]).
    destruct Hs.
  - exists rows. split; assumption.
Defined.

(** ** The shape of a status result *)

(** The four shapes of a result. *)
Lemma getHoursStatus_shapes `{ZonedClock}
    (spans : list HoursSpan) (date : Date) (timeZone : option str)
    (options : HoursStatusOptions) :
  let result := getHoursStatus spans date timeZone options in
  result = mkResult st_open None None
  \/ result = mkResult st_closed None None
  \/ (exists u,
        result = mkResult (if nle u (closingThreshold options)
                           then st_closing_soon else st_open) (Some u) None)
  \/ (exists u,
        result = mkResult (if nle u (openingThreshold options)
                           then st_opening_soon else st_closed) None (Some u)).
Proof.
  cbv zeta.
  destruct (containing spans (zday (reading date timeZone))
              (zminutes (reading date timeZone))) as [s|] eqn:Hc.
  - destruct (eqs (open s) (js "00:00") && eqs (close s) (js "24:00")) eqn:Ead.
    + apply allDay_dec in Ead. left. exact (getHoursStatus_allDay _ _ _ _ _ Hc Ead).
    + assert (Hall : ~ allDay s).
      { intros Ha. apply allDay_dec in Ha. congruence. }
      right. right. left. eexists.
      exact (getHoursStatus_inside _ _ _ _ _ Hc Hall).
  - rewrite (getHoursStatus_outside_result _ _ _ _ Hc). cbv zeta.
    match goal with
    | |- context [match ?x with Some _ => _ | None => mkResult st_closed None None end] =>
        destruct x as [until|]
    end.
    + right. right. right. exists until. reflexivity.
    + right. left. reflexivity.
Qed.

(** X16.  The countdowns of a result follow its status.  closing_soon
    always carries minutesUntilClose, within the closing threshold, and
    opening_soon always carries minutesUntilOpen, within the opening
    threshold; open and closing_soon never carry minutesUntilOpen, closed
    and opening_soon never carry minutesUntilClose; and a countdown that
    comes with open or closed is beyond its threshold. *)
Theorem status_fields `{ZonedClock}
    (spans : list HoursSpan) (date : Date) (timeZone : option str)
    (options : HoursStatusOptions) :
  let result := getHoursStatus spans date timeZone options in
  match status result with
  | st_closing_soon =>
      minutesUntilOpen result = None
      /\ exists u, minutesUntilClose result = Some u
                   /\ nle u (closingThreshold options) = true
  | st_opening_soon =>
      minutesUntilClose result = None
      /\ exists u, minutesUntilOpen result = Some u
                   /\ nle u (openingThreshold options) = true
  | st_open =>
      minutesUntilOpen result = None
      /\ forall u, minutesUntilClose result = Some u ->
                   nle u (closingThreshold options) = false
  | st_closed =>
      minutesUntilClose result = None
      /\ forall u, minutesUntilOpen result = Some u ->
                   nle u (openingThreshold options) = false
  end.
Proof.
  cbv zeta.
  destruct (getHoursStatus_shapes spans date timeZone options)
    as [->|[->|[(u & ->)|(u & ->)]]];
    cbn [status minutesUntilClose minutesUntilOpen].
  - split; [reflexivity|discriminate].
  - split; [reflexivity|discriminate].
  - destruct (nle u (closingThreshold options)) eqn:Hle.
    + split; [reflexivity|]. exists u. split; [reflexivity|exact Hle].
    + split; [reflexivity|]. intros v E. apply some_inj in E. rewrite <- E. exact Hle.
  - destruct (nle u (openingThreshold options)) eqn:Hle.
    + split; [reflexivity|]. exists u. split; [reflexivity|exact Hle].
    + split; [reflexivity|]. intros v E. apply some_inj in E. rewrite <- E. exact Hle.
Qed.

Lemma status_fields_witness :
  nle (Num 91) (closingThreshold noOptions) = false.
Proof.
  pose proof (status_fields (H := WallClock) [mkSpan 1 (js "09:00") (js "17:00")]
                (mkWall 1 15 29) None noOptions) as Hf.
  cbv zeta in Hf.
  change (status (getHoursStatus (H := WallClock) [mkSpan 1 (js "09:00") (js "17:00")]
                    (mkWall 1 15 29) None noOptions)) with st_open in Hf.
  destruct Hf as [_ Hu]. apply Hu. vm_compute. reflexivity.
Defined.

(** X23.  The status line of the page never falls back to a bare label:
    for a result of the engine, closing_soon reads "Closes in" and
    opening_soon reads "Opens in", each followed by the countdown of the
    result; open reads "Open now" or "Open at that time", closed reads
    "Closed". *)
Theorem formatStatusDetail_of_status `{ZonedClock}
    (spans : list HoursSpan) (date : Date) (timeZone : option str)
    (options : HoursStatusOptions) (isLive : bool) :
  let result := getHoursStatus spans date timeZone options in
  let detail := formatStatusDetail result isLive in
  match status result with
  | st_closing_soon =>
      exists u, minutesUntilClose result = Some u
                /\ detail = js "Closes in " ++ formatDuration u
  | st_opening_soon =>
      exists u, minutesUntilOpen result = Some u
                /\ detail = js "Opens in " ++ formatDuration u
  | st_open => detail = if isLive then js "Open now" else js "Open at that time"
  | st_closed => detail = js "Closed"
  end
  /\ detail <> js "Closing soon" /\ detail <> js "Opening soon".
Proof.
  cbv zeta.
  destruct (getHoursStatus_shapes spans date timeZone options)
    as [->|[->|[(u & ->)|(u & ->)]]];
    unfold formatStatusDetail; cbn [status minutesUntilClose minutesUntilOpen].
  - split; [reflexivity|]. destruct isLive; split; discriminate.
  - split; [reflexivity|]. split; discriminate.
  - destruct (nle u (closingThreshold options)).
    + split; [exists u; split; reflexivity|]. split; discriminate.
    + split; [reflexivity|]. destruct isLive; split; discriminate.
  - destruct (nle u (openingThreshold options)).
    + split; [exists u; split; reflexivity|]. split; discriminate.
    + split; [reflexivity|]. split; discriminate.
Qed.


(** ** Global replacement, for the two patterns of [slugifyAmenity] *)

Lemma star_final (p : code -> bool) (st : nat) (s : str) (pos : nat) (c : captures) :
  star p (fun _ e c' => Some (mkMatch st e c')) s pos c
  = Some (mkMatch st (pos + runLength p s) c).
Proof.
  revert pos. induction s as [|a s IH]; intros pos; cbn [star runLength].
  - rewrite Nat.add_0_r. reflexivity.
  - destruct (p a).
    + rewrite IH. do 2 f_equal. lia.
    + rewrite Nat.add_0_r. reflexivity.
Qed.

Lemma star_eol (p : code -> bool) (st : nat) (s : str) (pos : nat) (c : captures) :
  star p (rx Eol (fun _ e c' => Some (mkMatch st e c'))) s pos c
  = if forallb p s then Some (mkMatch st (pos + List.length s) c) else None.
Proof.
  revert pos. induction s as [|a s IH]; intros pos; cbn [star forallb List.length rx].
  - rewrite Nat.add_0_r. reflexivity.
  - destruct (p a); cbn [andb]; [|reflexivity].
    rewrite IH. destruct (forallb p s); [|reflexivity].
    do 2 f_equal. lia.
Qed.

Lemma skipn_runLength (p : code -> bool) (s : str) :
  skipn (runLength p s) s = dropWhile p s.
Proof.
  induction s as [|a s IH]; [reflexivity|]. cbn [runLength dropWhile].
  destruct (p a); [exact IH|reflexivity].
Qed.

Lemma dropWhile_length (p : code -> bool) (s : str) :
  (List.length (dropWhile p s) <= List.length s)%nat.
Proof.
  induction s as [|a s IH]; [reflexivity|]. cbn [dropWhile].
  destruct (p a); cbn [List.length]; lia.
Qed.

(** A search that fails at the first unit goes on after it, and the
    replacement keeps that unit. *)
Lemma replaceAllFrom_skip (fuel : nat) (r : regex) (replacement : str) (a : code)
    (s : str) (pos : nat) :
  matchHere r (a :: s) pos = None ->
  (forall m, searchFrom r s (S pos) = Some m ->
             (S pos <= mstart m)%nat /\ (mstart m < mend m)%nat) ->
  replaceAllFrom fuel r replacement (a :: s) pos
  = a :: replaceAllFrom fuel r replacement s (S pos).
Proof.
  intros Hhere Hlater. destruct fuel as [|fuel]; [reflexivity|].
  cbn [replaceAllFrom searchFrom]. rewrite Hhere.
  destruct (searchFrom r s (S pos)) as [m|] eqn:Hs; [|reflexivity].
  destruct (Hlater m eq_refl) as [Hstart Hend]. cbv zeta.
  replace (Nat.eqb (mend m) (mstart m)) with false by (symmetry; apply Nat.eqb_neq; lia).
  replace (mstart m - pos)%nat with (S (mstart m - S pos)) by lia.
  replace (mend m - pos)%nat with (S (mend m - S pos)) by lia.
  reflexivity.
Qed.

Lemma searchFrom_nonAlnumRun (s : str) (pos : nat) :
  searchFrom nonAlnumRun s pos =
    match s with
    | [] => None
    | a :: s' =>
        if nonAlnum a then Some (mkMatch pos (S pos + runLength nonAlnum s') [])
        else searchFrom nonAlnumRun s' (S pos)
    end.
Proof.
  destruct s as [|a s']; cbn [searchFrom]; unfold matchHere, nonAlnumRun; cbn [rx];
    [reflexivity|].
  destruct (nonAlnum a); [|reflexivity]. rewrite star_final. reflexivity.
Qed.

Lemma searchFrom_nonAlnumRun_bounds (s : str) (pos : nat) (m : MatchResult) :
  searchFrom nonAlnumRun s pos = Some m ->
  (pos <= mstart m)%nat /\ (mstart m < mend m)%nat.
Proof.
  revert pos. induction s as [|a s IH]; intros pos; rewrite searchFrom_nonAlnumRun.
  - discriminate.
  - destruct (nonAlnum a).
    + intros E. apply some_inj in E. rewrite <- E. cbn [mstart mend]. lia.
    + intros E. apply IH in E. lia.
Qed.

Lemma collapseRuns_run (p : code -> bool) (s : str) :
  collapseRuns p true s = collapseRuns p false (dropWhile p s).
Proof.
  induction s as [|a s IH]; [reflexivity|]. cbn [collapseRuns dropWhile].
  destruct (p a) eqn:Hp; [exact IH|].
  cbn [collapseRuns]. rewrite Hp. reflexivity.
Qed.

Lemma replaceAllFrom_nonAlnumRun (fuel : nat) (s : str) (pos : nat) :
  (List.length s < fuel)%nat ->
  replaceAllFrom fuel nonAlnumRun (js "_") s pos = collapseRuns nonAlnum false s.
Proof.
  revert s pos. induction fuel as [|fuel IHf]; intros s pos Hlen; [lia|].
  revert pos. induction s as [|a s IHs]; intros pos.
  { reflexivity. }
  destruct (nonAlnum a) eqn:Ha.
  - cbn [replaceAllFrom]. rewrite searchFrom_nonAlnumRun, Ha. cbv zeta.
    cbn [mstart mend].
    replace (Nat.eqb (S pos + runLength nonAlnum s) pos) with false
      by (symmetry; apply Nat.eqb_neq; lia).
    replace (pos - pos)%nat with O by lia.
    replace (S pos + runLength nonAlnum s - pos)%nat with (S (runLength nonAlnum s))
      by lia.
    cbn [firstn skipn app]. rewrite skipn_runLength.
    rewrite IHf.
    2:{ pose proof (dropWhile_length nonAlnum s). cbn [List.length] in Hlen. lia. }
    cbn [collapseRuns]. rewrite Ha. rewrite collapseRuns_run. reflexivity.
  - rewrite replaceAllFrom_skip.
    + rewrite IHs by (cbn [List.length] in Hlen; lia).
      cbn [collapseRuns]. rewrite Ha. reflexivity.
    + unfold matchHere, nonAlnumRun. cbn [rx]. rewrite Ha. reflexivity.
    + intros m Hm. apply searchFrom_nonAlnumRun_bounds in Hm. exact Hm.
Qed.

Lemma rx_run_eol (p : code -> bool) (st : nat) (s : str) (pos : nat) (c : captures) :
  rx (Cat (Cat (Chr p) (Star p)) Eol) (fun _ e c' => Some (mkMatch st e c')) s pos c
  = match s with
    | [] => None
    | a :: s' =>
        if p a && forallb p s' then Some (mkMatch st (S pos + List.length s') c)
        else None
    end.
Proof.
  destruct s as [|a s']; [reflexivity|].
  change (rx (Cat (Cat (Chr p) (Star p)) Eol)
            (fun _ e c' => Some (mkMatch st e c')) (a :: s') pos c)
    with (if p a
          then star p (rx Eol (fun _ e c' => Some (mkMatch st e c'))) s' (S pos) c
          else None).
  destruct (p a); [|reflexivity]. rewrite star_eol. reflexivity.
Qed.

Lemma rx_bol_run (p : code -> bool) (st : nat) (s : str) (pos : nat) (c : captures) :
  rx (Cat Bol (Cat (Chr p) (Star p))) (fun _ e c' => Some (mkMatch st e c')) s pos c
  = match s with
    | [] => None
    | a :: s' =>
        if Nat.eqb pos 0 && p a then Some (mkMatch st (S pos + runLength p s') c)
        else None
    end.
Proof.
  destruct s as [|a s']; [cbn [rx]; destruct (Nat.eqb pos 0); reflexivity|].
  change (rx (Cat Bol (Cat (Chr p) (Star p)))
            (fun _ e c' => Some (mkMatch st e c')) (a :: s') pos c)
    with (if Nat.eqb pos 0
          then if p a
               then star p (fun _ e c' => Some (mkMatch st e c')) s' (S pos) c
               else None
          else None).
  destruct (Nat.eqb pos 0), (p a); cbn [andb]; try reflexivity.
  rewrite star_final. reflexivity.
Qed.

Lemma matchHere_edgeUnderscores (s : str) (pos : nat) :
  matchHere edgeUnderscores s pos =
    match s with
    | [] => None
    | a :: s' =>
        if N.eqb 95 a then
          if Nat.eqb pos 0 then Some (mkMatch pos (S pos + runLength (N.eqb 95) s') [])
          else if forallb (N.eqb 95) s'
               then Some (mkMatch pos (S pos + List.length s') [])
               else None
        else None
    end.
Proof.
  unfold matchHere, edgeUnderscores.
  change (rx (Alt ?r1 ?r2) ?k s pos [])
    with (match rx r1 k s pos [] with
          | Some x => Some x
          | None => rx r2 k s pos []
          end).
  rewrite rx_bol_run, rx_run_eol.
  destruct s as [|a s']; [reflexivity|].
  destruct (N.eqb 95 a), (Nat.eqb pos 0); cbn [andb]; reflexivity.
Qed.

Lemma searchFrom_edgeUnderscores_bounds (s : str) (pos : nat) (m : MatchResult) :
  searchFrom edgeUnderscores s pos = Some m ->
  (pos <= mstart m)%nat /\ (mstart m < mend m)%nat.
Proof.
  revert pos. induction s as [|a s IH]; intros pos; cbn [searchFrom];
    rewrite matchHere_edgeUnderscores.
  - discriminate.
  - destruct (N.eqb 95 a).
    + destruct (Nat.eqb pos 0).
      * intros E. apply some_inj in E. rewrite <- E. cbn [mstart mend]. lia.
      * destruct (forallb (N.eqb 95) s).
        -- intros E. apply some_inj in E. rewrite <- E. cbn [mstart mend]. lia.
        -- intros E. apply IH in E. lia.
    + intros E. apply IH in E. lia.
Qed.

Lemma replaceAllFrom_edge_nil (fuel : nat) (pos : nat) :
  replaceAllFrom fuel edgeUnderscores [] [] pos = [].
Proof.
  destruct fuel as [|fuel]; [reflexivity|].
  cbn [replaceAllFrom searchFrom]. rewrite matchHere_edgeUnderscores. reflexivity.
Qed.

(** Past the start of the subject, only the last run of underscores goes. *)
Lemma replaceAllFrom_trailing (fuel : nat) (s : str) (pos : nat) :
  (0 < fuel)%nat -> (0 < pos)%nat ->
  replaceAllFrom fuel edgeUnderscores [] s pos = dropTrailing s.
Proof.
  intros Hfuel. revert pos. induction s as [|a s IH]; intros pos Hpos.
  { apply replaceAllFrom_edge_nil. }
  cbn [dropTrailing].
  destruct (N.eqb 95 a && forallb (N.eqb 95) s) eqn:Hall.
  - apply andb_true_iff in Hall. destruct Hall as [Ha Hs].
    destruct fuel as [|fuel]; [lia|].
    cbn [replaceAllFrom searchFrom]. rewrite matchHere_edgeUnderscores, Ha, Hs.
    replace (Nat.eqb pos 0) with false by (symmetry; apply Nat.eqb_neq; lia).
    cbv zeta. cbn [mstart mend].
    replace (Nat.eqb (S pos + List.length s) pos) with false
      by (symmetry; apply Nat.eqb_neq; lia).
    replace (pos - pos)%nat with O by lia.
    replace (S pos + List.length s - pos)%nat with (S (List.length s)) by lia.
    cbn [firstn skipn app]. rewrite skipn_all.
    apply replaceAllFrom_edge_nil.
  - rewrite replaceAllFrom_skip.
    + rewrite IH by lia. reflexivity.
    + rewrite matchHere_edgeUnderscores.
      replace (Nat.eqb pos 0) with false by (symmetry; apply Nat.eqb_neq; lia).
      destruct (N.eqb 95 a); [|reflexivity].
      cbn [andb] in Hall. rewrite Hall. reflexivity.
    + intros m Hm. apply searchFrom_edgeUnderscores_bounds in Hm. exact Hm.
Qed.

Lemma replaceAll_edgeUnderscores (s : str) :
  replaceAll edgeUnderscores [] s = dropTrailing (dropWhile (N.eqb 95) s).
Proof.
  unfold replaceAll. destruct s as [|a s]; [reflexivity|].
  cbn [dropWhile]. destruct (N.eqb 95 a) eqn:Ha.
  - cbn [replaceAllFrom searchFrom]. rewrite matchHere_edgeUnderscores, Ha.
    cbn [Nat.eqb]. cbv zeta. cbn [mstart mend].
    replace (Nat.eqb (1 + runLength (N.eqb 95) s) 0) with false by reflexivity.
    replace (1 + runLength (N.eqb 95) s - 0)%nat with (S (runLength (N.eqb 95) s)) by lia.
    cbn [firstn skipn app Nat.sub]. rewrite skipn_runLength.
    apply replaceAllFrom_trailing; cbn [List.length]; lia.
  - rewrite replaceAllFrom_skip.
    + rewrite replaceAllFrom_trailing by lia.
      cbn [dropTrailing]. rewrite Ha. reflexivity.
    + rewrite matchHere_edgeUnderscores, Ha. reflexivity.
    + intros m Hm. apply searchFrom_edgeUnderscores_bounds in Hm. exact Hm.
Qed.

(** [slugifyAmenity], without the pattern engine. *)
Lemma slugifyAmenity_direct (value : str) :
  slugifyAmenity value
  = dropTrailing (dropWhile (N.eqb 95) (collapseRuns nonAlnum false (toLowerCase value))).
Proof.
  unfold slugifyAmenity. rewrite replaceAll_edgeUnderscores. unfold replaceAll.
  rewrite replaceAllFrom_nonAlnumRun by lia. reflexivity.
Qed.

(** ** [slugifyAmenity] *)

Lemma isAlnum_cases (a : code) :
  isAlnum a = true ->
  N.eqb 95 a = false /\ nonAlnum a = false /\ lowerUnit a = [a].
Proof.
  intros Ha. unfold nonAlnum. rewrite Ha. unfold lowerUnit, isAlnum, inRange in *.
  assert (Hr : (97 <= a <= 122 \/ 48 <= a <= 57)%N).
  { apply orb_true_iff in Ha. destruct Ha as [Ha|Ha];
      apply andb_true_iff in Ha; destruct Ha as [H1 H2];
      apply N.leb_le in H1; apply N.leb_le in H2; lia. }
  replace (N.eqb 95 a) with false by (symmetry; apply N.eqb_neq; lia).
  replace (N.eqb a 304) with false by (symmetry; apply N.eqb_neq; lia).
  replace (N.eqb a 8490) with false by (symmetry; apply N.eqb_neq; lia).
  assert (Hcap : N.leb 65 a && N.leb a 90 = false).
  { apply andb_false_iff. destruct Hr as [Hr|Hr].
    - right. apply N.leb_gt. lia.
    - left. apply N.leb_gt. lia. }
  rewrite Hcap. auto.
Qed.

Lemma underscore_cases (a : code) :
  N.eqb 95 a = true -> a = 95%N /\ nonAlnum a = true /\ lowerUnit a = [a].
Proof.
  intros Ha. apply N.eqb_eq in Ha. subst a. repeat split; reflexivity.
Qed.

Lemma collapseRuns_single (inRun : bool) (t : str) :
  singleUnderscores (collapseRuns nonAlnum inRun t) = true
  /\ (inRun = true -> alnumFirst (collapseRuns nonAlnum inRun t) = true).
Proof.
  revert inRun. induction t as [|a t IH]; intros inRun; [split; reflexivity|].
  cbn [collapseRuns]. destruct (nonAlnum a) eqn:Ha.
  - destruct inRun; [apply IH|].
    destruct (IH true) as [Hs Hf]. specialize (Hf eq_refl). split; [|discriminate].
    cbn [singleUnderscores]. rewrite Hs.
    unfold alnumFirst in Hf. rewrite Hf. cbn [N.eqb Pos.eqb andb].
    rewrite orb_true_r. reflexivity.
  - assert (Hal : isAlnum a = true).
    { unfold nonAlnum in Ha. destruct (isAlnum a); [reflexivity|discriminate]. }
    destruct (IH false) as [Hs _]. split.
    + cbn [singleUnderscores]. rewrite Hal, Hs. reflexivity.
    + intros _. exact Hal.
Qed.

Lemma singleUnderscores_tail (a : code) (s : str) :
  singleUnderscores (a :: s) = true ->
  singleUnderscores s = true /\ (isAlnum a = true \/ N.eqb 95 a = true /\ alnumFirst s = true).
Proof.
  cbn [singleUnderscores]. intros Hs. apply andb_true_iff in Hs. destruct Hs as [Ha Hs].
  split; [exact Hs|]. apply orb_true_iff in Ha. destruct Ha as [Ha|Ha]; [auto|].
  apply andb_true_iff in Ha. right. exact Ha.
Qed.

Lemma dropWhile_single (s : str) :
  singleUnderscores s = true ->
  singleUnderscores (dropWhile (N.eqb 95) s) = true
  /\ alnumFirst (dropWhile (N.eqb 95) s) = true.
Proof.
  induction s as [|a s IH]; intros Hs; [split; reflexivity|].
  destruct (singleUnderscores_tail _ _ Hs) as [Htail Ha].
  cbn [dropWhile]. destruct (N.eqb 95 a) eqn:Hu; [exact (IH Htail)|].
  split; [exact Hs|]. destruct Ha as [Ha|[Ha _]]; [exact Ha|congruence].
Qed.

Lemma dropTrailing_slug (s : str) :
  singleUnderscores s = true ->
  slugTail (dropTrailing s) = true
  /\ (alnumFirst s = true -> alnumFirst (dropTrailing s) = true).
Proof.
  induction s as [|a s IH]; intros Hs; [split; reflexivity|].
  destruct (singleUnderscores_tail _ _ Hs) as [Htail Ha].
  destruct (IH Htail) as [Hslug Hfirst].
  cbn [dropTrailing].
  destruct (N.eqb 95 a && forallb (N.eqb 95) s) eqn:Hall; [split; reflexivity|].
  split; [|intros Hf; exact Hf].
  cbn [slugTail]. rewrite Hslug, andb_true_r.
  destruct Ha as [Ha|[Hu Hf]]; [rewrite Ha; reflexivity|].
  rewrite Hu in *. cbn [andb] in *.
  specialize (Hfirst Hf).
  destruct s as [|b s']; [discriminate Hall|].
  unfold alnumFirst in Hf, Hfirst.
  destruct (isAlnum_cases b Hf) as (Hb & _).
  cbn [dropTrailing] in *. rewrite Hb in *. cbn [andb] in *.
  rewrite Hf. apply orb_true_r.
Qed.

Lemma slugTail_tail (a : code) (s : str) :
  slugTail (a :: s) = true ->
  slugTail s = true
  /\ (isAlnum a = true
      \/ N.eqb 95 a = true /\ exists b s', s = b :: s' /\ isAlnum b = true).
Proof.
  cbn [slugTail]. intros Hs. apply andb_true_iff in Hs. destruct Hs as [Ha Hs].
  split; [exact Hs|]. apply orb_true_iff in Ha. destruct Ha as [Ha|Ha]; [auto|].
  apply andb_true_iff in Ha. destruct Ha as [Hu Hb]. right. split; [exact Hu|].
  destruct s as [|b s']; [discriminate Hb|eauto].
Qed.

Lemma slug_toLowerCase (t : str) : slugTail t = true -> toLowerCase t = t.
Proof.
  induction t as [|a t IH]; intros Hs; [reflexivity|].
  destruct (slugTail_tail _ _ Hs) as [Htail Ha].
  unfold toLowerCase in *. cbn [flat_map]. rewrite (IH Htail).
  destruct Ha as [Ha|[Hu _]].
  - destruct (isAlnum_cases a Ha) as (_ & _ & ->). reflexivity.
  - destruct (underscore_cases a Hu) as (_ & _ & ->). reflexivity.
Qed.

Lemma slug_collapseRuns (inRun : bool) (t : str) :
  slugTail t = true -> (inRun = true -> alnumFirst t = true) ->
  collapseRuns nonAlnum inRun t = t.
Proof.
  revert inRun. induction t as [|a t IH]; intros inRun Hs Hf; [reflexivity|].
  destruct (slugTail_tail _ _ Hs) as [Htail Ha].
  cbn [collapseRuns]. destruct Ha as [Ha|[Hu (b & t' & Et & Hb)]].
  - destruct (isAlnum_cases a Ha) as (_ & -> & _).
    rewrite (IH false Htail); [reflexivity|discriminate].
  - destruct (underscore_cases a Hu) as (Ea & -> & _).
    destruct inRun.
    + specialize (Hf eq_refl). unfold alnumFirst in Hf.
      destruct (isAlnum_cases a Hf) as (Hn & _). congruence.
    + rewrite (IH true Htail); [rewrite Ea; reflexivity|].
      intros _. rewrite Et. exact Hb.
Qed.

Lemma slug_dropTrailing (t : str) : slugTail t = true -> dropTrailing t = t.
Proof.
  induction t as [|a t IH]; intros Hs; [reflexivity|].
  destruct (slugTail_tail _ _ Hs) as [Htail Ha].
  cbn [dropTrailing]. rewrite (IH Htail).
  destruct Ha as [Ha|[Hu (b & t' & -> & Hb)]].
  - destruct (isAlnum_cases a Ha) as (-> & _). reflexivity.
  - destruct (isAlnum_cases b Hb) as (Hnb & _).
    cbn [forallb]. rewrite Hnb, andb_false_r. reflexivity.
Qed.

Lemma slugifyAmenity_isSlug (value : str) : isSlug (slugifyAmenity value) = true.
Proof.
  rewrite slugifyAmenity_direct.
  destruct (collapseRuns_single false (toLowerCase value)) as [Hs _].
  destruct (dropWhile_single _ Hs) as [Hd Hf].
  destruct (dropTrailing_slug _ Hd) as [Hslug Hfirst].
  unfold isSlug. rewrite Hslug, andb_true_r. exact (Hfirst Hf).
Qed.

Lemma slugifyAmenity_fixed (t : str) : isSlug t = true -> slugifyAmenity t = t.
Proof.
  unfold isSlug. intros Ht. apply andb_true_iff in Ht. destruct Ht as [Hf Hs].
  rewrite slugifyAmenity_direct, (slug_toLowerCase t Hs).
  rewrite (slug_collapseRuns false t Hs) by discriminate.
  assert (Hd : dropWhile (N.eqb 95) t = t).
  { destruct t as [|a t']; [reflexivity|]. cbn [dropWhile].
    destruct (isAlnum_cases a Hf) as (-> & _). reflexivity. }
  rewrite Hd. apply slug_dropTrailing. exact Hs.
Qed.

(** X17.  A slug is made of the units a-z and 0-9 with single underscores
    between them: no other unit, no underscore at either end, no two in a
    row.  [slugifyAmenity] always gives a slug, leaves exactly the slugs as
    they are, and so gives the same when applied twice. *)
Theorem slugifyAmenity_slug (value : str) :
  isSlug (slugifyAmenity value) = true
  /\ (isSlug value = true <-> slugifyAmenity value = value)
  /\ slugifyAmenity (slugifyAmenity value) = slugifyAmenity value.
Proof.
  split; [apply slugifyAmenity_isSlug|]. split.
  - split; [apply slugifyAmenity_fixed|].
    intros E. rewrite <- E. apply slugifyAmenity_isSlug.
  - apply slugifyAmenity_fixed. apply slugifyAmenity_isSlug.
Qed.

Lemma slugifyAmenity_slug_witness : slugifyAmenity (js "kids_club") = js "kids_club".
Proof.
  destruct (slugifyAmenity_slug (js "kids_club")) as (_ & [Hfix _] & _).
  apply Hfix. reflexivity.
Defined.

(** ** [buildAmenityKeys] *)

Lemma addKey_spec (key : str) (keys : list str) :
  NoDup keys ->
  NoDup (addKey key keys)
  /\ (forall k, In k (addKey key keys) <-> k = key \/ In k keys)
  /\ (List.length (addKey key keys) <= S (List.length keys))%nat.
Proof.
  intros Hnd. unfold addKey. destruct (existsb (eqs key) keys) eqn:He.
  - apply existsb_exists in He. destruct He as (x & Hx & Hk).
    apply eqs_spec in Hk. subst x.
    split; [exact Hnd|]. split; [|lia].
    intros k. split; [auto|]. intros [->|Hin]; assumption.
  - assert (Hnot : ~ In key keys).
    { intros Hin. assert (existsb (eqs key) keys = true); [|congruence].
      apply existsb_exists. exists key. split; [exact Hin|apply eqs_refl]. }
    split; [|split].
    + apply NoDup_app; [exact Hnd|repeat constructor; intros []|].
      intros k Hk [<-|[]]. contradiction.
    + intros k. rewrite in_app_iff. cbn [In]. intuition congruence.
    + rewrite length_app. cbn [List.length]. lia.
Qed.

(** The keys are the slug of the name, added to generic keys. *)
Lemma buildAmenityKeys_generic (amenity : str) :
  exists generic,
    buildAmenityKeys amenity = addKey (slugifyAmenity amenity) generic
    /\ NoDup generic
    /\ (forall k, In k generic -> In k genericKeys)
    /\ (List.length generic <= 3)%nat.
Proof.
  unfold buildAmenityKeys. cbv zeta.
  match goal with
  | |- context [addKey (slugifyAmenity amenity) ?g] => exists g
  end.
  split; [reflexivity|].
  destruct (includes (js "kids") _), (includes (js "spa") _), (includes (js "pool") _);
    vm_compute addKey;
    (split; [repeat constructor; cbn [In]; intuition discriminate|]);
    (split; [|cbn [List.length]; lia]);
    intros k Hk; cbn [In] in Hk; unfold genericKeys; cbn [map In]; intuition.
Qed.

Lemma genericKeys_slugs (k : str) :
  In k genericKeys -> isSlug k = true /\ k <> js "constructor".
Proof.
  unfold genericKeys. cbn [map In].
  intros [<-|[<-|[<-|[]]]]; split; first [reflexivity|discriminate].
Qed.

Lemma buildAmenityKeys_in (amenity k : str) :
  In k (buildAmenityKeys amenity) -> k = slugifyAmenity amenity \/ In k genericKeys.
Proof.
  destruct (buildAmenityKeys_generic amenity) as (generic & -> & Hnd & Hin & _).
  intros Hk. apply (proj1 (proj2 (addKey_spec _ _ Hnd))) in Hk.
  destruct Hk as [->|Hk]; [left; reflexivity|right; exact (Hin k Hk)].
Qed.

(** X18.  [buildAmenityKeys] gives between one and four keys, none twice;
    the slug of the name is always among them, every other key is one of
    pool, spa and kids_club, and every key is a slug. *)
Theorem buildAmenityKeys_keys (amenity : str) :
  let keys := buildAmenityKeys amenity in
  NoDup keys
  /\ In (slugifyAmenity amenity) keys
  /\ (forall k, In k keys -> k = slugifyAmenity amenity \/ In k genericKeys)
  /\ (forall k, In k keys -> isSlug k = true)
  /\ (1 <= List.length keys <= 4)%nat.
Proof.
  cbv zeta.
  destruct (buildAmenityKeys_generic amenity) as (generic & -> & Hnd & Hin & Hlen).
  destruct (addKey_spec (slugifyAmenity amenity) generic Hnd) as (Hnd' & Hin' & Hlen').
  split; [exact Hnd'|]. split; [apply Hin'; left; reflexivity|].
  split; [|split].
  - intros k Hk. apply Hin' in Hk. destruct Hk as [->|Hk]; [left; reflexivity|].
    right. exact (Hin k Hk).
  - intros k Hk. apply Hin' in Hk. destruct Hk as [->|Hk].
    + apply slugifyAmenity_isSlug.
    + apply genericKeys_slugs. exact (Hin k Hk).
  - split; [|lia].
    assert (Hs : In (slugifyAmenity amenity) (addKey (slugifyAmenity amenity) generic)).
    { apply Hin'. left. reflexivity. }
    destruct (addKey (slugifyAmenity amenity) generic); [destruct Hs|cbn; lia].
Qed.

Lemma buildAmenityKeys_keys_witness :
  js "pool" = slugifyAmenity (js "Pool Deck") \/ In (js "pool") genericKeys.
Proof.
  destruct (buildAmenityKeys_keys (js "Pool Deck")) as (_ & _ & Hk & _).
  apply Hk. vm_compute. left. reflexivity.
Defined.

(** ** [getHoursSetForClub] *)

Lemma slug_not_inherited (key : str) :
  isSlug key = true -> key <> js "constructor" ->
  existsb (eqs key) inheritedKeys = false.
Proof.
  intros Hslug Hne.
  destruct (existsb (eqs key) inheritedKeys) eqn:He; [|reflexivity].
  exfalso. apply existsb_exists in He. destruct He as (x & Hx & Hk).
  apply eqs_spec in Hk. subst x. unfold inheritedKeys in Hx. cbn [map In] in Hx.
  repeat (destruct Hx as [<-|Hx]; [first [congruence|discriminate Hslug]|]).
  destruct Hx.
Qed.

Lemma getProperty_own {A : Type} (object : list (str * A)) (key : str) (a : A) :
  getProperty object key = Own a ->
  exists k, In (k, a) object /\ k = key.
Proof.
  unfold getProperty.
  destruct (find (fun entry => eqs (fst entry) key) object) as [[k v]|] eqn:Hf.
  - intros E. injection E as <-. apply find_some in Hf. destruct Hf as [Hin Hk].
    apply eqs_spec in Hk. eauto.
  - destruct (existsb _ _); discriminate.
Qed.

Lemma firstAmenityHours_returns (amenities : list (str * HoursSet)) (keys : list str) :
  (forall k, In k keys -> existsb (eqs k) inheritedKeys = false) ->
  exists r,
    firstAmenityHours amenities keys = Some r
    /\ match r with
       | Some h =>
           set_spans h <> []
           /\ exists key, In key keys /\ In (key, h) amenities
       | None => True
       end.
Proof.
  induction keys as [|key keys IH]; intros Hsafe; cbn [firstAmenityHours].
  { exists None. auto. }
  destruct IH as (r & Hr & Hspec); [intros k Hk; apply Hsafe; right; exact Hk|].
  assert (Hrest : exists r',
             firstAmenityHours amenities keys = Some r'
             /\ match r' with
                | Some h =>
                    set_spans h <> []
                    /\ exists key', In key' (key :: keys) /\ In (key', h) amenities
                | None => True
                end).
  { exists r. split; [exact Hr|]. destruct r as [h|]; [|exact I].
    destruct Hspec as (Hne & k & Hk & Hin). split; [exact Hne|].
    exists k. split; [right; exact Hk|exact Hin]. }
  destruct (getProperty amenities key) as [h| |] eqn:Hp.
  - destruct (set_spans h) as [|s0 rest] eqn:Hs; cbn [List.length Nat.eqb negb].
    + exact Hrest.
    + exists (Some h). split; [reflexivity|]. split; [rewrite Hs; discriminate|].
      destruct (getProperty_own _ _ _ Hp) as (k & Hin & ->).
      exists key. split; [left; reflexivity|exact Hin].
  - exfalso. unfold getProperty in Hp.
    destruct (find _ amenities) as [[k v]|]; [discriminate|].
    rewrite (Hsafe key (or_introl eq_refl)) in Hp. discriminate.
  - exact Hrest.
Qed.

(** X19.  For a name whose slug is not "constructor", [getHoursSetForClub]
    returns without failure, and what it returns is the club's own hours or
    hours the club lists under one of the keys of the name, and then hours
    with at least one span: empty amenity hours are never returned. *)
Theorem getHoursSetForClub_result (club : Club) (amenity : str) :
  slugifyAmenity amenity <> js "constructor" ->
  exists h,
    getHoursSetForClub club (Some amenity) = Some h
    /\ (h = hours_club (club_hours club)
        \/ set_spans h <> []
           /\ exists key, In key (buildAmenityKeys amenity)
                          /\ In (key, h) (hours_amenities (club_hours club))).
Proof.
  intros Hne. unfold getHoursSetForClub.
  destruct amenity as [|a0 amenity']; [eauto|].
  set (amenity := a0 :: amenity') in *.
  destruct (firstAmenityHours_returns (hours_amenities (club_hours club))
              (buildAmenityKeys amenity)) as (r & Hr & Hspec).
  { intros k Hk. destruct (buildAmenityKeys_in amenity k Hk) as [->|Hg].
    - apply slug_not_inherited; [apply slugifyAmenity_isSlug|exact Hne].
    - apply slug_not_inherited; apply (genericKeys_slugs k Hg). }
  rewrite Hr. destruct r as [h|]; [|eauto].
  exists h. split; [reflexivity|]. right. exact Hspec.
Qed.

Lemma getHoursSetForClub_result_witness :
  exists h,
    getHoursSetForClub
      (mkClub [js "Pool"]
         (mkClubHours (mkHoursSet [] None)
            [(js "pool", mkHoursSet [mkSpan 1 (js "06:00") (js "20:00")] None)]))
      (Some (js "Rooftop Pool")) = Some h.
Proof.
  destruct (getHoursSetForClub_result
              (mkClub [js "Pool"]
                 (mkClubHours (mkHoursSet [] None)
                    [(js "pool", mkHoursSet [mkSpan 1 (js "06:00") (js "20:00")] None)]))
              (js "Rooftop Pool")) as (h & Hh & _).
  - vm_compute. discriminate.
  - exists h. exact Hh.
Defined.

Lemma startsWith_split (t s : str) :
  startsWith t s = true -> exists post, s = t ++ post.
Proof.
  revert s. induction t as [|x t IH]; intros s Hs; [exists s; reflexivity|].
  destruct s as [|y s]; [discriminate Hs|]. cbn [startsWith] in Hs.
  apply andb_true_iff in Hs. destruct Hs as [Hxy Hs]. apply N.eqb_eq in Hxy. subst y.
  destruct (IH s Hs) as (post & ->). exists post. reflexivity.
Qed.

Lemma startsWith_app (t post : str) : startsWith t (t ++ post) = true.
Proof.
  induction t as [|x t IH]; [destruct post; reflexivity|].
  cbn [app startsWith]. rewrite N.eqb_refl, IH. reflexivity.
Qed.

Lemma includes_split (t s : str) :
  includes t s = true -> exists pre post, s = pre ++ t ++ post.
Proof.
  induction s as [|y s IH]; cbn [includes]; intros Hi.
  - rewrite orb_false_r in Hi. apply startsWith_split in Hi.
    destruct Hi as (post & Hp). exists [], post. exact Hp.
  - apply orb_true_iff in Hi. destruct Hi as [Hi|Hi].
    + apply startsWith_split in Hi. destruct Hi as (post & Hp).
      exists [], post. exact Hp.
    + destruct (IH Hi) as (pre & post & ->). exists (y :: pre), post. reflexivity.
Qed.

Lemma includes_app (t pre post : str) : includes t (pre ++ t ++ post) = true.
Proof.
  induction pre as [|y pre IH]; cbn [app].
  - destruct (t ++ post) eqn:E; cbn [includes]; rewrite <- E, startsWith_app; reflexivity.
  - cbn [includes]. rewrite IH. apply orb_true_r.
Qed.

Lemma collapseRuns_word (w post : str) :
  forallb isAlnum w = true ->
  collapseRuns nonAlnum false (w ++ post) = w ++ collapseRuns nonAlnum false post.
Proof.
  induction w as [|a w IH]; intros Hw; [reflexivity|].
  cbn [forallb] in Hw. apply andb_true_iff in Hw. destruct Hw as [Ha Hw].
  destruct (isAlnum_cases a Ha) as (_ & Hn & _).
  cbn [app collapseRuns]. rewrite Hn, (IH Hw). reflexivity.
Qed.

Lemma collapseRuns_keeps_word (inRun : bool) (pre : str) (a : code) (w post : str) :
  forallb isAlnum (a :: w) = true ->
  exists left,
    collapseRuns nonAlnum inRun (pre ++ a :: w ++ post)
    = left ++ a :: w ++ collapseRuns nonAlnum false post.
Proof.
  intros Hw. revert inRun. induction pre as [|c pre IH]; intros inRun.
  - exists []. pose proof Hw as Hw'. cbn [forallb] in Hw'.
    apply andb_true_iff in Hw'. destruct Hw' as [Ha Hw'].
    destruct (isAlnum_cases a Ha) as (_ & Hn & _).
    cbn [app collapseRuns]. rewrite Hn. f_equal.
    exact (collapseRuns_word w post Hw').
  - cbn [app collapseRuns]. destruct (nonAlnum c).
    + destruct inRun.
      * exact (IH true).
      * destruct (IH true) as (l & ->). exists (95%N :: l). reflexivity.
    + destruct (IH false) as (l & ->). exists (c :: l). reflexivity.
Qed.

Lemma dropTrailing_keeps (pre : str) (z : code) (post : str) :
  N.eqb 95 z = false ->
  dropTrailing (pre ++ z :: post) = pre ++ z :: dropTrailing post.
Proof.
  intros Hz. induction pre as [|a pre IH]; cbn [app dropTrailing].
  - rewrite Hz. reflexivity.
  - assert (Hall : forallb (N.eqb 95) (pre ++ z :: post) = false).
    { rewrite forallb_app. cbn [forallb]. rewrite Hz. apply andb_false_r. }
    rewrite Hall, andb_false_r, IH. reflexivity.
Qed.

(** A word of [a-z0-9] that the lower-cased name contains is in the slug. *)
Lemma slugifyAmenity_includes (t value : str) :
  t <> [] -> forallb isAlnum t = true ->
  includes t (toLowerCase value) = true ->
  includes t (slugifyAmenity value) = true.
Proof.
  intros Hne Halnum Hin. rewrite slugifyAmenity_direct.
  apply includes_split in Hin. destruct Hin as (pre & post & ->).
  destruct t as [|a w]; [congruence|].
  change ((a :: w) ++ post) with (a :: w ++ post).
  destruct (collapseRuns_keeps_word false pre a w post Halnum) as (l & ->).
  change (a :: w ++ collapseRuns nonAlnum false post)
    with ((a :: w) ++ collapseRuns nonAlnum false post).
  pose proof Halnum as Ha. cbn [forallb] in Ha. apply andb_true_iff in Ha.
  destruct Ha as [Ha _]. destruct (isAlnum_cases a Ha) as (Hua & _).
  destruct (dropWhile_app_stop (N.eqb 95) l
              ((a :: w) ++ collapseRuns nonAlnum false post)) as (l' & ->).
  { exact Hua. }
  destruct (exists_last (l := a :: w)) as (w' & z & Ew); [discriminate|].
  rewrite Ew in *.
  assert (Hz : N.eqb 95 z = false).
  { rewrite forallb_app in Halnum. apply andb_true_iff in Halnum.
    destruct Halnum as [_ Hz]. cbn [forallb] in Hz. rewrite andb_true_r in Hz.
    destruct (isAlnum_cases z Hz) as (Huz & _). exact Huz. }
  rewrite <- app_assoc. cbn [app]. rewrite app_assoc.
  rewrite (dropTrailing_keeps (l' ++ w') z _ Hz).
  rewrite <- app_assoc.
  change (z :: dropTrailing (collapseRuns nonAlnum false post))
    with ([z] ++ dropTrailing (collapseRuns nonAlnum false post)).
  rewrite (app_assoc w'). apply includes_app.
Qed.

(** X20.  For a name whose slug is "constructor" (the name Constructor, in
    any letter case and with any punctuation around it), on a club that
    lists no hours under that key, [getHoursSetForClub] fails: the lookup
    finds the function every object inherits under that name, and reading
    the length of its missing [spans] is a [TypeError]. *)
Theorem getHoursSetForClub_constructor (club : Club) (amenity : str) :
  slugifyAmenity amenity = js "constructor" ->
  ownProperty (hours_amenities (club_hours club)) (js "constructor") = None ->
  getHoursSetForClub club (Some amenity) = None.
Proof.
  intros Hslug Hown.
  assert (Hno : forall t, t <> [] -> forallb isAlnum t = true ->
                  includes t (js "constructor") = false ->
                  includes t (toLowerCase amenity) = false).
  { intros t Hne Ht Hc. destruct (includes t (toLowerCase amenity)) eqn:Hi; [|reflexivity].
    apply (slugifyAmenity_includes t amenity Hne Ht) in Hi.
    rewrite Hslug in Hi. congruence. }
  assert (Hkeys : buildAmenityKeys amenity = [js "constructor"]).
  { unfold buildAmenityKeys. cbv zeta.
    rewrite (Hno (js "pool")), (Hno (js "spa")), (Hno (js "kids"));
      try reflexivity; try discriminate.
    rewrite Hslug. reflexivity. }
  unfold getHoursSetForClub. destruct amenity as [|a0 amenity']; [discriminate Hslug|].
  rewrite Hkeys. cbn [firstAmenityHours]. unfold getProperty.
  unfold ownProperty in Hown.
  destruct (find _ (hours_amenities (club_hours club))) as [[k v]|]; [discriminate Hown|].
  reflexivity.
Qed.

Lemma getHoursSetForClub_constructor_witness :
  getHoursSetForClub (mkClub [] (mkClubHours (mkHoursSet [] None) []))
    (Some (js "Constructor")) = None.
Proof.
  apply getHoursSetForClub_constructor; reflexivity.
Defined.

(** ** The scraper: [normalizeServiceTime] *)

Lemma split_cons (s : str) : exists p ps, split 58%N s = p :: ps.
Proof.
  induction s as [|c s IH]; cbn [split]; [eauto|].
  destruct (N.eqb c 58); [eauto|].
  destruct (split 58%N s) as [|p ps]; eauto.
Qed.

Lemma split_piece (a rest : str) :
  hasColon a = false -> split 58%N (a ++ 58%N :: rest) = a :: split 58%N rest.
Proof.
  induction a as [|c a IH]; intros Ha; [reflexivity|].
  unfold hasColon in *. cbn [existsb] in Ha. apply orb_false_iff in Ha.
  destruct Ha as [Hc Ha]. cbn [app split]. rewrite Hc, (IH Ha). reflexivity.
Qed.

Lemma split_whole (a : str) : hasColon a = false -> split 58%N a = [a].
Proof.
  induction a as [|c a IH]; intros Ha; [reflexivity|].
  unfold hasColon in *. cbn [existsb] in Ha. apply orb_false_iff in Ha.
  destruct Ha as [Hc Ha]. cbn [split]. rewrite Hc, (IH Ha). reflexivity.
Qed.

(** The pieces of a split, put back together. *)
Lemma split_join (s : str) :
  match split 58%N s with
  | [] => False
  | [p] => s = p /\ hasColon p = false
  | p :: (_ :: _) as ps =>
      hasColon p = false /\ exists rest, s = p ++ 58%N :: rest /\ split 58%N rest = ps
  end.
Proof.
  induction s as [|c s IH]; cbn [split]; [split; reflexivity|].
  destruct (N.eqb_spec c 58) as [->|Hc].
  - destruct (split_cons s) as (p & ps & Hs). rewrite Hs.
    split; [reflexivity|]. exists s. split; [reflexivity|exact Hs].
  - assert (Hc' : N.eqb c 58 = false) by (apply N.eqb_neq; exact Hc).
    destruct (split 58%N s) as [|p [|q ps]] eqn:Hs; [destruct IH| |].
    + destruct IH as [-> Hp]. split; [reflexivity|].
      unfold hasColon in *. cbn [existsb]. rewrite Hc', Hp. reflexivity.
    + destruct IH as (Hp & rest & -> & Hrest). split.
      * unfold hasColon in *. cbn [existsb]. rewrite Hc', Hp. reflexivity.
      * exists rest. split; [reflexivity|exact Hrest].
Qed.

Lemma padStart0_field (s : str) :
  hasColon s = false -> timeField (padStart0 2 s).
Proof.
  intros Hs. unfold timeField, padStart0, hasColon in *. split.
  - rewrite existsb_app, Hs, orb_false_r.
    destruct (2 - List.length s)%nat as [|[|[|n]]] eqn:E; try reflexivity. lia.
  - rewrite length_app, repeat_length. unfold code in *. lia.
Qed.

Lemma padStart0_fixed (s : str) : (2 <= List.length s)%nat -> padStart0 2 s = s.
Proof.
  intros Hs. unfold padStart0.
  replace (2 - List.length s)%nat with O by lia. reflexivity.
Qed.

Lemma normalizeServiceTime_two_fields (a b : str) :
  timeField a -> timeField b ->
  normalizeServiceTime (Some (a ++ 58%N :: b)) = Some (a ++ 58%N :: b).
Proof.
  intros [Ha La] [Hb Lb]. unfold normalizeServiceTime.
  destruct (a ++ 58%N :: b) as [|c0 rest] eqn:E.
  { destruct a; discriminate E. }
  rewrite <- E, (split_piece a b Ha), (split_whole b Hb).
  rewrite (padStart0_fixed a La), (padStart0_fixed b Lb). reflexivity.
Qed.

(** X21.  [normalizeServiceTime] gives nothing exactly when the value is
    absent or has no colon.  What it gives is two fields around one colon,
    each of two units or more and without a colon (the seconds and anything
    after them are gone), and is left as it is when normalised again. *)
Theorem normalizeServiceTime_shape (value : option str) :
  match normalizeServiceTime value with
  | None =>
      match value with
      | None => True
      | Some v => hasColon v = false
      end
  | Some t =>
      (exists v, value = Some v /\ hasColon v = true)
      /\ (exists a b, t = a ++ 58%N :: b /\ timeField a /\ timeField b)
      /\ normalizeServiceTime (Some t) = Some t
  end.
Proof.
  destruct value as [v|]; [|exact I].
  unfold normalizeServiceTime at 1.
  destruct v as [|c0 v']; [reflexivity|].
  set (v := c0 :: v').
  pose proof (split_join v) as Hj.
  destruct (split 58%N v) as [|p0 [|p1 ps]] eqn:Hs; [destruct Hj| |].
  - destruct Hj as [Hv Hp]. rewrite Hv. exact Hp.
  - destruct Hj as (Hp0 & rest & Hv & Hrest).
    assert (Hp1 : hasColon p1 = false).
    { pose proof (split_join rest) as Hr. rewrite Hrest in Hr.
      destruct ps; [apply Hr|apply Hr]. }
    split; [|split].
    + exists v. split; [reflexivity|]. rewrite Hv. unfold hasColon.
      rewrite existsb_app. cbn [existsb N.eqb Pos.eqb]. rewrite orb_true_r. reflexivity.
    + exists (padStart0 2 p0), (padStart0 2 p1).
      split; [reflexivity|]. split; apply padStart0_field; assumption.
    + apply (normalizeServiceTime_two_fields (padStart0 2 p0) (padStart0 2 p1));
        apply padStart0_field; assumption.
Qed.

(** X22.  A service time that begins with a canonical clock time, alone or
    followed by a colon and seconds, is cut to that clock time, which the
    time parser then reads as itself. *)
Theorem normalizeServiceTime_clock (h m : Z) (seconds : str) :
  validClock h m ->
  normalizeServiceTime (Some (clockTime h m)) = Some (clockTime h m)
  /\ normalizeServiceTime (Some (clockTime h m ++ 58%N :: seconds))
     = Some (clockTime h m)
  /\ parseTimeTo24h (clockTime h m) = Some (clockTime h m).
Proof.
  intros Hv.
  destruct (clockTime_shape h m Hv) as (a & b & c & e & -> & Ha & Hb & Hc & He & Hp & _).
  assert (Hd : forall x, isDigit x = true -> N.eqb x 58 = false).
  { intros x Hx. unfold isDigit, inRange in Hx. apply andb_true_iff in Hx.
    destruct Hx as [_ Hx]. apply N.leb_le in Hx. apply N.eqb_neq. lia. }
  assert (Hf1 : hasColon [a; b] = false).
  { unfold hasColon. cbn [existsb]. rewrite (Hd a Ha), (Hd b Hb). reflexivity. }
  assert (Hf2 : hasColon [c; e] = false).
  { unfold hasColon. cbn [existsb]. rewrite (Hd c Hc), (Hd e He). reflexivity. }
  split; [|split; [|exact Hp]].
  - apply (normalizeServiceTime_two_fields [a; b] [c; e]); split; auto.
  - unfold normalizeServiceTime. cbn [app].
    change (a :: b :: 58%N :: c :: e :: 58%N :: seconds)
      with ([a; b] ++ 58%N :: ([c; e] ++ 58%N :: seconds)).
    rewrite (split_piece [a; b] _ Hf1), (split_piece [c; e] _ Hf2).
    reflexivity.
Qed.

Lemma normalizeServiceTime_clock_witness :
  normalizeServiceTime (Some (js "06:30:00")) = Some (js "06:30").
Proof.
  destruct (normalizeServiceTime_clock 6 30 (js "00")) as (_ & Hcut & _).
  - unfold validClock. lia.
  - exact Hcut.
Defined.
